(** * vdirsyncer.cli.utils: status persistence, storage factory, error reporting

    A shallow embedding of [src/vdirsyncer/cli/utils.py].

    - Python [str] values that are file contents or JSON data are modelled
      as [text], a list of Unicode code points ([N]); identifiers, paths and
      log messages are Rocq [string]s.
    - [json.load]/[json.dump] are modelled after CPython's [_json] scanner
      and the default encoder ([ensure_ascii=True], separators [", "] and
      [": "]); float values are kept as their JSON lexeme.
    - The file system is a finite map from paths to regular files;
      directories are not modelled.
    - Effects (files, log records, answers to prompts, a trace of calls to
      collaborators) are threaded through a state and exception monad [M]. *)

From Stdlib Require Import ZArith NArith Ascii String Decimal DecimalN Lia.
From Stdlib Require DecimalFacts.
From Stdlib Require Import Floats.SpecFloat.
From stdpp Require Import base gmap strings list.

Set Warnings "-register-all".
Open Scope N_scope.

(* ------------------------------------------------------------------ *)
(** ** Text as code points *)

Abbreviation text := (list N).

Definition cp_of_ascii (c : ascii) : N := N.of_nat (nat_of_ascii c).

(** [T s] is the text of an ASCII string literal. *)
Definition T (s : string) : text := map cp_of_ascii (list_ascii_of_string s).

(** The double quote character, which cannot be written inside a string
    literal here. *)
Definition qt : string := String (ascii_of_nat 34) EmptyString.

(* ------------------------------------------------------------------ *)
(** ** Python's [json] module *)

Module Json.

(** Values returned by [json.load]: objects are Python dicts, whose keys
    are unique; a float is kept as its JSON lexeme. *)
Inductive json : Type :=
| JNull
| JBool (b : bool)
| JInt (z : Z)
| JFloat (lexeme : text)
| JStr (s : text)
| JArr (l : list json)
| JObj (l : list (text * json)).

(** [d[k] = v] on a dict: an existing key keeps its position. *)
Fixpoint obj_set (k : text) (v : json) (l : list (text * json))
  : list (text * json) :=
  match l with
  | [] => [(k, v)]
  | (k', v') :: r =>
      if decide (k = k') then (k', v) :: r else (k', v') :: obj_set k v r
  end.

(** Scanner outcome: a value and the remaining input, a decoding error
    ([JSONDecodeError], a [ValueError]), or the recursion limit. *)
Inductive scan (A : Type) : Type :=
| SOk (a : A) (rest : text)
| SErr
| SDeep.
Arguments SOk {A} a rest.
Arguments SErr {A}.
Arguments SDeep {A}.

Definition is_ws (c : N) : bool :=
  (c =? 32) || (c =? 9) || (c =? 10) || (c =? 13).

Fixpoint skip_ws (s : text) : text :=
  match s with
  | c :: r => if is_ws c then skip_ws r else s
  | [] => []
  end.

Definition is_digit (c : N) : bool := (48 <=? c) && (c <=? 57).

Fixpoint span_digits (s : text) : text * text :=
  match s with
  | c :: r =>
      if is_digit c then let '(d, r') := span_digits r in (c :: d, r')
      else ([], s)
  | [] => ([], [])
  end.

Definition digits_value (d : text) : N :=
  fold_left (fun acc c => acc * 10 + (c - 48)) d 0.

Fixpoint strip_prefix (p s : text) : option text :=
  match p, s with
  | [], _ => Some s
  | a :: p', b :: s' => if a =? b then strip_prefix p' s' else None
  | _ :: _, [] => None
  end.

(** The groups of [_match_number_unicode]'s pattern
    [-?(0|[1-9][0-9]* )(\.[0-9]+)?([eE][-+]?[0-9]+)?]: the integer part,
    the fraction and the exponent, each with the text after it. *)
Definition scan_int_part (s1 : text) : option (text * text) :=
  match s1 with
  | [] => None
  | c :: r =>
      if c =? 48 then Some ([c], r)
      else if (49 <=? c) && (c <=? 57) then
        let '(d, r') := span_digits r in Some (c :: d, r')
      else None
  end.

Definition scan_frac (r1 : text) : bool * text :=
  match r1 with
  | c0 :: r1' =>
      if (c0 =? 46) && match r1' with
                        | c1 :: _ => is_digit c1
                        | [] => false
                        end
      then (true, snd (span_digits r1')) else (false, r1)
  | [] => (false, r1)
  end.

Definition scan_exp (r2 : text) : bool * text :=
  match r2 with
  | e :: r2' =>
      if (e =? 101) || (e =? 69) then
        let r2'' :=
          match r2' with
          | sg :: t => if (sg =? 43) || (sg =? 45) then t else r2'
          | [] => r2'
          end in
        let '(ed, r2''') := span_digits r2'' in
        match ed with
        | [] => (false, r2)
        | _ => (true, r2''')
        end
      else (false, r2)
  | [] => (false, r2)
  end.

(** [sys.get_int_max_str_digits()]: by default [int] refuses to convert a
    decimal string of more than 4300 digits, and [int.__repr__] to write
    one, with a [ValueError]. *)
Definition int_max_str_digits : nat := 4300.

(** An integer without fraction or exponent is an [int], anything else a
    [float].  The integer goes through [PyLong_FromString], which raises
    the [ValueError] of the digit limit ([SErr], like a decoding error:
    both are [ValueError]s) at this point of the scan. *)
Definition scan_number (s : text) : scan json :=
  let '(neg, s1) :=
    match s with
    | c :: r => if c =? 45 then (true, r) else (false, s)
    | [] => (false, s)
    end in
  match scan_int_part s1 with
  | None => SErr
  | Some (idigits, r1) =>
      let '(has_frac, r2) := scan_frac r1 in
      let '(has_exp, r3) := scan_exp r2 in
      if has_frac || has_exp then
        SOk (JFloat (firstn (length s - length r3) s)) r3
      else if (int_max_str_digits <? length idigits)%nat then SErr
      else
        let v := Z.of_N (digits_value idigits) in
        SOk (JInt (if neg then Z.opp v else v)) r3
  end.

Definition hex_value (c : N) : option N :=
  if (48 <=? c) && (c <=? 57) then Some (c - 48)
  else if (97 <=? c) && (c <=? 102) then Some (c - 87)
  else if (65 <=? c) && (c <=? 70) then Some (c - 55)
  else None.

Definition hex4 (a b c d : N) : option N :=
  match hex_value a, hex_value b, hex_value c, hex_value d with
  | Some x, Some y, Some z, Some t => Some (((x * 16 + y) * 16 + z) * 16 + t)
  | _, _, _, _ => None
  end.

Definition is_high_surrogate (c : N) : bool := (55296 <=? c) && (c <=? 56319).
Definition is_low_surrogate (c : N) : bool := (56320 <=? c) && (c <=? 57343).

Definition join_surrogates (hi lo : N) : N :=
  65536 + (hi - 55296) * 1024 + (lo - 56320).

Definition simple_escape (e : N) : option N :=
  if e =? 34 then Some 34 else if e =? 92 then Some 92
  else if e =? 47 then Some 47 else if e =? 98 then Some 8
  else if e =? 102 then Some 12 else if e =? 110 then Some 10
  else if e =? 114 then Some 13 else if e =? 116 then Some 9
  else None.

Definition nonempty (s : text) : bool :=
  match s with [] => false | _ => true end.

Definition scan_cons (c : N) (r : scan text) : scan text :=
  match r with
  | SOk t rest => SOk (c :: t) rest
  | SErr => SErr
  | SDeep => SDeep
  end.

(** [scanstring_unicode] with [strict=True], after the opening quote. *)
Fixpoint scan_str (s : text) : scan text :=
  match s with
  | [] => SErr
  | c :: r =>
      if c =? 34 then SOk [] r
      else if c =? 92 then
        match r with
        | [] => SErr
        | e :: r' =>
            if e =? 117 then
              match r' with
              | h1 :: h2 :: h3 :: h4 :: r'' =>
                  match hex4 h1 h2 h3 h4 with
                  | None => SErr
                  | Some cp =>
                      if is_high_surrogate cp then
                        match r'' with
                        | b1 :: b2 :: g1 :: g2 :: g3 :: g4 :: r3 =>
                            if (b1 =? 92) && (b2 =? 117) && nonempty r3 then
                              match hex4 g1 g2 g3 g4 with
                              | None => SErr
                              | Some lo =>
                                  if is_low_surrogate lo
                                  then scan_cons (join_surrogates cp lo) (scan_str r3)
                                  else scan_cons cp (scan_str r'')
                              end
                            else scan_cons cp (scan_str r'')
                        | _ => scan_cons cp (scan_str r'')
                        end
                      else scan_cons cp (scan_str r'')
                  end
              | _ => SErr
              end
            else
              match simple_escape e with
              | Some c' => scan_cons c' (scan_str r')
              | None => SErr
              end
        end
      else if c <? 32 then SErr
      else scan_cons c (scan_str r)
  end.

(** The named constants accepted by [scan_once_unicode]. *)
Definition scan_constant (s : text) : option (json * text) :=
  match strip_prefix (T "null") s with
  | Some r => Some (JNull, r)
  | None =>
  match strip_prefix (T "true") s with
  | Some r => Some (JBool true, r)
  | None =>
  match strip_prefix (T "false") s with
  | Some r => Some (JBool false, r)
  | None =>
  match strip_prefix (T "NaN") s with
  | Some r => Some (JFloat (T "NaN"), r)
  | None =>
  match strip_prefix (T "Infinity") s with
  | Some r => Some (JFloat (T "Infinity"), r)
  | None =>
  match strip_prefix (T "-Infinity") s with
  | Some r => Some (JFloat (T "-Infinity"), r)
  | None => None
  end end end end end end.

(** [scan_once_unicode], [_parse_object_unicode] and [_parse_array_unicode].
    [depth] is the recursion budget of [Py_EnterRecursiveCall]: entering an
    array or an object spends one unit, and an exhausted budget is a
    [RecursionError].  The fuel [n] only makes the recursion structural: two
    nested calls consume at least one character, so [loads] gives enough. *)
Fixpoint scan_value (n depth : nat) (s : text) {struct n} : scan json :=
  match n with
  | O => SErr
  | S n' =>
      match s with
      | [] => SErr
      | c :: r =>
          if c =? 34 then
            match scan_str r with
            | SOk t r' => SOk (JStr t) r'
            | SErr => SErr
            | SDeep => SDeep
            end
          else if c =? 123 then
            match depth with
            | O => SDeep
            | S d' =>
                match skip_ws r with
                | c1 :: r1 => if c1 =? 125 then SOk (JObj []) r1
                              else scan_members n' d' [] (c1 :: r1)
                | [] => SErr
                end
            end
          else if c =? 91 then
            match depth with
            | O => SDeep
            | S d' =>
                match skip_ws r with
                | c1 :: r1 => if c1 =? 93 then SOk (JArr []) r1
                              else scan_elems n' d' [] (c1 :: r1)
                | [] => SErr
                end
            end
          else
            match scan_constant s with
            | Some (v, r') => SOk v r'
            | None => scan_number s
            end
      end
  end
with scan_members (n depth : nat) (acc : list (text * json)) (s : text) {struct n}
  : scan json :=
  match n with
  | O => SErr
  | S n' =>
      match s with
      | c :: r =>
          if c =? 34 then
            match scan_str r with
            | SOk k r1 =>
                match skip_ws r1 with
                | c2 :: r2 =>
                    if c2 =? 58 then
                      match scan_value n' depth (skip_ws r2) with
                      | SOk v r3 =>
                          let acc' := obj_set k v acc in
                          match skip_ws r3 with
                          | c3 :: r4 =>
                              if c3 =? 125 then SOk (JObj acc') r4
                              else if c3 =? 44 then scan_members n' depth acc' (skip_ws r4)
                              else SErr
                          | [] => SErr
                          end
                      | SErr => SErr
                      | SDeep => SDeep
                      end
                    else SErr
                | [] => SErr
                end
            | SErr => SErr
            | SDeep => SDeep
            end
          else SErr
      | [] => SErr
      end
  end
with scan_elems (n depth : nat) (acc : list json) (s : text) {struct n} : scan json :=
  match n with
  | O => SErr
  | S n' =>
      match scan_value n' depth s with
      | SOk v r3 =>
          let acc' := acc ++ [v] in
          match skip_ws r3 with
          | c3 :: r4 =>
              if c3 =? 93 then SOk (JArr acc') r4
              else if c3 =? 44 then scan_elems n' depth acc' (skip_ws r4)
              else SErr
          | [] => SErr
          end
      | SErr => SErr
      | SDeep => SDeep
      end
  end.

(** [json.loads] under a recursion budget [limit]: leading and trailing
    whitespace, then exactly one value.  [DecodeError] is any [ValueError]
    of the scanner (a [JSONDecodeError] or the digit limit of [int]), the
    first one met in reading order; so is [TooDeep]. *)
Inductive loaded : Type :=
| Loaded (v : json)
| DecodeError
| TooDeep.

Definition loads (limit : nat) (s : text) : loaded :=
  match scan_value (S (S (2 * length s))) limit (skip_ws s) with
  | SOk v r => match skip_ws r with [] => Loaded v | _ :: _ => DecodeError end
  | SErr => DecodeError
  | SDeep => TooDeep
  end.

(** *** Encoder *)

Fixpoint uint_text (d : Decimal.uint) : text :=
  match d with
  | Decimal.Nil => []
  | Decimal.D0 u => 48 :: uint_text u
  | Decimal.D1 u => 49 :: uint_text u
  | Decimal.D2 u => 50 :: uint_text u
  | Decimal.D3 u => 51 :: uint_text u
  | Decimal.D4 u => 52 :: uint_text u
  | Decimal.D5 u => 53 :: uint_text u
  | Decimal.D6 u => 54 :: uint_text u
  | Decimal.D7 u => 55 :: uint_text u
  | Decimal.D8 u => 56 :: uint_text u
  | Decimal.D9 u => 57 :: uint_text u
  end.

(** The decimal digits of [abs(z)]. *)
Definition int_digits (z : Z) : text := uint_text (N.to_uint (Z.to_N (Z.abs z))).

(** The text [int.__repr__] writes. *)
Definition int_text (z : Z) : text :=
  if (z <? 0)%Z then 45 :: int_digits z else int_digits z.

(** [int.__repr__]: [None] is its [ValueError] for more than
    [int_max_str_digits] digits (the sign not counted). *)
Definition int_repr (z : Z) : option text :=
  if (int_max_str_digits <? length (int_digits z))%nat then None else Some (int_text z).

(** ['{0:04x}'.format(n)] for [n < 0x10000]. *)
Definition hex_digit (x : N) : N := if x <? 10 then 48 + x else 87 + x.

Definition u_escape (n : N) : text :=
  [92; 117; hex_digit (n / 4096 mod 16); hex_digit (n / 256 mod 16);
   hex_digit (n / 16 mod 16); hex_digit (n mod 16)].

(** The replacement of one character in [py_encode_basestring_ascii]:
    [ESCAPE_DCT], then [\uXXXX], with a surrogate pair above the BMP. *)
Definition escape_char (c : N) : text :=
  if c =? 92 then [92; 92]
  else if c =? 34 then [92; 34]
  else if c =? 8 then [92; 98]
  else if c =? 12 then [92; 102]
  else if c =? 10 then [92; 110]
  else if c =? 13 then [92; 114]
  else if c =? 9 then [92; 116]
  else if (32 <=? c) && (c <=? 126) then [c]
  else if c <? 65536 then u_escape c
  else
    let n := c - 65536 in
    let s1 := N.lor 55296 (N.land (N.shiftr n 10) 1023) in
    let s2 := N.lor 56320 (N.land n 1023) in
    u_escape s1 ++ u_escape s2.

Definition encode_str (s : text) : text := [34] ++ flat_map escape_char s ++ [34].

Fixpoint join_text (sep : text) (l : list text) : text :=
  match l with
  | [] => []
  | [x] => x
  | x :: r => x ++ sep ++ join_text sep r
  end.

(** The text the default encoder writes ([ensure_ascii=True], separators
    [", "] and [": "]) when no error interrupts it. *)
Fixpoint dump_text (v : json) : text :=
  match v with
  | JNull => T "null"
  | JBool true => T "true"
  | JBool false => T "false"
  | JInt z => int_text z
  | JFloat lex => lex
  | JStr s => encode_str s
  | JArr l => [91] ++ join_text (T ", ") (map dump_text l) ++ [93]
  | JObj l =>
      [123] ++ join_text (T ", ")
                (map (fun kv => encode_str (fst kv) ++ T ": " ++ dump_text (snd kv)) l)
      ++ [125]
  end.

(** The errors [json.dump] can raise on a decoded value. *)
Inductive dump_err : Type :=
| DumpValueError
| DumpRecursionError.

(** The first error [json.dump] meets, in document order.  [json.dump]
    runs the pure-Python encoder of [_make_iterencode]: every nested list
    or dict is a generator frame ([_iterencode_list], [_iterencode_dict])
    and every float a call of the nested function [floatstr]; [budget] is
    the number of Python frames that may still be entered below the
    top-level [_iterencode] frame.  An [int] is written by [int.__repr__],
    which may raise the [ValueError] of the digit limit. *)
Fixpoint dump_error (budget : nat) (v : json) {struct v} : option dump_err :=
  match v with
  | JInt z => match int_repr z with None => Some DumpValueError | Some _ => None end
  | JFloat _ => match budget with O => Some DumpRecursionError | S _ => None end
  | JArr l =>
      match budget with
      | O => Some DumpRecursionError
      | S b =>
          (fix go (l : list json) : option dump_err :=
             match l with
             | [] => None
             | x :: r => match dump_error b x with Some e => Some e | None => go r end
             end) l
      end
  | JObj l =>
      match budget with
      | O => Some DumpRecursionError
      | S b =>
          (fix go (l : list (text * json)) : option dump_err :=
             match l with
             | [] => None
             | kv :: r => match dump_error b (snd kv) with Some e => Some e | None => go r end
             end) l
      end
  | _ => None
  end.

(** What [json.dump] writes, or the error that interrupts it. *)
Definition dumps (budget : nat) (v : json) : dump_err + text :=
  match dump_error budget v with
  | Some e => inl e
  | None => inr (dump_text v)
  end.

(** *** [dict(x)] on a decoded value *)

(** Hashable Python values that [json] produces, as dict keys. *)
Inductive pykey : Type :=
| KStr (s : text)
| KInt (z : Z)
| KFloat (lexeme : text)
| KBool (b : bool)
| KNone.

(** [float(lexeme)] for a lexeme of the scanner: the binary64 value
    nearest to the decimal number, ties to even (CPython's correctly
    rounded [dtoa]), with the rounding of [SpecFloat].  A magnitude of at
    least [10^309] is infinite and one below [10^-324] is a zero; the
    shortcut avoids computing with large powers of ten. *)
Definition float_value (lex : text) : spec_float :=
  if bool_decide (lex = T "NaN") then S754_nan
  else if bool_decide (lex = T "Infinity") then S754_infinity false
  else if bool_decide (lex = T "-Infinity") then S754_infinity true
  else
    let '(neg, s1) :=
      match lex with
      | c :: r => if c =? 45 then (true, r) else (false, lex)
      | [] => (false, lex)
      end in
    let '(ip, r1) := span_digits s1 in
    let '(fp, r2) :=
      match r1 with
      | c :: r => if c =? 46 then span_digits r else ([], r1)
      | [] => ([], [])
      end in
    let e :=
      match r2 with
      | _ :: c :: r =>
          if c =? 45 then Z.opp (Z.of_N (digits_value r))
          else if c =? 43 then Z.of_N (digits_value r)
          else Z.of_N (digits_value (c :: r))
      | _ => 0%Z
      end in
    let e10 := (e - Z.of_nat (length fp))%Z in
    match digits_value (ip ++ fp) with
    | N0 => S754_zero neg
    | Npos m =>
        let d := Z.of_nat (length (uint_text (N.to_uint (Npos m)))) in
        if (310 <=? d + e10)%Z then S754_infinity neg
        else if (d + e10 <=? -324)%Z then S754_zero neg
        else if (0 <=? e10)%Z then
          binary_round 53 1024 neg (m * Z.to_pos (10 ^ e10)) 0
        else
          let '(q, e', loc) := SFdiv_core_binary 53 1024 (Zpos m) 0 (10 ^ (Z.opp e10)) 0 in
          binary_round_aux 53 1024 neg q e' loc
    end.

(** A number as Python compares numbers: exactly [m * 2^e], an infinity,
    or NaN. *)
Inductive num : Type :=
| NFin (m e : Z)
| NInf (neg : bool)
| NNaN.

Definition num_of_float (f : spec_float) : num :=
  match f with
  | S754_zero _ => NFin 0 0
  | S754_infinity s => NInf s
  | S754_nan => NNaN
  | S754_finite s m e => NFin (if s then Zneg m else Zpos m) e
  end.

(** The numbers among the keys: [bool] is a subclass of [int]. *)
Definition num_of_key (k : pykey) : option num :=
  match k with
  | KInt z => Some (NFin z 0)
  | KBool b => Some (NFin (if b then 1 else 0) 0)
  | KFloat lex => Some (num_of_float (float_value lex))
  | _ => None
  end.

(** [==] between numbers: exact, across [int] and [float].  The scanner
    returns one shared NaN object ([json.decoder.NaN]) and a dict compares
    keys by identity first, so two NaN keys are the same key. *)
Definition num_eqb (x y : num) : bool :=
  match x, y with
  | NFin m1 e1, NFin m2 e2 =>
      if (e1 <=? e2)%Z then Z.eqb m1 (m2 * 2 ^ (e2 - e1))
      else Z.eqb (m1 * 2 ^ (e1 - e2)) m2
  | NInf a, NInf b => Bool.eqb a b
  | NNaN, NNaN => true
  | _, _ => false
  end.

(** Key equality of a dict: strings by their text, [None] with itself,
    numbers by value ([True == 1 == 1.0]). *)
Definition key_eqb (a b : pykey) : bool :=
  match a, b with
  | KStr x, KStr y => bool_decide (x = y)
  | KNone, KNone => true
  | _, _ =>
      match num_of_key a, num_of_key b with
      | Some x, Some y => num_eqb x y
      | _, _ => false
      end
  end.

Abbreviation pydict := (list (pykey * json)).

Fixpoint dict_set (k : pykey) (v : json) (d : pydict) : pydict :=
  match d with
  | [] => [(k, v)]
  | (k', v') :: r => if key_eqb k' k then (k', v) :: r else (k', v') :: dict_set k v r
  end.

Definition json_key (v : json) : option pykey :=
  match v with
  | JStr s => Some (KStr s)
  | JInt z => Some (KInt z)
  | JFloat x => Some (KFloat x)
  | JBool b => Some (KBool b)
  | JNull => Some KNone
  | JArr _ | JObj _ => None
  end.

(** [list(x)] for an iterable value. *)
Definition seq_items (v : json) : option (list json) :=
  match v with
  | JArr l => Some l
  | JStr s => Some (map (fun c => JStr [c]) s)
  | JObj l => Some (map (fun kv => JStr (fst kv)) l)
  | _ => None
  end.

Inductive conv_error : Type :=
| ConvTypeError (msg : string)
| ConvValueError (msg : string).

Definition obj_items (l : list (text * json)) : pydict :=
  map (fun kv => (KStr (fst kv), snd kv)) l.

(** [PyDict_MergeFromSeq2]. *)
Fixpoint merge_seq (items : list json) (acc : pydict) : conv_error + pydict :=
  match items with
  | [] => inr acc
  | it :: r =>
      match seq_items it with
      | None =>
          inl (ConvTypeError "cannot convert dictionary update sequence element to a sequence")
      | Some [a; b] =>
          match json_key a with
          | None => inl (ConvTypeError "unhashable type")
          | Some k => merge_seq r (dict_set k b acc)
          end
      | Some _ =>
          inl (ConvValueError "dictionary update sequence element has the wrong length; 2 is required")
      end
  end.

(** [dict(v)]. *)
Definition py_dict (v : json) : conv_error + pydict :=
  match v with
  | JObj l => inr (obj_items l)
  | _ =>
      match seq_items v with
      | None => inl (ConvTypeError "object is not iterable")
      | Some items => merge_seq items []
      end
  end.

End Json.

Import Json.

(* ------------------------------------------------------------------ *)
(** ** Bytes and text: the codecs [json] and file reading use *)

Module Codecs.

Definition cons_opt (c : N) (r : option text) : option text :=
  match r with Some t => Some (c :: t) | None => None end.

Definition in_range (lo hi b : N) : bool := (lo <=? b) && (b <=? hi).

Definition is_cont (b : N) : bool := in_range 128 191 b.

(** [b.decode('utf-8')], strict ([sp = false]) or with [surrogatepass]
    ([sp = true]), which also accepts the three-byte encodings
    [ED A0..BF 80..BF] of the surrogates.  Any malformed sequence is a
    [UnicodeDecodeError] ([None]). *)
Fixpoint utf8_decode (sp : bool) (b : list N) {struct b} : option text :=
  match b with
  | [] => Some []
  | b0 :: r =>
      if b0 <? 128 then cons_opt b0 (utf8_decode sp r)
      else if in_range 194 223 b0 then
        match r with
        | b1 :: r' =>
            if is_cont b1 then cons_opt ((b0 - 192) * 64 + (b1 - 128)) (utf8_decode sp r')
            else None
        | [] => None
        end
      else if in_range 224 239 b0 then
        match r with
        | b1 :: b2 :: r' =>
            let ok1 := if b0 =? 224 then in_range 160 191 b1
                       else if (b0 =? 237) && negb sp then in_range 128 159 b1
                       else is_cont b1 in
            if ok1 && is_cont b2 then
              cons_opt (((b0 - 224) * 64 + (b1 - 128)) * 64 + (b2 - 128)) (utf8_decode sp r')
            else None
        | _ => None
        end
      else if in_range 240 244 b0 then
        match r with
        | b1 :: b2 :: b3 :: r' =>
            let ok1 := if b0 =? 240 then in_range 144 191 b1
                       else if b0 =? 244 then in_range 128 143 b1
                       else is_cont b1 in
            if ok1 && is_cont b2 && is_cont b3 then
              cons_opt ((((b0 - 240) * 64 + (b1 - 128)) * 64 + (b2 - 128)) * 64 + (b3 - 128))
                       (utf8_decode sp r')
            else None
        | _ => None
        end
      else None
  end.

(** The 16-bit code units of UTF-16 data; an odd byte at the end is an
    error. *)
Fixpoint utf16_units (be : bool) (b : list N) : option (list N) :=
  match b with
  | [] => Some []
  | x :: y :: r => cons_opt (if be then x * 256 + y else y * 256 + x) (utf16_units be r)
  | [_] => None
  end.

(** A high surrogate followed by a low one is one character; with
    [surrogatepass] any other surrogate unit passes through as it is. *)
Fixpoint join_units (u : list N) : text :=
  match u with
  | h :: ((l :: r) as t) =>
      if is_high_surrogate h && is_low_surrogate l then join_surrogates h l :: join_units r
      else h :: join_units t
  | _ => u
  end.

Definition utf16_decode (be : bool) (b : list N) : option text :=
  option_map join_units (utf16_units be b).

(** UTF-32 with [surrogatepass]: surrogates are accepted, values from
    [0x110000] on and a length that is not a multiple of 4 are errors. *)
Fixpoint utf32_decode (be : bool) (b : list N) : option text :=
  match b with
  | [] => Some []
  | b0 :: b1 :: b2 :: b3 :: r =>
      let c := if be then ((b0 * 256 + b1) * 256 + b2) * 256 + b3
               else ((b3 * 256 + b2) * 256 + b1) * 256 + b0 in
      if c <? 1114112 then cons_opt c (utf32_decode be r) else None
  | _ => None
  end.

Inductive encoding : Type :=
| Utf8 | Utf8Sig | Utf16 | Utf16Be | Utf16Le | Utf32 | Utf32Be | Utf32Le.

Definition starts_with (p b : list N) : bool :=
  match strip_prefix p b with Some _ => true | None => false end.

(** [json.detect_encoding] *)
Definition detect_encoding (b : list N) : encoding :=
  if starts_with [0; 0; 254; 255] b || starts_with [255; 254; 0; 0] b then Utf32
  else if starts_with [254; 255] b || starts_with [255; 254] b then Utf16
  else if starts_with [239; 187; 191] b then Utf8Sig
  else
    match b with
    | b0 :: b1 :: b2 :: b3 :: _ =>
        if b0 =? 0 then (if b1 =? 0 then Utf32Be else Utf16Be)
        else if b1 =? 0 then (if (b2 =? 0) && (b3 =? 0) then Utf32Le else Utf16Le)
        else Utf8
    | [b0; b1] =>
        if b0 =? 0 then Utf16Be else if b1 =? 0 then Utf16Le else Utf8
    | _ => Utf8
    end.

(** [b.decode(enc, 'surrogatepass')].  The codecs ["utf-16"] and
    ["utf-32"] read the byte order from the BOM and drop it (little endian
    without one); ["utf-8-sig"] drops a UTF-8 BOM. *)
Definition decode_surrogatepass (enc : encoding) (b : list N) : option text :=
  match enc with
  | Utf8 => utf8_decode true b
  | Utf8Sig => utf8_decode true (if starts_with [239; 187; 191] b then drop 3 b else b)
  | Utf16 =>
      if starts_with [254; 255] b then utf16_decode true (drop 2 b)
      else if starts_with [255; 254] b then utf16_decode false (drop 2 b)
      else utf16_decode false b
  | Utf16Be => utf16_decode true b
  | Utf16Le => utf16_decode false b
  | Utf32 =>
      if starts_with [0; 0; 254; 255] b then utf32_decode true (drop 4 b)
      else if starts_with [255; 254; 0; 0] b then utf32_decode false (drop 4 b)
      else utf32_decode false b
  | Utf32Be => utf32_decode true b
  | Utf32Le => utf32_decode false b
  end.

(** Universal newlines of a file opened in text mode: [\r\n] and [\r]
    become [\n]. *)
Fixpoint translate_newlines (s : text) : text :=
  match s with
  | [] => []
  | c :: r =>
      if c =? 13 then
        match r with
        | d :: r' => if d =? 10 then 10 :: translate_newlines r' else 10 :: translate_newlines r
        | [] => [10]
        end
      else c :: translate_newlines r
  end.

(** [open(path).read()]: the locale encoding is taken to be UTF-8 (strict
    errors), with universal newlines. *)
Definition read_text (b : list N) : option text :=
  option_map translate_newlines (utf8_decode false b).

(** [json.load(f)] on a file opened in text mode: a [UnicodeDecodeError]
    of the read is a [ValueError], like a decoding error. *)
Definition loads_text (limit : nat) (b : list N) : loaded :=
  match read_text b with
  | Some s => loads limit s
  | None => DecodeError
  end.

(** [json.load(f)] on a file opened in binary mode: [json.loads] of the
    bytes decodes them with [detect_encoding] and [surrogatepass]. *)
Definition loads_bytes (limit : nat) (b : list N) : loaded :=
  match decode_surrogatepass (detect_encoding b) b with
  | Some s => loads limit s
  | None => DecodeError
  end.

End Codecs.

Import Codecs.

(* ------------------------------------------------------------------ *)
(** ** Exceptions *)

(** The exception classes the module raises or catches. *)
Inductive exn : Type :=
| UserError (msg : string) (problems : list string)
| CollectionNotFound (msg : string)
| CollectionRequired
| PairNotFound (pair_name : string)
| InvalidResponse (msg : string)
| StorageEmpty (empty_storage : string)
| PartialSync (storage : string)
| SyncConflict (ident href_a href_b : string)
| IdentConflict (storage : string) (hrefs : list string)
| ClickAbort
| JobFailed
| KeyboardInterrupt
| TypeError (msg : string)
| ValueError (msg : string)
| KeyError (key : string)
| OSError (errno : Z) (msg : string)
| NotImplementedError (msg : string)
| AssertionError
| RecursionError
| RuntimeError (msg : string)
(** any other subclass of [Exception] *)
| OtherException (cls msg : string)
(** a [BaseException] that is not an [Exception]: [SystemExit],
    [GeneratorExit], [asyncio.CancelledError] *)
| OtherBaseException (cls : string).

Definition ENOENT : Z := 2.

(** [isinstance(e, Exception)] *)
Definition is_exception (e : exn) : bool :=
  match e with
  | KeyboardInterrupt | OtherBaseException _ => false
  | _ => true
  end.

(** [except ValueError] (JSON decoding errors, [UnicodeDecodeError]) *)
Definition is_value_error (e : exn) : bool :=
  match e with ValueError _ => true | _ => false end.

Definition is_os_error (e : exn) : bool :=
  match e with OSError _ _ => true | _ => false end.

Definition exn_of_conv (c : conv_error) : exn :=
  match c with
  | ConvTypeError m => TypeError m
  | ConvValueError m => ValueError m
  end.

(** [str(e)] *)
Definition exn_str (e : exn) : string :=
  match e with
  | UserError m ps =>
      fold_left (fun acc p => (acc ++ String (ascii_of_nat 10) EmptyString ++ "  - " ++ p)%string) ps m
  | CollectionNotFound m | InvalidResponse m | TypeError m | ValueError m
  | OSError _ m | NotImplementedError m | RuntimeError m | OtherException _ m => m
  | KeyError k => k
  | PairNotFound p => p
  | _ => EmptyString
  end.

(** [repr(e)] as far as the module inspects it *)
Definition exn_repr (e : exn) : string :=
  match e with
  | TypeError m => "TypeError(" ++ m ++ ")"
  | ValueError m => "ValueError(" ++ m ++ ")"
  | InvalidResponse m => "InvalidResponse(" ++ m ++ ")"
  | OtherException c m => c ++ "(" ++ m ++ ")"
  | _ => exn_str e
  end%string.

(* ------------------------------------------------------------------ *)
(** ** The world: files, log, terminal, collaborator calls *)

(** Contents of a regular file: bytes, or an SQLite database holding the
    rows of an incremental status. *)
Inductive content : Type :=
| Bytes (b : list N)
| SqliteDb (rows : pydict).

Record file : Type := mkFile { f_mode : N; f_data : content }.

Inductive level : Type := Debug | Warning | Error | Critical.

Inductive answer : Type := AYes | ANo | AAbort.

Inductive call : Type :=
| CConstruct (cls : string)
| CConfirm (question : string)
| CCreateCollection (cls : string).

Record world : Type := mkWorld {
  w_fs : gmap string file;
  w_log : list (level * string);
  w_answers : list answer;
  w_trace : list call
}.

(** State and exception monad: Python exceptions do not roll back effects. *)
Definition M (A : Type) : Type := world -> world * (exn + A).

#[global] Instance M_ret : MRet M := fun A a w => (w, inr a).
#[global] Instance M_bind : MBind M := fun A B k m w =>
  match m w with
  | (w', inr a) => k a w'
  | (w', inl e) => (w', inl e)
  end.

Definition raise {A} (e : exn) : M A := fun w => (w, inl e).

(** [try: m except e if handles(e): h e] *)
Definition try_except {A} (m : M A) (handles : exn -> bool) (h : exn -> M A) : M A :=
  fun w =>
    match m w with
    | (w', inl e) => if handles e then h e w' else (w', inl e)
    | r => r
    end.

Definition get_fs : M (gmap string file) := fun w => (w, inr (w_fs w)).

Definition put_fs (fs : gmap string file) : M unit :=
  fun w => (mkWorld fs (w_log w) (w_answers w) (w_trace w), inr tt).

Definition log (l : level) (msg : string) : M unit :=
  fun w => (mkWorld (w_fs w) (w_log w ++ [(l, msg)]) (w_answers w) (w_trace w), inr tt).

Definition record (c : call) : M unit :=
  fun w => (mkWorld (w_fs w) (w_log w) (w_answers w) (w_trace w ++ [c]), inr tt).

(** [click.confirm]: end of input or Ctrl-C raise [click.Abort]. *)
Definition read_answer : M bool :=
  fun w =>
    match w_answers w with
    | AYes :: r => (mkWorld (w_fs w) (w_log w) r (w_trace w), inr true)
    | ANo :: r => (mkWorld (w_fs w) (w_log w) r (w_trace w), inr false)
    | AAbort :: r => (mkWorld (w_fs w) (w_log w) r (w_trace w), inl ClickAbort)
    | [] => (w, inl ClickAbort)
    end.

Definition click_confirm (question : string) : M bool :=
  record (CConfirm question) ;; read_answer.

(** *** [os] *)

Definition file_not_found {A} (p : string) : M A :=
  raise (OSError ENOENT ("No such file or directory: " ++ p)%string).

Definition os_path_exists (p : string) : M bool :=
  fs ← get_fs; mret (bool_decide (is_Some (fs !! p))).

Definition os_path_isfile (p : string) : M bool := os_path_exists p.

Definition os_stat_mode (p : string) : M N :=
  fs ← get_fs;
  match fs !! p with Some f => mret (f_mode f) | None => file_not_found p end.

Definition os_chmod (p : string) (mode : N) : M unit :=
  fs ← get_fs;
  match fs !! p with
  | Some f => put_fs (<[p := mkFile mode (f_data f)]> fs)
  | None => file_not_found p
  end.

Definition os_rename (src dst : string) : M unit :=
  fs ← get_fs;
  match fs !! src with
  | Some f => put_fs (<[dst := f]> (delete src fs))
  | None => file_not_found src
  end.

Definition os_remove (p : string) : M unit :=
  fs ← get_fs;
  match fs !! p with
  | Some _ => put_fs (delete p fs)
  | None => file_not_found p
  end.

Definition open_read (p : string) : M content :=
  fs ← get_fs;
  match fs !! p with Some f => mret (f_data f) | None => file_not_found p end.

(* ------------------------------------------------------------------ *)
(** ** Configuration values and storage classes *)

(** Values of a storage configuration dict. *)
Inductive cval : Type :=
| VStr (s : string)
| VNone
| VBool (b : bool)
| VConnector.

Abbreviation config := (gmap string cval).

Definition nl : string := String (ascii_of_nat 10) EmptyString.

(** [str(v)] *)
Definition cval_str (v : cval) : string :=
  match v with
  | VStr s => s
  | VNone => "None"
  | VBool true => "True"
  | VBool false => "False"
  | VConnector => "<aiohttp.TCPConnector>"
  end.

(** [json.dumps(v)] for the values a collection name can take *)
Definition cval_json (v : cval) : string :=
  match v with
  | VStr s => (qt ++ s ++ qt)%string
  | VNone => "null"
  | VBool true => "true"
  | VBool false => "false"
  | VConnector => "<aiohttp.TCPConnector>"
  end.

(** A storage class, as the module uses it: its [storage_name], whether it
    subclasses [DAVStorage] or [HttpStorage], [get_storage_init_args]
    (all and required parameters), and the outcomes of calling the class
    and its [create_collection] with the configuration as keyword
    arguments. *)
Record storage_class : Type := mkStorageClass {
  storage_name : string;
  sc_network : bool;
  sc_all_args : list string;
  sc_required_args : list string;
  sc_init : config -> exn + unit;
  sc_create_collection : config -> exn + config
}.

(** A constructed storage. *)
Record storage : Type := mkStorage { st_class : string; st_config : config }.

(** [vdirsyncer.DOCS_HOME] and [vdirsyncer.BUGTRACKER_HOME] *)
Definition DOCS_HOME : string := "https://vdirsyncer.pimutils.org/en/stable".
Definition BUGTRACKER_HOME : string := "https://github.com/pimutils/vdirsyncer/issues".

Definition STATUS_PERMISSIONS : N := 384.      (* 0o600 *)
Definition STATUS_DIR_PERMISSIONS : N := 448.  (* 0o700 *)

Fixpoint oct_digits (fuel : nat) (n : N) (acc : string) : string :=
  match fuel with
  | O => acc
  | S f =>
      let acc' := String (ascii_of_N (48 + n mod 8)) acc in
      if n <? 8 then acc' else oct_digits f (n / 8) acc'
  end.

(** [format(n, 'o')] *)
Definition oct (n : N) : string := oct_digits 64 n EmptyString.

Definition ends_with_slash (s : string) : bool :=
  match String.get (String.length s - 1) s with
  | Some c => Ascii.eqb c "/"%char
  | None => false
  end.

(** [os.path.join(a, b)] (posixpath) *)
Definition path_join (a b : string) : string :=
  if String.prefix "/" b then b
  else if String.eqb a EmptyString || ends_with_slash a then (a ++ b)%string
  else (a ++ "/" ++ b)%string.

Definition contains (needle hay : string) : bool :=
  match String.index 0 needle hay with Some _ => true | None => false end.

Section Utils.
Local Open Scope string_scope.

(** [vdirsyncer.utils.expand_path]: [~] expansion and normalisation. *)
Variable expand_path : string -> string.

(** The class that [importlib] yields for a registered storage locator. *)
Variable storage_class_of : string -> storage_class.

(** The interpreter's recursion budget left when [json.load] runs. *)
Variable recursion_limit : nat.

(** The Python frames that [json.dump] may still enter when [save_status]
    calls it (see [dump_error]). *)
Variable dump_budget : nat.

Definition get_status_name (pair : string) (collection : option string) : string :=
  match collection with
  | None => pair
  | Some c => pair ++ "/" ++ c
  end.

(** The extensionless path of a status, [expand_path(join(base, name))]. *)
Definition status_base (base_path pair : string) (collection : option string) : string :=
  expand_path (path_join base_path (get_status_name pair collection)).

Definition assert_permissions (path : string) (wanted : N) : M unit :=
  st_mode ← os_stat_mode path;
  let permissions := N.land st_mode 511 in
  if N.ltb wanted permissions then
    log Warning ("Correcting permissions of " ++ path ++ " from " ++ oct permissions
                 ++ " to " ++ oct wanted) ;;
    os_chmod path wanted
  else mret ().

Definition get_status_path (base_path pair : string) (collection : option string)
    (data_type : option string) : M string :=
  match data_type with
  | None => raise AssertionError
  | Some dt =>
      let path := status_base base_path pair collection in
      isf ← os_path_isfile path;
      (if isf && String.eqb dt "items" then
         let new_path := path ++ ".items" in
         log Warning ("Migrating statuses: Renaming " ++ path ++ " to " ++ new_path) ;;
         os_rename path new_path
       else mret ()) ;;
      mret (path ++ "." ++ dt)
  end.

(** The outcome of [json.load] as a Python result. *)
Definition loaded_result (l : loaded) : exn + json :=
  match l with
  | Loaded v => inr v
  | DecodeError => inl (ValueError "json.load")
  | TooDeep => inl RecursionError
  end.

(** [json.load(f)] on a file opened in text mode.  A database file starts
    with [SQLite format 3] and is either not UTF-8 or not JSON: a
    [ValueError] either way. *)
Definition json_load (c : content) : exn + json :=
  match c with
  | Bytes b => loaded_result (loads_text recursion_limit b)
  | SqliteDb _ => inl (ValueError "json.load")
  end.

(** [json.load(f)] on a file opened in binary mode. *)
Definition json_load_binary (c : content) : exn + json :=
  match c with
  | Bytes b => loaded_result (loads_bytes recursion_limit b)
  | SqliteDb _ => inl (ValueError "json.load")
  end.

(** [dict(x)] on the result of [json.load]. *)
Definition dict_of (r : exn + json) : M pydict :=
  match r with
  | inr v =>
      match py_dict v with
      | inr d => mret d
      | inl ce => raise (exn_of_conv ce)
      end
  | inl e => raise e
  end.

(** [dict(json.load(f))] in [load_status] *)
Definition dict_json_load (c : content) : M pydict := dict_of (json_load c).

Definition load_status (base_path pair : string) (collection data_type : option string)
    : M pydict :=
  path ← get_status_path base_path pair collection data_type;
  ex ← os_path_exists path;
  if negb ex then mret []
  else
    assert_permissions path STATUS_PERMISSIONS ;;
    c ← open_read path;
    try_except (dict_json_load c) is_value_error (fun _ => mret []).

(** [os.makedirs(dirname, 0o700)], an existing directory being ignored:
    directories are not part of the model. *)
Definition prepare_status_path (path : string) : M unit := mret ().

(** [f.read(1) == b"{"]; an SQLite file starts with [SQLite format 3]. *)
Definition first_byte_is_brace (c : content) : bool :=
  match c with
  | Bytes (c0 :: _) => N.eqb c0 123
  | _ => false
  end.

(** The legacy peek of [manage_sync_status]: [f.seek(0)] and
    [dict(json.load(f))] on the file opened in binary mode, with its
    [except (OSError, ValueError)]. *)
Definition peek_legacy (path : string) : M (option pydict) :=
  try_except
    (c ← open_read path;
     if first_byte_is_brace c then d ← dict_of (json_load_binary c); mret (Some d)
     else mret None)
    (fun e => is_os_error e || is_value_error e)
    (fun _ => mret None).

(** Modelled from the spec: [SqliteStatus(path)] of
    [vdirsyncer.sync.status], which is not part of this module: it opens
    the incremental store at [path], creating it when the file is absent
    (an empty file is an empty database); the store is kept in the file. *)
Definition sqlite_open (path : string) : M unit :=
  fs ← get_fs;
  match fs !! path with
  | None => put_fs (<[path := mkFile 420 (SqliteDb [])]> fs)
  | Some (mkFile _ (SqliteDb _)) => mret ()
  | Some (mkFile m (Bytes [])) => put_fs (<[path := mkFile m (SqliteDb [])]> fs)
  | Some (mkFile _ (Bytes (_ :: _))) =>
      raise (OtherException "sqlite3.DatabaseError" "file is not a database")
  end.

(** Modelled from the spec: [SqliteStatus.load_legacy_status], the one-time
    import of a legacy status; the store then exposes every legacy
    key/value unchanged. *)
Definition load_legacy_status (path : string) (legacy : pydict) : M unit :=
  fs ← get_fs;
  match fs !! path with
  | Some (mkFile m (SqliteDb rows)) =>
      put_fs (<[path := mkFile m (SqliteDb (fold_left (fun acc kv => dict_set kv.1 kv.2 acc)
                                                     legacy rows))]> fs)
  | _ => raise (OtherException "sqlite3.OperationalError" "no such table")
  end.

(** The context manager: the yielded status is the store at the returned
    path. *)
Definition manage_sync_status (base_path pair_name : string)
    (collection_name : option string) : M string :=
  path ← get_status_path base_path pair_name collection_name (Some "items");
  legacy_status ← peek_legacy path;
  match legacy_status with
  | Some d =>
      log Warning "Migrating legacy status to sqlite" ;;
      os_remove path ;;
      sqlite_open path ;;
      load_legacy_status path d ;;
      mret path
  | None =>
      prepare_status_path path ;;
      sqlite_open path ;;
      mret path
  end.

(** [json.dump(data, f)] into a file opened in text mode: the bytes
    written, or the error raised.  The default encoder writes ASCII only,
    which UTF-8 encodes byte for byte. *)
Definition dump_to_file (v : json) : exn + list N :=
  match dumps dump_budget v with
  | inl DumpValueError =>
      inl (ValueError "Exceeds the limit (4300 digits) for integer string conversion")
  | inl DumpRecursionError => inl RecursionError
  | inr t => inr t
  end.

(** Modelled from the spec: [atomic_write(path, mode="w", overwrite=True)]
    of [vdirsyncer.utils], which is not part of this module.  The body
    writes into a temporary file ([mkstemp], mode 0o600) next to [path]; on
    success the file replaces [path], on an error it is removed and the
    error propagates, [path] being unchanged.  [body] is what the body
    writes, or the error it raises. *)
Definition atomic_write (path : string) (body : exn + list N) : M unit :=
  match body with
  | inl e => raise e
  | inr data =>
      fs ← get_fs;
      put_fs (<[path := mkFile 384 (Bytes data)]> fs)
  end.

Definition save_status (base_path pair data_type : string)
    (data : list (text * json)) (collection : option string) : M unit :=
  let status_name := get_status_name pair collection in
  let path := expand_path (path_join base_path status_name) ++ "." ++ data_type in
  prepare_status_path path ;;
  atomic_write path (dump_to_file (JObj data)) ;;
  os_chmod path STATUS_PERMISSIONS.

(** *** Storage factory *)

(** The keys of [_StorageIndex._storages]. *)
Definition storage_index : list string :=
  ["caldav"; "carddav"; "filesystem"; "http"; "singlefile";
   "google_calendar"; "google_contacts"].

(** [storage_names[name]] without the cache of [_StorageIndex]: [KeyError]
    for an unknown name; the imported class must report the name it is
    registered under.  When every registered class is correctly named this
    is what the cached index returns for every sequence of lookups
    ([index_run], X14); the cached behaviour of a misnamed class is that of
    [index_getitem]. *)
Definition storage_names_get (name : cval) : M storage_class :=
  match name with
  | VStr n =>
      if bool_decide (n ∈ storage_index) then
        let rv := storage_class_of n in
        if String.eqb (storage_name rv) n then mret rv else raise AssertionError
      else raise (KeyError n)
  | _ => raise (KeyError (cval_str name))
  end.

Definition is_key_error (e : exn) : bool :=
  match e with KeyError _ => true | _ => false end.

Definition storage_class_from_config (cfg : config) : M (storage_class * config) :=
  match cfg !! "type" with
  | None => raise (KeyError "type")
  | Some sname =>
      let rest := delete "type" cfg in
      cls ← try_except (storage_names_get sname) is_key_error
              (fun _ => raise (UserError ("Unknown storage type: " ++ cval_str sname) []));
      mret (cls, rest)
  end.

(** The parameter problems [handle_storage_init_error] reports; the order
    of a Python set is not specified, lists keep one order. *)
Definition init_problems (cls : storage_class) (cfg : config) : list string :=
  let given := map fst (map_to_list cfg) in
  let missing := filter (fun k => k ∉ given) (sc_required_args cls) in
  let invalid := filter (fun k => k ∉ sc_all_args cls) given in
  (if bool_decide (missing = []) then []
   else [storage_name cls ++ " storage requires the parameters: "
         ++ String.concat ", " missing])
  ++ (if bool_decide (invalid = []) then []
      else [storage_name cls ++ " storage doesn't take the parameters: "
            ++ String.concat ", " invalid]).

(** [handle_storage_init_error(cls, config)], [e] being the exception in
    flight. *)
Definition handle_storage_init_error (cls : storage_class) (cfg : config) (e : exn)
    : M storage :=
  match e with
  | TypeError _ =>
      if contains "__init__" (exn_repr e) then
        match init_problems cls cfg with
        | [] => raise e
        | problems =>
            match cfg !! "instance_name" with
            | Some v => raise (UserError ("Failed to initialize " ++ cval_str v) problems)
            | None => raise (KeyError "instance_name")
            end
        end
      else raise e
  | _ => raise e
  end.

Definition is_not_implemented (e : exn) : bool :=
  match e with NotImplementedError _ => true | _ => false end.

(** The confirmed branch of [handle_collection_not_found]: [None] when the
    storage cannot create collections. *)
Definition try_create_collection (cfg : config) (collection : cval)
    : M (option config) :=
  match cfg !! "type" with
  | None => raise (KeyError "type")
  | Some storage_type =>
      '(cls, cfg') ← storage_class_from_config cfg;
      let cfg'' := <["collection" := collection]> cfg' in
      try_except
        (record (CCreateCollection (storage_name cls)) ;;
         match sc_create_collection cls cfg'' with
         | inr args => mret (Some (<["type" := storage_type]> args))
         | inl err => raise err
         end)
        is_not_implemented
        (fun err => log Error (exn_str err) ;; mret None)
  end.

Definition handle_collection_not_found (cfg : config) (collection : cval) (e : string)
    : M config :=
  let inst_name := default VNone (cfg !! "instance_name") in
  log Warning ((if String.eqb e EmptyString then EmptyString else e ++ nl)
               ++ "No collection " ++ cval_json collection ++ " found for storage "
               ++ cval_str inst_name ++ ".") ;;
  confirmed ← click_confirm "Should vdirsyncer attempt to create it?";
  created ← (if (confirmed : bool) then try_create_collection cfg collection else mret None);
  match (created : option config) with
  | Some args => mret args
  | None =>
      raise (UserError ("Unable to find or create collection " ++ qt ++ cval_str collection
                        ++ qt ++ " for storage " ++ qt ++ cval_str inst_name ++ qt
                        ++ ". Please create the collection yourself.") [])
  end.

(** [storage_instance_from_config]; [connector] says whether a connector
    was passed.  The recursive call is made once, with [create=False]; the
    fuel only makes the recursion structural. *)
Fixpoint storage_instance_from_config_aux (fuel : nat) (cfg : config) (create : bool)
    (connector : bool) : M storage :=
  match fuel with
  | O => raise RecursionError
  | S fuel' =>
      '(cls, new_config) ← storage_class_from_config cfg;
      new_config ←
        (if sc_network cls then
           if connector then mret (<["connector" := VConnector]> new_config)
           else raise AssertionError
         else mret new_config);
      record (CConstruct (storage_name cls)) ;;
      match sc_init cls new_config with
      | inr _ => mret (mkStorage (storage_name cls) new_config)
      | inl (CollectionNotFound m) =>
          if create then
            cfg' ← handle_collection_not_found cfg (default VNone (cfg !! "collection")) m;
            storage_instance_from_config_aux fuel' cfg' false connector
          else raise (CollectionNotFound m)
      | inl e =>
          if is_exception e then handle_storage_init_error cls new_config e
          else raise e
      end
  end.

Definition storage_instance_from_config (cfg : config) (create connector : bool)
    : M storage :=
  storage_instance_from_config_aux 2 cfg create connector.

End Utils.

(* ------------------------------------------------------------------ *)
(** ** [_StorageIndex]: the registry behind [storage_names] *)

(** One entry of [_storages]: the dotted locator of a class not imported
    yet, or the class object once [__getitem__] has imported it. *)
Inductive index_entry : Type :=
| ILocator (item : string)
| ICached (cls : storage_class).

(** The registered names and locators of [_StorageIndex.__init__]. *)
Definition storage_locators : list (string * string) :=
  [("caldav", "vdirsyncer.storage.dav.CalDAVStorage");
   ("carddav", "vdirsyncer.storage.dav.CardDAVStorage");
   ("filesystem", "vdirsyncer.storage.filesystem.FilesystemStorage");
   ("http", "vdirsyncer.storage.http.HttpStorage");
   ("singlefile", "vdirsyncer.storage.singlefile.SingleFileStorage");
   ("google_calendar", "vdirsyncer.storage.google.GoogleCalendarStorage");
   ("google_contacts", "vdirsyncer.storage.google.GoogleContactsStorage")]%string.

Definition storage_index_init : gmap string index_entry :=
  list_to_map (map (fun p => (p.1, ILocator p.2)) storage_locators).

Section Index.
(** [getattr(importlib.import_module(modname), clsname)] for
    [modname, clsname = item.rsplit(".", 1)]; the import may raise. *)
Variable import_item : string -> exn + storage_class.

(** [_StorageIndex.__getitem__] on the index [idx]: the class is cached
    before its name is asserted. *)
Definition index_getitem (idx : gmap string index_entry) (name : string)
    : gmap string index_entry * (exn + storage_class) :=
  match idx !! name with
  | None => (idx, inl (KeyError name))
  | Some (ICached c) => (idx, inr c)
  | Some (ILocator item) =>
      match import_item item with
      | inl e => (idx, inl e)
      | inr rv =>
          (<[name := ICached rv]> idx,
           if String.eqb (storage_name rv) name then inr rv else inl AssertionError)
      end
  end.

(** A sequence of lookups [storage_names[n]] on one index. *)
Fixpoint index_run (idx : gmap string index_entry) (names : list string)
    : gmap string index_entry * list (exn + storage_class) :=
  match names with
  | [] => (idx, [])
  | n :: ns =>
      let '(idx1, r) := index_getitem idx n in
      let '(idx2, rs) := index_run idx1 ns in
      (idx2, r :: rs)
  end.
End Index.

(* ------------------------------------------------------------------ *)
(** ** Error reporting *)

Section Report.
Local Open Scope string_scope.

(** [f"{x}"] for an optional string *)
Definition fmt_opt (x : option string) : string :=
  match x with Some s => s | None => "None" end.

(** [traceback.format_tb]: the frames are not modelled. *)
Definition format_tb (e : exn) : string := "Traceback: " ++ exn_repr e.

(** [raise e] if [e] is given, else the bare [raise] of the exception being
    handled, [current] ([sys.exc_info()]); with none, a [RuntimeError]. *)
Definition resolve_error (e current : option exn) : exn :=
  match e with
  | Some x => x
  | None =>
      match current with
      | Some x => x
      | None => RuntimeError "No active exception to reraise"
      end
  end.

(** [handle_cli_error(status_name, e)] *)
Definition handle_cli_error (status_name : option string) (e : option exn)
    (current : option exn) : M unit :=
  let err := resolve_error e current in
  let sn := fmt_opt status_name in
  match err with
  | UserError _ _ => log Critical (exn_str err)
  | StorageEmpty name =>
      log Error (sn ++ ": Storage " ++ qt ++ name ++ qt ++ " was completely emptied. If you "
                 ++ "want to delete ALL entries on BOTH sides, then use "
                 ++ "`vdirsyncer sync --force-delete " ++ sn ++ "`. "
                 ++ "Otherwise delete the files for " ++ sn ++ " in your status "
                 ++ "directory.")
  | PartialSync st =>
      log Error (sn ++ ": Attempted change on " ++ st ++ ", which is read-only"
                 ++ ". Set `partial_sync` in your pair section to `ignore` to ignore "
                 ++ "those changes, or `revert` to revert them on the other side.")
  | SyncConflict ident href_a href_b =>
      log Error (sn ++ ": One item changed on both sides. Resolve this "
                 ++ "conflict manually, or by setting the `conflict_resolution` "
                 ++ "parameter in your config file." ++ nl
                 ++ "See also " ++ DOCS_HOME ++ "/config.html#pair-section" ++ nl
                 ++ "Item ID: " ++ ident ++ nl
                 ++ "Item href on side A: " ++ href_a ++ nl
                 ++ "Item href on side B: " ++ href_b ++ nl)
  | IdentConflict st hrefs =>
      log Error (sn ++ ": Storage " ++ qt ++ st ++ qt ++ " contains "
                 ++ "multiple items with the same UID or even content. Vdirsyncer "
                 ++ "will now abort the synchronization of this collection, because "
                 ++ "the fix for this is not clear; It could be the result of a badly "
                 ++ "behaving server. You can try running:" ++ nl ++ nl
                 ++ "    vdirsyncer repair " ++ st ++ nl ++ nl
                 ++ "But make sure to have a backup of your data in some form. The "
                 ++ "offending hrefs are:" ++ nl ++ nl
                 ++ String.concat nl (map (fun h => "'" ++ h ++ "'") hrefs) ++ nl)
  | ClickAbort | KeyboardInterrupt | JobFailed => mret ()
  | PairNotFound pair_name =>
      log Error ("Pair " ++ pair_name ++ " does not exist. Please check your "
                 ++ "configuration file and make sure you've typed the pair name "
                 ++ "correctly")
  | InvalidResponse _ =>
      log Error ("The server returned something vdirsyncer doesn't understand. "
                 ++ "Error message: " ++ exn_repr err ++ nl
                 ++ "While this is most likely a serverside problem, the vdirsyncer "
                 ++ "devs are generally interested in such bugs. Please report it in "
                 ++ "the issue tracker at " ++ BUGTRACKER_HOME)
  | CollectionRequired =>
      log Error ("One or more storages don't support `collections = null`. "
                 ++ "You probably want to set `collections = [" ++ qt ++ "from a" ++ qt
                 ++ ", " ++ qt ++ "from b" ++ qt ++ "]`.")
  | _ =>
      if is_exception err then
        let msg :=
          match status_name with
          | Some s => if String.eqb s EmptyString then "Unknown error occurred"
                      else "Unknown error occurred for " ++ s
          | None => "Unknown error occurred"
          end in
        let msg := msg ++ ": " ++ exn_str err ++ nl
                   ++ "Use `-vdebug` to see the full traceback." in
        log Error msg ;;
        log Debug (format_tb err)
      else raise err
  end.

End Report.

(* ------------------------------------------------------------------ *)
(** ** Vocabulary of the properties *)

(** The kinds [handle_cli_error] treats as a user-initiated abort. *)
Definition is_abort (e : exn) : bool :=
  match e with ClickAbort | KeyboardInterrupt | JobFailed => true | _ => false end.

(** The kinds with a dedicated [except] clause that logs a message. *)
Definition is_classified (e : exn) : bool :=
  match e with
  | UserError _ _ | StorageEmpty _ | PartialSync _ | SyncConflict _ _ _ | IdentConflict _ _
  | PairNotFound _ | InvalidResponse _ | CollectionRequired => true
  | _ => false
  end.

Definition is_debug (l : level) : bool := match l with Debug => true | _ => false end.

(** Calls to the prompt and to a storage class constructor, as recorded in
    the trace. *)
Definition is_confirm (c : call) : bool := match c with CConfirm _ => true | _ => false end.
Definition is_construct (c : call) : bool := match c with CConstruct _ => true | _ => false end.

(** [w'] extends the trace of [w] by calls satisfying [P]. *)
Definition trace_ext (w w' : world) (P : list call -> Prop) : Prop :=
  exists new, w_trace w' = w_trace w ++ new /\ P new.

(** The [TypeError] that [handle_storage_init_error] inspects: one whose
    [repr] mentions [__init__]. *)
Definition is_init_type_error (e : exn) : bool :=
  match e with TypeError _ => contains "__init__" (exn_repr e) | _ => false end.

(** What [load_status] returns for the contents of an existing status file:
    [dict(json.load(f))] under its [except ValueError]. *)
Definition status_of (limit : nat) (c : content) : exn + pydict :=
  match json_load limit c with
  | inr v =>
      match py_dict v with
      | inr d => inr d
      | inl ce => if is_value_error (exn_of_conv ce) then inr [] else inl (exn_of_conv ce)
      end
  | inl e => if is_value_error e then inr [] else inl e
  end.

(** The index agrees with [storage_names_get]: every registered name is
    still a locator whose import yields [sco n], or already holds [sco n]. *)
Definition index_consistent (import_item : string -> exn + storage_class)
    (sco : string -> storage_class) (idx : gmap string index_entry) : Prop :=
  forall n,
    ((n ∉ storage_index) /\ idx !! n = None) \/
    (n ∈ storage_index /\
     (idx !! n = Some (ICached (sco n)) \/
      exists item, idx !! n = Some (ILocator item) /\ import_item item = inr (sco n))).

(** The number an octal numeral denotes, read from its first digit with
    [v] as the value of what precedes. *)
Fixpoint oct_value_acc (s : string) (v : N) : N :=
  match s with
  | EmptyString => v
  | String c s' => oct_value_acc s' (v * 8 + (N_of_ascii c - 48))
  end.

Definition oct_value (s : string) : N := oct_value_acc s 0.

(** Every character is one of [0]..[7]. *)
Fixpoint all_octal (s : string) : bool :=
  match s with
  | EmptyString => true
  | String c s' => (48 <=? N_of_ascii c) && (N_of_ascii c <=? 55) && all_octal s'
  end.

(** *** What [json.dumps] writes *)

Definition digit_text (d : text) : Prop := Forall (fun c => is_digit c = true) d.

(** What may follow a value inside a document: its end, [,], [\]] or [}]. *)
Definition delim (r : text) : Prop :=
  match r with [] => True | c :: _ => c = 44 \/ c = 93 \/ c = 125 end.

Definition nodigit_head (t : text) : Prop :=
  match t with [] => True | c :: _ => is_digit c = false end.

(** The integer part of a number: [0], or a nonzero digit and digits. *)
Definition int_part (ip : text) : Prop :=
  ip = [48] \/ exists c ds, ip = c :: ds /\ 49 <= c <= 57 /\ digit_text ds.

Definition digits_ok (ds : text) : Prop := ds <> [] /\ digit_text ds.

(** A float lexeme as [float.__repr__] writes it, [NaN] and the infinities
    as [json] spells them. *)
Definition float_lexeme (lex : text) : Prop :=
  lex = T "NaN" \/ lex = T "Infinity" \/ lex = T "-Infinity" \/
  exists sg ip fr ex,
    lex = sg ++ ip ++ fr ++ ex /\ (sg = [] \/ sg = [45]) /\ int_part ip /\
    (fr = [] \/ exists ds, fr = 46 :: ds /\ digits_ok ds) /\
    (ex = [] \/ exists e es ds, ex = e :: es ++ ds /\ (e = 101 \/ e = 69) /\
                               (es = [] \/ es = [43] \/ es = [45]) /\ digits_ok ds) /\
    (fr <> [] \/ ex <> []).

(** A Unicode scalar value: a code point that is not a surrogate. *)
Definition is_scalar (c : N) : bool :=
  (c <=? 1114111) && negb ((55296 <=? c) && (c <=? 57343)).
Definition text_wf (s : text) : bool := forallb is_scalar s.

(** Induction on [json] with hypotheses for the elements of arrays and the
    values of objects. *)
Fixpoint json_ind' (P : json -> Prop)
  (Hnull : P JNull) (Hbool : forall b, P (JBool b)) (Hint : forall z, P (JInt z))
  (Hfloat : forall l, P (JFloat l)) (Hstr : forall s, P (JStr s))
  (Harr : forall l, Forall P l -> P (JArr l))
  (Hobj : forall l, Forall (fun kv => P (snd kv)) l -> P (JObj l)) (v : json) : P v :=
  match v with
  | JNull => Hnull
  | JBool b => Hbool b
  | JInt z => Hint z
  | JFloat l => Hfloat l
  | JStr s => Hstr s
  | JArr l =>
      Harr l ((fix go (l : list json) : Forall P l :=
                 match l with
                 | [] => List.Forall_nil _
                 | x :: r => List.Forall_cons _ x r (json_ind' P Hnull Hbool Hint Hfloat Hstr Harr Hobj x) (go r)
                 end) l)
  | JObj l =>
      Hobj l ((fix go (l : list (text * json)) : Forall (fun kv => P (snd kv)) l :=
                 match l with
                 | [] => List.Forall_nil _
                 | kv :: r => List.Forall_cons _ kv r
                                (json_ind' P Hnull Hbool Hint Hfloat Hstr Harr Hobj (snd kv)) (go r)
                 end) l)
  end.

(** A value that Python's [json] can write and read back as an equal value:
    an int has at most [int_max_str_digits] digits; a float is finite or
    infinite, not NaN (which is unequal to itself); strings are Unicode
    scalar values; object keys are unique. *)
Fixpoint json_wf (v : json) : Prop :=
  match v with
  | JInt z => (length (int_digits z) <= int_max_str_digits)%nat
  | JFloat lex => float_lexeme lex /\ lex <> T "NaN"
  | JStr s => text_wf s = true
  | JArr l =>
      (fix go (l : list json) : Prop :=
         match l with [] => True | x :: r => json_wf x /\ go r end) l
  | JObj l =>
      NoDup (map fst l) /\
      (fix go (l : list (text * json)) : Prop :=
         match l with
         | [] => True
         | kv :: r => text_wf (fst kv) = true /\ json_wf (snd kv) /\ go r
         end) l
  | _ => True
  end.

(** Nesting depth: the recursion budget that reading a value spends. *)
Fixpoint json_depth (v : json) : nat :=
  match v with
  | JArr l => S (list_max (map json_depth l))
  | JObj l => S (list_max (map (fun kv => json_depth (snd kv)) l))
  | _ => O
  end.

(** Frames [json.dump] enters below its top-level [_iterencode] call for a
    value: one per list or dict and one per float (see [dump_error]). *)
Fixpoint dump_depth (v : json) : nat :=
  match v with
  | JFloat _ => 1
  | JArr l => S (list_max (map dump_depth l))
  | JObj l => S (list_max (map (fun kv => dump_depth (snd kv)) l))
  | _ => O
  end.

(** A printable ASCII character. *)
Definition printable (c : N) : bool := (32 <=? c) && (c <=? 126).

(** A text whose first character is neither whitespace nor a closing
    bracket. *)
Definition plain_head (s : text) : Prop :=
  exists c t, s = c :: t /\ is_ws c = false /\ (c =? 93) = false /\ (c =? 125) = false.

(** The scanner reads the text of [v] back, followed by a delimiter, with
    enough fuel and recursion budget. *)
Definition scans_back (v : json) : Prop :=
  forall n d rest, delim rest -> (length (dump_text v) < n)%nat -> (json_depth v <= d)%nat ->
  scan_value n d (dump_text v ++ rest) = SOk v rest.

(** One member of an object as [json.dumps] writes it. *)
Definition member_text (kv : text * json) : text :=
  encode_str (fst kv) ++ T ": " ++ dump_text (snd kv).

(** A legacy status whose one value is nested 1000 levels deep. *)
Definition deep_legacy : text :=
  T "{" ++ T (qt ++ "a" ++ qt ++ ":")%string ++ repeat 91 1000 ++ repeat 93 1000 ++ T "}".

(** The storage class of the examples: a local storage whose constructor
    raises [e]. *)
Definition failing_class (e : exn) : storage_class :=
  mkStorageClass "filesystem" false ["path"; "fileext"; "instance_name"; "collection"]
    ["path"; "fileext"] (fun _ => inl e) (fun _ => inl (NotImplementedError EmptyString)).

(** A configuration for a local storage, with a collection and an instance
    name. *)
Definition ex_cfg : config :=
  <["type" := VStr "filesystem"]> (<["collection" := VStr "c"]> (<["instance_name" := VStr "foo"]> ∅)).

(** A configuration with a parameter the storage does not take. *)
Definition ex_cfg2 : config :=
  <["type" := VStr "filesystem"]> (<["path" := VStr "/x"]> (<["fileext" := VStr ".ics"]>
    (<["instance_name" := VStr "foo"]> (<["bogus" := VStr "1"]> ∅)))).

(** The error Python raises for an unexpected keyword argument. *)
Definition init_type_error : exn :=
  TypeError "__init__() got an unexpected keyword argument 'bogus'".

(** Status data [{"a": 1}]. *)
Definition ex_data : list (text * json) := [(T "a", JInt 1)].

(** The legacy file [{"a": 1}] after its first byte. *)
Definition ex_tail : text := T (qt ++ "a" ++ qt ++ ": 1}")%string.

(** The legacy file [{"a": 1}] in UTF-16-LE after its first byte: each
    character is a byte and a zero byte. *)
Definition ex_utf16_tail : list N := 0 :: flat_map (fun c => [c; 0]) ex_tail.

(** A status directory holding a legacy ".items" file in UTF-16-LE. *)
Definition ex_legacy_world : world :=
  mkWorld {[ "/st/p.items" := mkFile 384 (Bytes (123 :: ex_utf16_tail)) ]} [] [] [].

(** A status file that is not valid JSON, and a directory holding it. *)
Definition ex_broken : file := mkFile 384 (Bytes (T "{oops")).
Definition ex_broken_world : world := mkWorld {[ "/st/p.items" := ex_broken ]} [] [] [].

(** The JSON text [[[1, 2], [1.0, 3]]], a status file holding it and a
    directory holding that file. *)
Definition ex_pairs : text := T "[[1, 2], [1.0, 3]]".
Definition ex_pairs_file : file := mkFile 384 (Bytes ex_pairs).
Definition ex_pairs_world : world := mkWorld {[ "/st/p.items" := ex_pairs_file ]} [] [] [].

(** A status directory holding an extensionless legacy status [{"a": 1}]. *)
Definition ex_unsuffixed_world : world :=
  mkWorld {[ "/st/p" := mkFile 420 (Bytes (123 :: ex_tail)) ]} [] [] [].

(** A status file readable by everyone (0o644). *)
Definition ex_open_world : world :=
  mkWorld {[ "/st/p.items" := mkFile 420 (Bytes (T "{}")) ]} [] [] [].

(** A storage class reporting the name [n] whose constructor succeeds. *)
Definition ex_named_class (n : string) : storage_class :=
  mkStorageClass n false [] [] (fun _ => inr tt) (fun _ => inr ∅).

(** An import that yields, for each registered locator, the class named as
    it is registered; other locators fail to import. *)
Definition ex_import (item : string) : exn + storage_class :=
  match List.find (fun p => String.eqb p.2 item) storage_locators with
  | Some p => inr (ex_named_class p.1)
  | None => inl (OtherException "ModuleNotFoundError" item)
  end.

(** A storage class named [n] whose constructor reports a missing
    collection until the config has "created", which [create_collection]
    adds. *)
Definition ex_creating_class (n : string) : storage_class :=
  mkStorageClass n false [] []
    (fun c => match c !! "created" with
              | Some _ => inr tt
              | None => inl (CollectionNotFound EmptyString)
              end)
    (fun c => inr (<["created" := VBool true]> c)).

(* ------------------------------------------------------------------ *)
(** ** Proofs *)

(** *** Numbers *)

Lemma uint_text_digits d : digit_text (uint_text d).
Proof. induction d; simpl; constructor; auto. Qed.

Lemma of_uint_acc_digits d acc :
  Npos (Pos.of_uint_acc d acc) = fold_left (fun a c => a * 10 + (c - 48)) (uint_text d) (Npos acc).
Proof.
  revert acc; induction d; intros acc; simpl; auto;
    rewrite IHd; f_equal; lia.
Qed.

Lemma digits_value_uint d : digits_value (uint_text d) = N.of_uint d.
Proof.
  unfold digits_value. induction d; simpl; auto;
    unfold N.of_uint in *; simpl; rewrite of_uint_acc_digits; f_equal.
Qed.

Lemma to_uint_shape n :
  N.to_uint n = D0 Nil \/
  exists c u, uint_text (N.to_uint n) = c :: uint_text u /\ 49 <= c <= 57.
Proof.
  assert (H : unorm (N.to_uint n) = N.to_uint n).
  { rewrite <- Unsigned.to_of, Unsigned.of_to. reflexivity. }
  destruct (N.to_uint n) as [|u|u|u|u|u|u|u|u|u|u] eqn:E; simpl;
    try (right; eexists _, u; split; [reflexivity | lia]).
  - unfold unorm in H. simpl in H. discriminate.
  - left. unfold unorm in H. destruct (nzhead (D0 u)) eqn:Z;
      try (exfalso; eapply DecimalFacts.nzhead_nonzero; rewrite Z; exact H).
    all: try (inversion H; subst; reflexivity).
    all: (rewrite <- H in Z; exfalso; eapply DecimalFacts.nzhead_nonzero; exact Z).
Qed.

Lemma delim_nodigit t : delim t -> nodigit_head t.
Proof. destruct t as [|c t]; simpl; auto. intros [->|[->| ->]]; reflexivity. Qed.

Lemma digit_cases c : is_digit c = true ->
  c = 48 \/ c = 49 \/ c = 50 \/ c = 51 \/ c = 52 \/ c = 53 \/ c = 54 \/ c = 55 \/ c = 56 \/ c = 57.
Proof. unfold is_digit. rewrite andb_true_iff, !N.leb_le. lia. Qed.

Lemma is_digit_iff c : is_digit c = true <-> 48 <= c <= 57.
Proof. unfold is_digit. rewrite andb_true_iff, !N.leb_le. lia. Qed.

Lemma span_digits_app d t :
  digit_text d -> nodigit_head t -> span_digits (d ++ t) = (d, t).
Proof.
  intros Hd Ht. induction Hd as [|c d Hc Hd IH]; simpl.
  - destruct t as [|c t]; [reflexivity|]. simpl in *. rewrite Ht. reflexivity.
  - rewrite Hc, IH. reflexivity.
Qed.

Lemma scan_int_part_ok ip t :
  int_part ip -> nodigit_head t -> scan_int_part (ip ++ t) = Some (ip, t).
Proof.
  intros [->|(c & ds & -> & Hc & Hds)] Ht; [reflexivity|]. simpl.
  assert (E48 : (c =? 48) = false) by (apply N.eqb_neq; lia).
  assert (Erange : (49 <=? c) && (c <=? 57) = true)
    by (apply andb_true_iff; rewrite !N.leb_le; lia).
  rewrite E48, Erange, span_digits_app by assumption. reflexivity.
Qed.

Lemma scan_frac_some ds t :
  ds <> [] -> digit_text ds -> nodigit_head t -> scan_frac (46 :: ds ++ t) = (true, t).
Proof.
  intros Hne Hds Ht. unfold scan_frac.
  destruct ds as [|c ds']; [congruence|]. inversion Hds as [|? ? Hc Hds']; subst.
  change (46 :: (c :: ds') ++ t) with (46 :: (c :: ds') ++ t).
  cbv beta iota. rewrite span_digits_app by assumption. simpl. rewrite Hc. reflexivity.
Qed.

Lemma scan_frac_none t :
  match t with [] => True | c :: _ => c <> 46 end -> scan_frac t = (false, t).
Proof.
  destruct t as [|c t]; [reflexivity|]. intros Hc. unfold scan_frac.
  apply N.eqb_neq in Hc. rewrite Hc. reflexivity.
Qed.

Lemma scan_exp_some e es ds t :
  (e = 101 \/ e = 69) -> (es = [] \/ es = [43] \/ es = [45]) -> ds <> [] -> digit_text ds ->
  nodigit_head t -> scan_exp (e :: es ++ ds ++ t) = (true, t).
Proof.
  intros He Hes Hne Hds Ht. unfold scan_exp.
  assert (Ee : (e =? 101) || (e =? 69) = true)
    by (destruct He as [-> | ->]; reflexivity).
  rewrite Ee. cbv zeta.
  assert (Hsign : match es ++ ds ++ t with
                  | sg :: t' => if (sg =? 43) || (sg =? 45) then t' else es ++ ds ++ t
                  | [] => es ++ ds ++ t
                  end = ds ++ t).
  { destruct Hes as [-> | [-> | ->]]; [|reflexivity|reflexivity].
    destruct ds as [|c ds']; [congruence|]. inversion Hds as [|? ? Hc _]; subst.
    assert (Hsg : (c =? 43) || (c =? 45) = false).
    { apply is_digit_iff in Hc. apply orb_false_iff; split; apply N.eqb_neq; lia. }
    simpl. rewrite Hsg. reflexivity. }
  rewrite Hsign, span_digits_app by assumption.
  destruct ds; [congruence|reflexivity].
Qed.

Lemma scan_exp_none t :
  match t with [] => True | c :: _ => c <> 101 /\ c <> 69 end -> scan_exp t = (false, t).
Proof.
  destruct t as [|c t]; [reflexivity|]. intros [H1 H2]. unfold scan_exp.
  apply N.eqb_neq in H1, H2. rewrite H1, H2. reflexivity.
Qed.

Lemma scan_number_int (neg : bool) ip rest :
  int_part ip -> (length ip <= int_max_str_digits)%nat -> delim rest ->
  scan_number ((if neg then [45] else []) ++ ip ++ rest) =
  SOk (JInt (if neg then Z.opp (Z.of_N (digits_value ip)) else Z.of_N (digits_value ip))) rest.
Proof.
  intros Hip Hlen Hr. unfold scan_number.
  assert (Hneg : match (if neg then [45] else []) ++ ip ++ rest with
                 | c :: r => if c =? 45 then (true, r) else (false, (if neg then [45] else []) ++ ip ++ rest)
                 | [] => (false, (if neg then [45] else []) ++ ip ++ rest)
                 end = (neg, ip ++ rest)).
  { destruct neg; [reflexivity|].
    destruct Hip as [->|(c & ds & -> & Hc & _)]; [reflexivity|]. simpl.
    assert (E : (c =? 45) = false) by (apply N.eqb_neq; lia). rewrite E. reflexivity. }
  rewrite Hneg, scan_int_part_ok by auto using delim_nodigit.
  rewrite scan_frac_none by (destruct rest as [|c r]; [exact I|]; destruct Hr as [->|[->| ->]]; discriminate).
  rewrite scan_exp_none by (destruct rest as [|c r]; [exact I|];
                            destruct Hr as [->|[->| ->]]; split; discriminate).
  cbn [orb]. rewrite (proj2 (Nat.ltb_ge _ _) Hlen). reflexivity.
Qed.

Lemma scan_number_float sg ip fr ex rest :
  (sg = [] \/ sg = [45]) -> int_part ip ->
  (fr = [] \/ exists ds, fr = 46 :: ds /\ digits_ok ds) ->
  (ex = [] \/ exists e es ds, ex = e :: es ++ ds /\ (e = 101 \/ e = 69) /\
                             (es = [] \/ es = [43] \/ es = [45]) /\ digits_ok ds) ->
  (fr <> [] \/ ex <> []) -> delim rest ->
  scan_number ((sg ++ ip ++ fr ++ ex) ++ rest) = SOk (JFloat (sg ++ ip ++ fr ++ ex)) rest.
Proof.
  intros Hsg Hip Hfr Hex Hne Hr. unfold scan_number.
  set (lex := sg ++ ip ++ fr ++ ex).
  assert (Hneg : match lex ++ rest with
                 | c :: r => if c =? 45 then (true, r) else (false, lex ++ rest)
                 | [] => (false, lex ++ rest)
                 end = (bool_decide (sg = [45]), (ip ++ fr ++ ex) ++ rest)).
  { subst lex. destruct Hsg as [->| ->]; [|reflexivity].
    destruct Hip as [->|(c & ds & -> & Hc & _)]; [reflexivity|]. simpl.
    assert (E : (c =? 45) = false) by (apply N.eqb_neq; lia). rewrite E. reflexivity. }
  rewrite Hneg, <- !app_assoc.
  assert (Hex_head : nodigit_head (ex ++ rest) /\
                     match ex ++ rest with [] => True | c :: _ => c <> 46 end).
  { destruct Hex as [->|(e & es & ds & -> & He & _)].
    - destruct rest as [|c r]; [split; exact I|].
      destruct Hr as [->|[->| ->]]; split; (reflexivity || discriminate).
    - destruct He as [-> | ->]; split; (reflexivity || discriminate). }
  rewrite scan_int_part_ok.
  2: exact Hip.
  2: { destruct Hfr as [->|(ds & -> & _)]; [apply Hex_head | reflexivity]. }
  assert (Hfrac : scan_frac (fr ++ ex ++ rest) = (bool_decide (fr <> []), ex ++ rest)).
  { destruct Hfr as [->|(ds & -> & Hne' & Hds)].
    - apply scan_frac_none, Hex_head.
    - simpl app. rewrite scan_frac_some by (auto; apply Hex_head). reflexivity. }
  rewrite Hfrac.
  assert (Hexp : scan_exp (ex ++ rest) = (bool_decide (ex <> []), rest)).
  { destruct Hex as [->|(e & es & ds & -> & He & Hes & Hne' & Hds)].
    - apply scan_exp_none. destruct rest as [|c r]; [exact I|].
      destruct Hr as [->|[->| ->]]; split; discriminate.
    - simpl app. rewrite <- app_assoc, scan_exp_some by auto using delim_nodigit. reflexivity. }
  rewrite Hexp.
  assert (Hb : bool_decide (fr <> []) || bool_decide (ex <> []) = true).
  { destruct Hne; [rewrite bool_decide_true by auto | rewrite (bool_decide_true (ex <> [])) by auto];
    rewrite ?orb_true_r; reflexivity. }
  rewrite Hb. f_equal. f_equal.
  rewrite length_app. replace (length lex + length rest - length rest)%nat with (length lex) by lia.
  apply take_app_length.
Qed.

Lemma scan_constant_digit c t : is_digit c = true -> scan_constant (c :: t) = None.
Proof. intros H. apply digit_cases in H. repeat destruct H as [->|H]; subst; reflexivity. Qed.

Lemma scan_constant_minus_digit c t : is_digit c = true -> scan_constant (45 :: c :: t) = None.
Proof. intros H. apply digit_cases in H. repeat destruct H as [->|H]; subst; reflexivity. Qed.

Lemma uint_text_int_part n : int_part (uint_text (N.to_uint n)).
Proof.
  destruct (to_uint_shape n) as [E|(c & u & E & Hc)].
  - rewrite E. left. reflexivity.
  - rewrite E. right. exists c, (uint_text u). split; [reflexivity|]. split; [lia|].
    apply uint_text_digits.
Qed.

Lemma int_part_head ip : int_part ip -> exists c t, ip = c :: t /\ is_digit c = true.
Proof.
  intros [->|(c & ds & -> & Hc & _)]; [exists 48, []; auto|].
  exists c, ds. split; [reflexivity|]. apply is_digit_iff. lia.
Qed.

Lemma digit_not_special c : is_digit c = true ->
  (c =? 34) = false /\ (c =? 123) = false /\ (c =? 91) = false /\ (c =? 45) = false.
Proof.
  intros H. apply is_digit_iff in H.
  repeat split; apply N.eqb_neq; lia.
Qed.

Lemma scan_value_float lex n d rest :
  float_lexeme lex -> delim rest -> scan_value (S n) d (lex ++ rest) = SOk (JFloat lex) rest.
Proof.
  intros [->|[->|[->|(sg & ip & fr & ex & -> & Hsg & Hip & Hfr & Hex & Hne)]]] Hr;
    try reflexivity.
  rewrite <- (scan_number_float sg ip fr ex rest) by assumption.
  destruct (int_part_head ip Hip) as (c & t & Eip & Hc).
  destruct (digit_not_special c Hc) as (H34 & H123 & H91 & H45).
  destruct Hsg as [-> | ->]; rewrite Eip; simpl.
  - rewrite H34, H123, H91, scan_constant_digit by exact Hc. reflexivity.
  - rewrite scan_constant_minus_digit by exact Hc. reflexivity.
Qed.

Lemma scan_value_int_repr z n d rest :
  (length (int_digits z) <= int_max_str_digits)%nat -> delim rest ->
  scan_value (S n) d (int_text z ++ rest) = SOk (JInt z) rest.
Proof.
  intros Hlen Hr.
  set (m := Z.to_N (Z.abs z)).
  assert (Hrepr : int_text z = (if (z <? 0)%Z then [45] else []) ++ uint_text (N.to_uint m)).
  { unfold int_text, int_digits, m. destruct (z <? 0)%Z; reflexivity. }
  assert (Hval : (if (z <? 0)%Z then Z.opp (Z.of_N (digits_value (uint_text (N.to_uint m))))
                 else Z.of_N (digits_value (uint_text (N.to_uint m)))) = z).
  { rewrite digits_value_uint, Unsigned.of_to. unfold m.
    destruct (z <? 0)%Z eqn:Hz; [apply Z.ltb_lt in Hz | apply Z.ltb_ge in Hz]; lia. }
  assert (Hns : scan_number (int_text z ++ rest) = SOk (JInt z) rest).
  { rewrite Hrepr, <- app_assoc, scan_number_int by (auto using uint_text_int_part).
    rewrite Hval. reflexivity. }
  rewrite <- Hns.
  destruct (int_part_head _ (uint_text_int_part m)) as (c & t & Ec & Hc).
  destruct (digit_not_special c Hc) as (H34 & H123 & H91 & H45).
  rewrite Hrepr, Ec. destruct (z <? 0)%Z; simpl.
  - rewrite scan_constant_minus_digit by exact Hc. reflexivity.
  - rewrite H34, H123, H91, scan_constant_digit by exact Hc. reflexivity.
Qed.

(** *** Strings *)

Lemma hex_value_digit x : x < 16 -> hex_value (hex_digit x) = Some x.
Proof.
  intros H.
  assert (x = 0 \/ x = 1 \/ x = 2 \/ x = 3 \/ x = 4 \/ x = 5 \/ x = 6 \/ x = 7 \/ x = 8 \/
          x = 9 \/ x = 10 \/ x = 11 \/ x = 12 \/ x = 13 \/ x = 14 \/ x = 15) as Hx by lia.
  repeat destruct Hx as [->|Hx]; subst; reflexivity.
Qed.

Lemma u_escape_hex n : n < 65536 ->
  exists h1 h2 h3 h4, u_escape n = [92; 117; h1; h2; h3; h4] /\ hex4 h1 h2 h3 h4 = Some n.
Proof.
  intros Hn. unfold u_escape. do 4 eexists. split; [reflexivity|].
  unfold hex4. rewrite !hex_value_digit by (apply N.mod_lt; discriminate). f_equal.
  pose proof (N.div_mod n 16 ltac:(discriminate)) as E1.
  pose proof (N.div_mod (n / 16) 16 ltac:(discriminate)) as E2.
  pose proof (N.div_mod (n / 256) 16 ltac:(discriminate)) as E3.
  rewrite N.Div0.div_div in E2, E3.
  change (16 * 16) with 256 in E2. change (256 * 16) with 4096 in E3.
  assert (Hq : n / 4096 < 16) by (apply N.Div0.div_lt_upper_bound; lia).
  rewrite (N.mod_small (n / 4096) 16) by exact Hq. lia.
Qed.

Lemma lor_table :
  forallb (fun y => N.eqb (N.lor 55296 y) (55296 + y) && N.eqb (N.lor 56320 y) (56320 + y))
          (map N.of_nat (seq 0 1024)) = true.
Proof. vm_compute. reflexivity. Qed.

Lemma lor_low y : y < 1024 -> N.lor 55296 y = 55296 + y /\ N.lor 56320 y = 56320 + y.
Proof.
  intros Hy. pose proof lor_table as T0. rewrite forallb_forall in T0.
  specialize (T0 y). rewrite andb_true_iff, !N.eqb_eq in T0. apply T0.
  apply in_map_iff. exists (N.to_nat y). split; [apply N2Nat.id|].
  apply in_seq. lia.
Qed.

Lemma surrogate_pair c : 65536 <= c <= 1114111 ->
  let n := c - 65536 in
  let s1 := N.lor 55296 (N.land (N.shiftr n 10) 1023) in
  let s2 := N.lor 56320 (N.land n 1023) in
  s1 < 65536 /\ s2 < 65536 /\ is_high_surrogate s1 = true /\ is_low_surrogate s2 = true /\
  join_surrogates s1 s2 = c.
Proof.
  intros Hc n s1 s2.
  assert (En : n = c - 65536) by reflexivity. clearbody n.
  assert (Hsh : N.shiftr n 10 = n / 1024) by (rewrite N.shiftr_div_pow2; reflexivity).
  assert (Hland : forall a, N.land a 1023 = a mod 1024)
    by (intros a; change 1023 with (N.ones 10); rewrite N.land_ones; reflexivity).
  assert (Hq : n / 1024 < 1024) by (apply N.Div0.div_lt_upper_bound; lia).
  assert (Hr : n mod 1024 < 1024) by (apply N.mod_lt; discriminate).
  assert (Es1 : s1 = 55296 + n / 1024).
  { unfold s1. rewrite Hsh, Hland, N.mod_small by exact Hq. apply lor_low, Hq. }
  assert (Es2 : s2 = 56320 + n mod 1024).
  { unfold s2. rewrite Hland. apply lor_low, Hr. }
  pose proof (N.div_mod n 1024 ltac:(discriminate)) as Ediv.
  rewrite Es1, Es2. unfold is_high_surrogate, is_low_surrogate, join_surrogates.
  set (q := n / 1024) in *. set (r := n mod 1024) in *. clearbody q r.
  repeat split.
  - lia.
  - lia.
  - apply andb_true_iff. rewrite !N.leb_le. lia.
  - apply andb_true_iff. rewrite !N.leb_le. lia.
  - lia.
Qed.

Lemma scan_str_escape_char c t :
  is_scalar c = true -> nonempty t = true ->
  scan_str (escape_char c ++ t) = scan_cons c (scan_str t).
Proof.
  intros Hs Ht. unfold is_scalar in Hs. rewrite andb_true_iff, negb_true_iff, N.leb_le in Hs.
  destruct Hs as [Hmax Hsur].
  unfold escape_char.
  destruct (N.eqb_spec c 92) as [->|H92]; [reflexivity|].
  destruct (N.eqb_spec c 34) as [->|H34]; [reflexivity|].
  destruct (N.eqb_spec c 8) as [->|H8]; [reflexivity|].
  destruct (N.eqb_spec c 12) as [->|H12]; [reflexivity|].
  destruct (N.eqb_spec c 10) as [->|H10]; [reflexivity|].
  destruct (N.eqb_spec c 13) as [->|H13]; [reflexivity|].
  destruct (N.eqb_spec c 9) as [->|H9]; [reflexivity|].
  destruct ((32 <=? c) && (c <=? 126)) eqn:Hprint.
  - apply andb_true_iff in Hprint. rewrite !N.leb_le in Hprint.
    simpl. apply N.eqb_neq in H34, H92. rewrite H34, H92.
    assert (E : (c <? 32) = false) by (apply N.ltb_ge; lia). rewrite E. reflexivity.
  - destruct (N.ltb_spec c 65536) as [Hbmp|Hbmp].
    + destruct (u_escape_hex c Hbmp) as (h1 & h2 & h3 & h4 & -> & Hh).
      simpl. rewrite Hh.
      assert (E : is_high_surrogate c = false).
      { unfold is_high_surrogate. apply andb_false_iff in Hsur. apply andb_false_iff.
        destruct Hsur as [H|H]; [left; exact H|].
        right. apply N.leb_gt in H. apply N.leb_gt. lia. }
      rewrite E. reflexivity.
    + destruct (surrogate_pair c ltac:(lia)) as (Hs1 & Hs2 & Hhi & Hlo & Hjoin).
      cbv zeta in *.
      destruct (u_escape_hex _ Hs1) as (h1 & h2 & h3 & h4 & -> & Hh).
      destruct (u_escape_hex _ Hs2) as (g1 & g2 & g3 & g4 & -> & Hg).
      simpl. rewrite Hh, Hhi, Ht. simpl. rewrite Hg, Hlo, Hjoin. reflexivity.
Qed.

Lemma scan_str_encode s rest :
  text_wf s = true -> scan_str (flat_map escape_char s ++ 34 :: rest) = SOk s rest.
Proof.
  induction s as [|c s IH]; intros Hwf; [reflexivity|].
  simpl in Hwf. apply andb_true_iff in Hwf as [Hc Hs].
  simpl. rewrite <- app_assoc, scan_str_escape_char by (auto; destruct (flat_map escape_char s); reflexivity).
  rewrite IH by exact Hs. reflexivity.
Qed.

(** *** Arrays, objects and whole documents *)

Lemma json_wf_arr l : json_wf (JArr l) <-> Forall json_wf l.
Proof.
  simpl. induction l as [|x l IH]; simpl; [split; auto|].
  rewrite Forall_cons, <- IH. reflexivity.
Qed.

Lemma json_wf_obj l :
  json_wf (JObj l) <->
  NoDup (map fst l) /\ Forall (fun kv => text_wf (fst kv) = true /\ json_wf (snd kv)) l.
Proof.
  simpl. apply and_iff_compat_l. induction l as [|kv l IH]; simpl; [split; auto|].
  rewrite Forall_cons, <- IH. tauto.
Qed.

Lemma skip_ws_not_ws c t : is_ws c = false -> skip_ws (c :: t) = c :: t.
Proof. intros H. simpl. rewrite H. reflexivity. Qed.

Lemma plain_head_digit c t : is_digit c = true -> plain_head (c :: t).
Proof.
  intros H. apply digit_cases in H. exists c, t. split; [reflexivity|].
  repeat destruct H as [->|H]; subst; repeat split.
Qed.

Lemma dumps_plain_head v : json_wf v -> plain_head (dump_text v).
Proof.
  destruct v as [| [] | z | lex | s | l | l]; intros Hwf; simpl.
  - eexists _, _; repeat split.
  - eexists _, _; repeat split.
  - eexists _, _; repeat split.
  - unfold int_text, int_digits. destruct (z <? 0)%Z.
    + eexists _, _; repeat split.
    + destruct (int_part_head _ (uint_text_int_part (Z.to_N (Z.abs z)))) as (c & t & Ec & Hc).
      rewrite Ec. apply plain_head_digit, Hc.
  - destruct Hwf as [Hwf _].
    destruct Hwf as [->|[->|[->|(sg & ip & fr & ex & -> & Hsg & Hip & _)]]];
      [eexists _, _; repeat split .. |].
    destruct Hsg as [-> | ->]; [|eexists _, _; repeat split].
    destruct (int_part_head _ Hip) as (c & t & -> & Hc). apply plain_head_digit, Hc.
  - eexists _, _; repeat split.
  - eexists _, _; repeat split.
  - eexists _, _; repeat split.
Qed.

Lemma join_text_cons sep x r : exists t, join_text sep (x :: r) = x ++ t.
Proof. destruct r; simpl; [exists []; rewrite app_nil_r|eexists]; reflexivity. Qed.

Lemma skip_ws_plain s t : plain_head s -> skip_ws (s ++ t) = s ++ t.
Proof. intros (c & u & -> & Hc & _). simpl. rewrite Hc. reflexivity. Qed.

Lemma plain_head_app s t : plain_head s -> plain_head (s ++ t).
Proof. intros (c & u & -> & H). exists c, (u ++ t). auto. Qed.

Lemma scan_elems_join l acc n d rest :
  l <> [] -> Forall scans_back l -> Forall json_wf l ->
  Forall (fun x => json_depth x <= d)%nat l ->
  (length (join_text (T ", ") (map dump_text l)) + 1 < n)%nat ->
  scan_elems n d acc (join_text (T ", ") (map dump_text l) ++ 93 :: rest) = SOk (JArr (acc ++ l)) rest.
Proof.
  revert acc n. induction l as [|x l IH]; intros acc n Hne Hb Hwf Hd Hlen; [congruence|].
  apply Forall_cons in Hb as [Hx Hb]. apply Forall_cons in Hwf as [Hwx Hwf].
  apply Forall_cons in Hd as [Hdx Hd].
  destruct n as [|n]; [lia|].
  destruct l as [|y l].
  - cbn [map join_text] in *. cbn [scan_elems].
    rewrite (Hx n d (93 :: rest)); [|simpl; auto|lia|lia].
    reflexivity.
  - set (J := join_text (T ", ") (map dump_text (y :: l))) in *.
    assert (EJ : join_text (T ", ") (map dump_text (x :: y :: l)) = dump_text x ++ [44; 32] ++ J)
      by reflexivity.
    rewrite EJ in Hlen |- *. rewrite !length_app in Hlen.
    cbn [scan_elems]. rewrite <- app_assoc.
    rewrite (Hx n d); [|simpl; auto|simpl in Hlen; lia|lia].
    cbn [skip_ws is_ws app]. cbn -[J].
    destruct (join_text_cons (T ", ") (dump_text y) (map dump_text l)) as [t Et].
    assert (HJ : plain_head J).
    { unfold J. cbn [map]. rewrite Et. apply plain_head_app, dumps_plain_head.
      apply Forall_cons in Hwf as [? _]. auto. }
    rewrite skip_ws_plain by exact HJ.
    rewrite IH; [|discriminate|auto|auto|auto|simpl in Hlen |- *; lia].
    rewrite <- app_assoc. reflexivity.
Qed.

Lemma obj_set_notin k v acc : ~ In k (map fst acc) -> obj_set k v acc = acc ++ [(k, v)].
Proof.
  induction acc as [|[k' v'] acc IH]; simpl; [reflexivity|].
  intros Hn. destruct (decide (k = k')) as [->|_]; [tauto|]. rewrite IH; tauto.
Qed.

Lemma member_text_app k v X :
  member_text (k, v) ++ X = 34 :: flat_map escape_char k ++ 34 :: 58 :: 32 :: dump_text v ++ X.
Proof. unfold member_text, encode_str. cbn [fst snd]. rewrite <- !app_assoc. reflexivity. Qed.

Lemma plain_head_member kv : plain_head (member_text kv).
Proof. destruct kv as [k v]. rewrite <- (app_nil_r (member_text _)), member_text_app.
  eexists _, _; repeat split. Qed.

Lemma scan_members_join l acc n d rest :
  l <> [] -> Forall (fun kv => scans_back (snd kv)) l ->
  Forall (fun kv => text_wf (fst kv) = true /\ json_wf (snd kv)) l ->
  NoDup (map fst (acc ++ l)) ->
  Forall (fun kv => json_depth (snd kv) <= d)%nat l ->
  (length (join_text (T ", ") (map member_text l)) + 1 < n)%nat ->
  scan_members n d acc (join_text (T ", ") (map member_text l) ++ 125 :: rest) =
  SOk (JObj (acc ++ l)) rest.
Proof.
  revert acc n. induction l as [|[k v] l IH]; intros acc n Hne Hb Hwf Hnd Hd Hlen; [congruence|].
  apply Forall_cons in Hb as [Hx Hb]. apply Forall_cons in Hwf as [[Hk Hwv] Hwf].
  apply Forall_cons in Hd as [Hdx Hd]. cbn [fst snd] in *.
  assert (Hnot : ~ In k (map fst acc)).
  { rewrite map_app in Hnd. apply NoDup_app in Hnd as (_ & Hdis & _).
    intros Hin. apply (Hdis k (proj2 (list_elem_of_In _ _) Hin)). left. }
  destruct n as [|n]; [lia|].
  destruct l as [|kv' l].
  - assert (EJ : join_text (T ", ") (map member_text [(k, v)]) = member_text (k, v))
      by reflexivity.
    rewrite EJ in Hlen |- *. rewrite member_text_app.
    unfold member_text in Hlen. rewrite !length_app in Hlen.
    cbn [scan_members N.eqb Pos.eqb]. rewrite scan_str_encode by exact Hk.
    cbn [skip_ws is_ws N.eqb Pos.eqb orb].
    rewrite skip_ws_plain by (apply dumps_plain_head; exact Hwv).
    rewrite (Hx n d); [|simpl; auto|simpl in Hlen; lia|lia].
    cbn [skip_ws is_ws N.eqb Pos.eqb orb]. rewrite obj_set_notin by exact Hnot.
    reflexivity.
  - set (J := join_text (T ", ") (map member_text (kv' :: l))) in *.
    assert (EJ : join_text (T ", ") (map member_text ((k, v) :: kv' :: l)) =
                 member_text (k, v) ++ [44; 32] ++ J) by reflexivity.
    rewrite EJ in Hlen |- *. rewrite <- app_assoc, member_text_app.
    unfold member_text at 1 in Hlen. rewrite !length_app in Hlen.
    cbn [scan_members N.eqb Pos.eqb]. rewrite scan_str_encode by exact Hk.
    cbn [skip_ws is_ws N.eqb Pos.eqb orb].
    rewrite skip_ws_plain by (apply dumps_plain_head; exact Hwv).
    rewrite (Hx n d); [|simpl; auto|simpl in Hlen; lia|lia].
    cbn [skip_ws is_ws N.eqb Pos.eqb orb app].
    assert (HJ : plain_head J).
    { unfold J. cbn [map].
      destruct (join_text_cons (T ", ") (member_text kv') (map member_text l)) as [t ->].
      apply plain_head_app, plain_head_member. }
    rewrite skip_ws_plain by exact HJ. rewrite obj_set_notin by exact Hnot.
    rewrite IH; [|discriminate|auto|auto| |auto|simpl in Hlen |- *; lia].
    + rewrite <- app_assoc. reflexivity.
    + rewrite <- app_assoc. exact Hnd.
Qed.

Lemma depth_children (ds : list nat) d :
  (S (list_max ds) <= d)%nat -> exists d', d = S d' /\ Forall (fun k => k <= d')%nat ds.
Proof.
  intros H. destruct d as [|d']; [lia|]. exists d'. split; [reflexivity|].
  apply list_max_le. lia.
Qed.

Lemma scan_value_dumps v : json_wf v -> scans_back v.
Proof.
  induction v as [| b | z | lex | s | l IH | l IH] using json_ind';
    intros Hwf n d rest Hr Hlen Hd; (destruct n as [|n]; [simpl in Hlen; lia|]).
  - reflexivity.
  - destruct b; reflexivity.
  - apply scan_value_int_repr; [exact Hwf|exact Hr].
  - apply scan_value_float; [apply Hwf|exact Hr].
  - cbn [dump_text]. unfold encode_str. rewrite <- !app_assoc. cbn [app].
    cbn [scan_value N.eqb Pos.eqb]. rewrite scan_str_encode by exact Hwf. reflexivity.
  - apply json_wf_arr in Hwf.
    destruct (depth_children _ _ Hd) as (d' & -> & Hd'). apply Forall_map in Hd'.
    destruct l as [|x l]; [reflexivity|].
    assert (Ed : dump_text (JArr (x :: l)) = [91] ++ join_text (T ", ") (map dump_text (x :: l)) ++ [93])
      by reflexivity.
    rewrite Ed in Hlen |- *. rewrite !length_app in Hlen.
    set (J := join_text (T ", ") (map dump_text (x :: l))) in *.
    assert (HJ : plain_head J).
    { unfold J. cbn [map].
      destruct (join_text_cons (T ", ") (dump_text x) (map dump_text l)) as [t ->].
      apply plain_head_app, dumps_plain_head. apply Forall_cons in Hwf as [? _]. auto. }
    rewrite <- !app_assoc. cbn [app]. cbn [scan_value N.eqb Pos.eqb].
    rewrite skip_ws_plain by exact HJ.
    destruct HJ as (c & t & EJ & _ & H93 & _). rewrite EJ. cbn [app]. rewrite H93.
    change (c :: t ++ 93 :: rest) with ((c :: t) ++ 93 :: rest). rewrite <- EJ.
    assert (HlJ : (length J + 1 < n)%nat) by (simpl in Hlen; lia).
    unfold J in HlJ |- *. rewrite scan_elems_join; [reflexivity|discriminate| |exact Hwf|exact Hd'|exact HlJ].
    rewrite Forall_forall in IH, Hwf |- *. intros y Hy. apply IH; auto.
  - apply json_wf_obj in Hwf as [Hnd Hwf].
    destruct (depth_children _ _ Hd) as (d' & -> & Hd'). apply Forall_map in Hd'.
    destruct l as [|kv l]; [reflexivity|].
    assert (Ed : dump_text (JObj (kv :: l)) =
                 [123] ++ join_text (T ", ") (map member_text (kv :: l)) ++ [125])
      by reflexivity.
    rewrite Ed in Hlen |- *. rewrite !length_app in Hlen.
    set (J := join_text (T ", ") (map member_text (kv :: l))) in *.
    assert (HJ : plain_head J).
    { unfold J. cbn [map].
      destruct (join_text_cons (T ", ") (member_text kv) (map member_text l)) as [t ->].
      apply plain_head_app, plain_head_member. }
    rewrite <- !app_assoc. cbn [app]. cbn [scan_value N.eqb Pos.eqb].
    rewrite skip_ws_plain by exact HJ.
    destruct HJ as (c & t & EJ & _ & _ & H125). rewrite EJ. cbn [app]. rewrite H125.
    change (c :: t ++ 125 :: rest) with ((c :: t) ++ 125 :: rest). rewrite <- EJ.
    assert (HlJ : (length J + 1 < n)%nat) by (simpl in Hlen; lia).
    unfold J in HlJ |- *.
    rewrite scan_members_join; [reflexivity|discriminate| |exact Hwf|exact Hnd|exact Hd'|exact HlJ].
    rewrite Forall_forall in IH, Hwf |- *. intros y Hy. apply IH; [exact Hy|]. apply Hwf, Hy.
Qed.

Lemma loads_dumps limit v :
  json_wf v -> (json_depth v <= limit)%nat -> loads limit (dump_text v) = Loaded v.
Proof.
  intros Hwf Hd. unfold loads.
  pose proof (dumps_plain_head v Hwf) as Hp.
  rewrite <- (app_nil_r (dump_text v)), skip_ws_plain by exact Hp.
  rewrite scan_value_dumps; [reflexivity|exact Hwf|simpl; exact I| |exact Hd].
  rewrite length_app. simpl. lia.
Qed.


(** *** What [json.dump] writes is printable ASCII *)

Lemma printable_iff c : printable c = true <-> 32 <= c <= 126.
Proof. unfold printable. rewrite andb_true_iff, N.leb_le, N.leb_le. reflexivity. Qed.

Lemma digit_printable c : is_digit c = true -> printable c = true.
Proof. rewrite is_digit_iff, printable_iff. lia. Qed.

Lemma digits_printable d : digit_text d -> forallb printable d = true.
Proof.
  intros H. apply forallb_forall. intros c Hc. apply digit_printable.
  exact (proj1 (List.Forall_forall _ _) H c Hc).
Qed.

Lemma hex_digit_printable x : x < 16 -> printable (hex_digit x) = true.
Proof.
  intros H. apply printable_iff. unfold hex_digit.
  destruct (x <? 10) eqn:E; [apply N.ltb_lt in E|apply N.ltb_ge in E]; lia.
Qed.

Lemma u_escape_printable n : forallb printable (u_escape n) = true.
Proof.
  unfold u_escape. cbn [forallb].
  rewrite !hex_digit_printable by (apply N.mod_lt; discriminate). reflexivity.
Qed.

Lemma escape_char_printable c : forallb printable (escape_char c) = true.
Proof.
  unfold escape_char.
  repeat match goal with
         | |- context [if ?b then _ else _] => destruct b eqn:?
         end; try reflexivity;
    rewrite ?forallb_app, ?u_escape_printable; try reflexivity.
  cbn. unfold printable. match goal with H : _ && _ = true |- _ => rewrite H end. reflexivity.
Qed.

Lemma encode_str_printable s : forallb printable (encode_str s) = true.
Proof.
  unfold encode_str. rewrite !forallb_app. cbn [forallb]. rewrite andb_true_r.
  replace (forallb printable (flat_map escape_char s)) with true; [reflexivity|].
  induction s as [|c s IH]; [reflexivity|]. cbn [flat_map].
  rewrite forallb_app, escape_char_printable, <- IH. reflexivity.
Qed.

Lemma int_text_printable z : forallb printable (int_text z) = true.
Proof.
  unfold int_text, int_digits. pose proof (digits_printable _ (uint_text_digits (N.to_uint (Z.to_N (Z.abs z))))) as H.
  destruct (z <? 0)%Z; cbn [forallb]; rewrite H; reflexivity.
Qed.

Lemma float_lexeme_printable lex : float_lexeme lex -> forallb printable lex = true.
Proof.
  intros [->|[->|[->|(sg & ip & fr & ex & -> & Hsg & Hip & Hfr & Hex & _)]]]; try reflexivity.
  rewrite !forallb_app.
  assert (Hi : forallb printable ip = true).
  { destruct Hip as [->|(c & ds & -> & Hc & Hds)]; [reflexivity|].
    cbn [forallb]. rewrite digits_printable by exact Hds.
    replace (printable c) with true; [reflexivity|]. symmetry. apply printable_iff. lia. }
  rewrite Hi.
  replace (forallb printable sg) with true by (destruct Hsg as [-> | ->]; reflexivity).
  replace (forallb printable fr) with true
    by (destruct Hfr as [->|(ds & -> & _ & Hds)]; [reflexivity|];
        cbn [forallb]; rewrite digits_printable by exact Hds; reflexivity).
  replace (forallb printable ex) with true; [reflexivity|].
  destruct Hex as [->|(e & es & ds & -> & He & Hes & _ & Hds)]; [reflexivity|].
  cbn [forallb]. rewrite forallb_app, (digits_printable ds) by exact Hds.
  destruct He as [-> | ->]; destruct Hes as [-> | [-> | ->]]; reflexivity.
Qed.

Lemma join_text_printable sep l :
  forallb printable sep = true -> Forall (fun t => forallb printable t = true) l ->
  forallb printable (join_text sep l) = true.
Proof.
  intros Hs Hl. induction Hl as [|x l Hx Hl IH]; [reflexivity|].
  destruct l as [|y l]; [exact Hx|].
  change (join_text sep (x :: y :: l)) with (x ++ sep ++ join_text sep (y :: l)).
  rewrite !forallb_app, Hx, Hs, IH. reflexivity.
Qed.

Lemma dump_text_printable v : json_wf v -> forallb printable (dump_text v) = true.
Proof.
  induction v as [| [] | z | lex | s | l IH | l IH] using json_ind'; intros Hwf;
    try reflexivity.
  - apply int_text_printable.
  - apply float_lexeme_printable, Hwf.
  - apply encode_str_printable.
  - apply json_wf_arr in Hwf. cbn [dump_text]. rewrite !forallb_app.
    rewrite join_text_printable; [reflexivity|reflexivity|].
    rewrite Forall_map. rewrite Forall_forall in IH, Hwf |- *. intros x Hx.
    apply IH; [exact Hx|apply Hwf, Hx].
  - apply json_wf_obj in Hwf as [_ Hwf]. cbn [dump_text]. rewrite !forallb_app.
    rewrite join_text_printable; [reflexivity|reflexivity|].
    rewrite Forall_map. rewrite Forall_forall in IH, Hwf |- *. intros kv Hkv.
    rewrite !forallb_app, encode_str_printable, IH; [reflexivity|exact Hkv|apply Hwf, Hkv].
Qed.

Lemma utf8_decode_printable sp t : forallb printable t = true -> utf8_decode sp t = Some t.
Proof.
  induction t as [|c t IH]; intros H; [reflexivity|].
  cbn [forallb] in H. apply andb_prop in H as [Hc Ht]. apply printable_iff in Hc.
  cbn [utf8_decode]. replace (c <? 128) with true by (symmetry; apply N.ltb_lt; lia).
  rewrite IH by exact Ht. reflexivity.
Qed.

Lemma translate_newlines_printable t : forallb printable t = true -> translate_newlines t = t.
Proof.
  induction t as [|c t IH]; intros H; [reflexivity|].
  cbn [forallb] in H. apply andb_prop in H as [Hc Ht]. apply printable_iff in Hc.
  cbn [translate_newlines]. replace (c =? 13) with false by (symmetry; apply N.eqb_neq; lia).
  rewrite IH by exact Ht. reflexivity.
Qed.

Lemma read_text_printable t : forallb printable t = true -> read_text t = Some t.
Proof.
  intros H. unfold read_text. rewrite utf8_decode_printable by exact H. cbn.
  rewrite translate_newlines_printable by exact H. reflexivity.
Qed.

(** Reading back in text mode what [json.dump] wrote. *)
Lemma loads_text_dumps limit v :
  json_wf v -> (json_depth v <= limit)%nat -> loads_text limit (dump_text v) = Loaded v.
Proof.
  intros Hwf Hd. unfold loads_text. rewrite read_text_printable by (apply dump_text_printable, Hwf).
  apply loads_dumps; assumption.
Qed.

Lemma dump_error_none b v :
  json_wf v -> (dump_depth v <= b)%nat -> dump_error b v = None.
Proof.
  revert b.
  induction v as [| [] | z | lex | s | l IH | l IH] using json_ind'; intros b Hwf Hd;
    try reflexivity.
  - cbn. unfold int_repr. cbn in Hwf. rewrite (proj2 (Nat.ltb_ge _ _) Hwf). reflexivity.
  - cbn in Hd. destruct b; [lia|reflexivity].
  - apply json_wf_arr in Hwf. cbn [dump_depth] in Hd. destruct b as [|b]; [lia|]. cbn.
    assert (Hm : (list_max (map dump_depth l) <= b)%nat) by lia. clear Hd.
    apply list_max_le in Hm. rewrite Forall_map in Hm.
    induction l as [|x l IHl]; [reflexivity|].
    inversion IH; inversion Hwf; inversion Hm; subst.
    rewrite H1 by assumption. apply IHl; assumption.
  - apply json_wf_obj in Hwf as [_ Hwf]. cbn [dump_depth] in Hd. destruct b as [|b]; [lia|]. cbn.
    assert (Hm : (list_max (map (fun kv => dump_depth (snd kv)) l) <= b)%nat) by lia. clear Hd.
    apply list_max_le in Hm. rewrite Forall_map in Hm.
    induction l as [|x l IHl]; [reflexivity|].
    inversion IH; inversion Hwf; inversion Hm; subst.
    rewrite H1 by (tauto || assumption). apply IHl; assumption.
Qed.

(** *** Status files *)

Ltac munfold :=
  unfold mbind, M_bind, mret, M_ret, raise, get_fs, put_fs, log, record in *.

Ltac split_scan H :=
  repeat match type of H with
         | context [match ?x with _ => _ end] => destruct x eqn:?
         end; try discriminate.

Lemma string_length_app (s t : string) :
  String.length (s ++ t) = (String.length s + String.length t)%nat.
Proof. induction s; simpl; auto. Qed.

Lemma string_app_neq (s t : string) : t <> EmptyString -> (s ++ t)%string <> s.
Proof.
  intros Ht Heq. apply (f_equal String.length) in Heq.
  rewrite string_length_app in Heq. destruct t; [congruence|]. simpl in Heq. lia.
Qed.

(** A parsed object never repeats a key: the parser overwrites. *)
Lemma obj_set_keys k v l x :
  In x (map fst (obj_set k v l)) -> x = k \/ In x (map fst l).
Proof.
  induction l as [|[k' v'] l IH]; simpl; [intros [->|[]]; auto|].
  destruct (decide (k = k')); simpl; [tauto|]. intros [->|H]; [auto|]. apply IH in H. tauto.
Qed.

Lemma obj_set_nodup k v l : NoDup (map fst l) -> NoDup (map fst (obj_set k v l)).
Proof.
  induction l as [|[k' v'] l IH]; simpl; intros Hnd.
  - apply NoDup_singleton.
  - inversion Hnd as [|? ? Hn Hnd']; subst.
    destruct (decide (k = k')) as [->|Hne]; simpl; [constructor; auto|].
    constructor; [|auto]. intros Hin. apply list_elem_of_In, obj_set_keys in Hin as [->|Hin].
    + congruence.
    + apply Hn, list_elem_of_In, Hin.
Qed.


Lemma scan_members_nodup n d acc s v r :
  NoDup (map fst acc) -> scan_members n d acc s = SOk v r ->
  exists l, v = JObj l /\ NoDup (map fst l).
Proof.
  revert acc s. induction n as [|n IH]; intros acc s Hnd H; [discriminate|].
  cbn [scan_members] in H. split_scan H.
  - injection H as <- _. eexists; split; [reflexivity|]. apply obj_set_nodup, Hnd.
  - eapply IH; [apply obj_set_nodup, Hnd|exact H].
Qed.

Lemma scan_elems_arr n d acc s v r :
  scan_elems n d acc s = SOk v r -> exists l, v = JArr l.
Proof.
  revert acc s. induction n as [|n IH]; intros acc s H; [discriminate|].
  cbn [scan_elems] in H. split_scan H.
  - injection H as <- _. eexists; reflexivity.
  - eapply IH, H.
Qed.

Lemma scan_number_not_obj s v r : scan_number s = SOk v r -> forall l, v <> JObj l.
Proof.
  unfold scan_number. intros H l. split_scan H; injection H as <- _; discriminate.
Qed.

Lemma scan_constant_not_obj s v r : scan_constant s = Some (v, r) -> forall l, v <> JObj l.
Proof.
  unfold scan_constant. intros H l. split_scan H; injection H as <- _; discriminate.
Qed.

Lemma scan_value_obj_nodup n d s l r :
  scan_value n d s = SOk (JObj l) r -> NoDup (map fst l).
Proof.
  destruct n as [|n]; [discriminate|]. destruct s as [|c s]; [discriminate|].
  cbn [scan_value]. intros H.
  destruct (c =? 34); [split_scan H|].
  destruct (c =? 123).
  { destruct d as [|d]; [discriminate|]. destruct (skip_ws s) as [|c1 r1]; [discriminate|].
    destruct (c1 =? 125).
    - injection H as <- _. constructor.
    - destruct (scan_members_nodup _ _ _ _ _ _ (NoDup_nil_2 : NoDup (map fst [])) H)
        as (l' & E & Hnd). injection E as ->. exact Hnd. }
  destruct (c =? 91).
  { destruct d as [|d]; [discriminate|]. destruct (skip_ws s) as [|c1 r1]; [discriminate|].
    destruct (c1 =? 93); [discriminate|].
    destruct (scan_elems_arr _ _ _ _ _ _ H) as [? E]. discriminate. }
  destruct (scan_constant (c :: s)) as [[v r']|] eqn:E.
  - injection H as -> _. exfalso. eapply scan_constant_not_obj; [exact E|reflexivity].
  - exfalso. eapply scan_number_not_obj; [exact H|reflexivity].
Qed.

Lemma loads_obj_nodup limit s l : loads limit s = Loaded (JObj l) -> NoDup (map fst l).
Proof.
  unfold loads. intros H. split_scan H. injection H as ->. eapply scan_value_obj_nodup; eassumption.
Qed.

Lemma dict_set_fresh k v acc :
  (forall p, In p acc -> key_eqb p.1 k = false) -> dict_set k v acc = acc ++ [(k, v)].
Proof.
  induction acc as [|[k' v'] acc IH]; intros Hf; simpl; [reflexivity|].
  rewrite (Hf (k', v') (or_introl eq_refl) : key_eqb k' k = false). rewrite IH; [reflexivity|].
  intros p Hp. apply Hf. right. exact Hp.
Qed.

Lemma import_obj_items l acc :
  NoDup (map fst l) ->
  (forall p k, In p acc -> In k (map fst l) -> key_eqb p.1 (KStr k) = false) ->
  fold_left (fun acc kv => dict_set kv.1 kv.2 acc) (obj_items l) acc = acc ++ obj_items l.
Proof.
  revert acc. induction l as [|[k v] l IH]; intros acc Hnd Hf; simpl; [rewrite app_nil_r; reflexivity|].
  inversion Hnd as [|? ? Hn Hnd']; subst.
  rewrite dict_set_fresh by (intros p Hp; apply Hf; [exact Hp|left; reflexivity]).
  rewrite IH; [rewrite <- app_assoc; reflexivity|exact Hnd'|].
  intros p k' Hp Hk. apply in_app_or in Hp as [Hp|[<-|[]]].
  - apply Hf; [exact Hp|right; exact Hk].
  - simpl. apply bool_decide_eq_false. intros ->. apply Hn, list_elem_of_In, Hk.
Qed.


Section Status.
Variable ep : string -> string.
Variable limit : nat.
Variable fb : nat.

Lemma get_status_path_some base pair coll dt w :
  get_status_path ep base pair coll (Some dt) w =
  (let p := status_base ep base pair coll in
   if bool_decide (is_Some (w_fs w !! p)) && String.eqb dt "items" then
     match w_fs w !! p with
     | Some f => (mkWorld (<[(p ++ ".items")%string := f]> (delete p (w_fs w)))
                   (w_log w ++ [(Warning, "Migrating statuses: Renaming " ++ p ++ " to " ++ p ++ ".items")%string])
                   (w_answers w) (w_trace w), inr (p ++ "." ++ dt)%string)
     | None => (w, inr (p ++ "." ++ dt)%string)
     end
   else (w, inr (p ++ "." ++ dt)%string)).
Proof.
  unfold get_status_path, os_path_isfile, os_path_exists, os_rename. munfold. simpl.
  destruct (w_fs w !! _) eqn:E; simpl.
  - destruct (String.eqb dt "items"); simpl; [|reflexivity]. rewrite E. reflexivity.
  - reflexivity.
Qed.



Lemma save_status_eq base pair dt data coll w :
  save_status ep fb base pair dt data coll w =
  match dump_to_file fb (JObj data) with
  | inl e => (w, inl e)
  | inr b =>
      (mkWorld (<[(status_base ep base pair coll ++ "." ++ dt)%string :=
                   mkFile STATUS_PERMISSIONS (Bytes b)]> (w_fs w))
               (w_log w) (w_answers w) (w_trace w), inr ())
  end.
Proof.
  unfold save_status, prepare_status_path, atomic_write, os_chmod. munfold.
  destruct (dump_to_file fb (JObj data)) as [e|b]; [reflexivity|]. cbn.
  rewrite lookup_insert_eq. cbn. rewrite insert_insert_eq. reflexivity.
Qed.

Lemma dump_to_file_ok v :
  json_wf v -> (dump_depth v <= fb)%nat -> dump_to_file fb v = inr (dump_text v).
Proof.
  intros Hwf Hd. unfold dump_to_file, dumps. rewrite dump_error_none by assumption. reflexivity.
Qed.

Lemma status_of_eq c w :
  try_except (dict_json_load limit c) is_value_error (fun _ => mret []) w = (w, status_of limit c).
Proof.
  unfold try_except, dict_json_load, dict_of, status_of. munfold.
  destruct (json_load limit c) as [e|v].
  - destruct (is_value_error e); reflexivity.
  - destruct (py_dict v) as [ce|d]; [destruct (is_value_error (exn_of_conv ce))|]; reflexivity.
Qed.

Lemma assert_permissions_noop path wanted w f :
  w_fs w !! path = Some f -> (wanted <? N.land (f_mode f) 511) = false ->
  assert_permissions path wanted w = (w, inr ()).
Proof.
  intros Hf Hlt. unfold assert_permissions, os_stat_mode. munfold. rewrite Hf. cbn.
  rewrite Hlt. reflexivity.
Qed.

Lemma assert_permissions_existing path wanted w f :
  w_fs w !! path = Some f ->
  exists w', assert_permissions path wanted w = (w', inr ()) /\
             option_map f_data (w_fs w' !! path) = Some (f_data f).
Proof.
  intros Hf. unfold assert_permissions, os_stat_mode, os_chmod. munfold. rewrite Hf. cbn.
  destruct (wanted <? N.land (f_mode f) 511).
  - cbn. rewrite Hf. eexists. split; [reflexivity|]. cbn. rewrite lookup_insert_eq. reflexivity.
  - eexists. split; [reflexivity|]. rewrite Hf. reflexivity.
Qed.

Lemma load_status_present base pair coll dt w w1 P f :
  get_status_path ep base pair coll (Some dt) w = (w1, inr P) ->
  w_fs w1 !! P = Some f ->
  exists w2, load_status ep limit base pair coll (Some dt) w =
             try_except (dict_json_load limit (f_data f)) is_value_error (fun _ => mret []) w2.
Proof.
  intros Hg Hf. destruct (assert_permissions_existing P STATUS_PERMISSIONS w1 f Hf)
    as (w2 & Ha & Hd).
  exists w2. unfold load_status, os_path_exists, open_read. munfold. rewrite Hg. cbn.
  rewrite Hf. cbn. rewrite Ha.
  destruct (w_fs w2 !! P) as [f'|]; cbn in Hd; [|discriminate]. injection Hd as Hd.
  rewrite Hd. reflexivity.
Qed.

Lemma load_status_absent base pair coll dt w w1 P :
  get_status_path ep base pair coll (Some dt) w = (w1, inr P) ->
  w_fs w1 !! P = None ->
  load_status ep limit base pair coll (Some dt) w = (w1, inr []).
Proof.
  intros Hg Hf. unfold load_status, os_path_exists. munfold. rewrite Hg. cbn.
  rewrite Hf. reflexivity.
Qed.

Lemma get_status_path_items base pair coll w w1 P :
  get_status_path ep base pair coll (Some "items") w = (w1, inr P) ->
  P = (status_base ep base pair coll ++ ".items")%string /\
  w_fs w1 !! status_base ep base pair coll = None /\
  (w_fs w !! P = None -> w_fs w1 !! P = None \/ w_fs w1 !! P = w_fs w !! status_base ep base pair coll).
Proof.
  unfold get_status_path, os_path_isfile, os_path_exists, os_rename. munfold. cbn.
  set (U := status_base ep base pair coll).
  assert (HP : (U ++ ".items")%string <> U) by (apply string_app_neq; discriminate).
  destruct (w_fs w !! U) eqn:E; cbn.
  - rewrite E. cbn. intros H. injection H as <- <-. cbn.
    rewrite lookup_insert_ne by congruence. rewrite lookup_delete, decide_True by reflexivity.
    rewrite lookup_insert_eq. auto.
  - intros H. injection H as <- <-. auto.
Qed.

Lemma manage_sync_status_store base pair coll w P mm rows :
  P = (status_base ep base pair coll ++ ".items")%string ->
  w_fs w !! status_base ep base pair coll = None ->
  w_fs w !! P = Some (mkFile mm (SqliteDb rows)) ->
  manage_sync_status ep limit base pair coll w = (w, inr P).
Proof.
  intros EP HU HP. unfold manage_sync_status, get_status_path, os_path_isfile, os_path_exists.
  munfold. cbn. rewrite HU. cbn. change ("." ++ "items")%string with ".items"%string. rewrite <- EP.
  unfold peek_legacy, try_except, open_read, prepare_status_path, sqlite_open. munfold. cbn.
  rewrite HP. cbn. rewrite HP. reflexivity.
Qed.

Lemma manage_sync_status_migrates base pair coll w w1 P m s l :
  get_status_path ep base pair coll (Some "items") w = (w1, inr P) ->
  w_fs w1 !! P = Some (mkFile m (Bytes (123 :: s))) ->
  loads_bytes limit (123 :: s) = Loaded (JObj l) ->
  let '(w2, r2) := manage_sync_status ep limit base pair coll w in
  r2 = inr P /\
  w_fs w2 = <[P := mkFile 420 (SqliteDb (obj_items l))]> (w_fs w1) /\
  w_log w2 = w_log w1 ++ [(Warning, "Migrating legacy status to sqlite")] /\
  manage_sync_status ep limit base pair coll w2 = (w2, inr P).
Proof.
  intros Hg Hf Hl.
  destruct (get_status_path_items _ _ _ _ _ _ Hg) as (EP & HU & _).
  assert (Hnd : NoDup (map fst l)).
  { unfold loads_bytes in Hl. destruct (decode_surrogatepass _ _); [|discriminate].
    eapply loads_obj_nodup; exact Hl. }
  assert (Hrun : manage_sync_status ep limit base pair coll w =
    (mkWorld (<[P := mkFile 420 (SqliteDb (obj_items l))]> (w_fs w1))
             (w_log w1 ++ [(Warning, "Migrating legacy status to sqlite")])
             (w_answers w1) (w_trace w1), inr P)).
  { unfold manage_sync_status. munfold. rewrite Hg.
    unfold peek_legacy, try_except, open_read, dict_of, json_load_binary, loaded_result. munfold.
    rewrite Hf. cbn -[loads_bytes]. rewrite Hl. cbn.
    unfold os_remove, sqlite_open, load_legacy_status. munfold. cbn.
    rewrite Hf. cbn. rewrite lookup_delete, decide_True by reflexivity. cbn.
    rewrite lookup_insert_eq. cbn.
    rewrite import_obj_items by (auto; intros ? ? []). cbn.
    rewrite insert_insert_eq, insert_delete_eq. reflexivity. }
  rewrite Hrun. split; [reflexivity|]. split; [reflexivity|]. split; [reflexivity|].
  apply (manage_sync_status_store _ _ _ _ _ 420 (obj_items l) EP).
  - cbn. rewrite lookup_insert_ne; [exact HU|].
    rewrite EP. intros Heq.
    apply (string_app_neq (status_base ep base pair coll) ".items"); [discriminate|].
    exact Heq.
  - cbn. apply lookup_insert_eq.
Qed.

Lemma manage_sync_status_no_legacy base pair coll w w1 P :
  get_status_path ep base pair coll (Some "items") w = (w1, inr P) ->
  (w_fs w1 !! P = None \/
   (exists m s, w_fs w1 !! P = Some (mkFile m (Bytes s)) /\
                (head s <> Some 123 \/ loads_bytes limit s = DecodeError)) \/
   (exists m rows, w_fs w1 !! P = Some (mkFile m (SqliteDb rows)))) ->
  manage_sync_status ep limit base pair coll w =
  (let '(w2, r) := sqlite_open P w1 in (w2, match r with inl e => inl e | inr _ => inr P end)).
Proof.
  intros Hg Hcase. unfold manage_sync_status. munfold. rewrite Hg.
  assert (Hpeek : peek_legacy limit P w1 = (w1, inr None)).
  { unfold peek_legacy, try_except, open_read, file_not_found, dict_of, json_load_binary, loaded_result.
    munfold. destruct Hcase as [HN|[(m & s & Hs & Hbad)|(m & rows & Hs)]].
    - rewrite HN. reflexivity.
    - rewrite Hs. cbn -[loads_bytes]. destruct s as [|c s]; [reflexivity|]. cbn -[loads_bytes].
      destruct (c =? 123) eqn:Ec; [|reflexivity].
      apply N.eqb_eq in Ec. subst c. destruct Hbad as [Hbad|Hbad]; [cbn in Hbad; congruence|].
      rewrite Hbad. reflexivity.
    - rewrite Hs. reflexivity. }
  cbn. rewrite Hpeek. unfold prepare_status_path. munfold. cbn.
  destruct (sqlite_open P w1) as [w2 [e|[]]]; reflexivity.
Qed.

Lemma manage_sync_status_too_deep base pair coll w w1 P m s :
  get_status_path ep base pair coll (Some "items") w = (w1, inr P) ->
  w_fs w1 !! P = Some (mkFile m (Bytes (123 :: s))) ->
  loads_bytes limit (123 :: s) = TooDeep ->
  manage_sync_status ep limit base pair coll w = (w1, inl RecursionError).
Proof.
  intros Hg Hf Hl. unfold manage_sync_status. munfold. rewrite Hg.
  unfold peek_legacy, try_except, open_read, dict_of, json_load_binary, loaded_result. munfold.
  cbn -[loads_bytes]. rewrite Hf. cbn -[loads_bytes]. rewrite Hl. reflexivity.
Qed.

Lemma assert_permissions_other path wanted w q :
  q <> path -> w_fs (assert_permissions path wanted w).1 !! q = w_fs w !! q.
Proof.
  intros Hq. unfold assert_permissions, os_stat_mode, os_chmod, file_not_found. munfold.
  destruct (w_fs w !! path) as [f|] eqn:E; cbn; [|reflexivity].
  destruct (wanted <? N.land (f_mode f) 511); cbn; [|reflexivity].
  rewrite E. cbn. apply lookup_insert_ne. congruence.
Qed.

Lemma load_status_present_eq base pair coll dt w w1 P f :
  get_status_path ep base pair coll (Some dt) w = (w1, inr P) ->
  w_fs w1 !! P = Some f ->
  load_status ep limit base pair coll (Some dt) w =
    ((assert_permissions P STATUS_PERMISSIONS w1).1, status_of limit (f_data f)).
Proof.
  intros Hg Hf. destruct (assert_permissions_existing P STATUS_PERMISSIONS w1 f Hf) as (w2 & Ha & Hd).
  unfold load_status, os_path_exists, open_read. munfold. rewrite Hg. cbn. rewrite Hf. cbn.
  rewrite Ha. cbn.
  destruct (w_fs w2 !! P) as [f'|]; cbn in Hd; [|discriminate]. injection Hd as Hd.
  rewrite Hd. apply status_of_eq.
Qed.
End Status.

(** ** Claims on status files *)

Section StatusClaims.
Variable ep : string -> string.
Variable limit : nat.
Variable fb : nat.

(** C8: [get_status_path] is idempotent.  Both calls return the unsuffixed
    path plus "." plus the data type.  The second call changes nothing.  The
    first call changes the world (the legacy rename) only when the data type
    is "items". *)
Theorem get_status_path_idempotent base pair coll dt w :
  let '(w1, r1) := get_status_path ep base pair coll (Some dt) w in
  let '(w2, r2) := get_status_path ep base pair coll (Some dt) w1 in
  r1 = inr (status_base ep base pair coll ++ "." ++ dt)%string /\ r2 = r1 /\ w2 = w1 /\
  (w1 = w \/ dt = "items").
Proof.
  pose proof (get_status_path_some ep base pair coll dt) as G.
  rewrite G. cbv zeta.
  set (p := status_base ep base pair coll).
  destruct (bool_decide (is_Some (w_fs w !! p))) eqn:Hex; cbn [andb];
    [| rewrite G; cbv zeta; fold p; rewrite Hex; cbn [andb]; auto].
  destruct (String.eqb dt "items") eqn:Hdt.
  - apply String.eqb_eq in Hdt. subst dt.
    destruct (w_fs w !! p) as [f|] eqn:E.
    + rewrite G. cbv zeta. fold p. cbn [w_fs].
      rewrite lookup_insert_ne by (apply string_app_neq; discriminate).
      rewrite lookup_delete, decide_True by reflexivity. cbn. auto.
    + rewrite G. cbv zeta. fold p. rewrite E. cbn. auto.
  - rewrite G. cbv zeta. fold p. rewrite Bool.andb_false_r. cbn. auto.
Qed.

(** C10: [save_status] writes only the suffixed path, which differs from
    the unsuffixed one.  When [json.dump] succeeds, the status file holds
    what it wrote, with mode 0600; when it raises, the error propagates and
    nothing changes.  An extensionless legacy file at the unsuffixed path is
    left in place and unread: the result does not depend on it. *)
Theorem save_status_leaves_unsuffixed base pair dt data coll w :
  let U := status_base ep base pair coll in
  let P := (U ++ "." ++ dt)%string in
  save_status ep fb base pair dt data coll w =
    match dump_to_file fb (JObj data) with
    | inl e => (w, inl e)
    | inr b => (mkWorld (<[P := mkFile STATUS_PERMISSIONS (Bytes b)]> (w_fs w))
                        (w_log w) (w_answers w) (w_trace w), inr ())
    end /\
  P <> U /\
  w_fs (save_status ep fb base pair dt data coll w).1 !! U = w_fs w !! U.
Proof.
  cbv zeta.
  assert (Hne : (status_base ep base pair coll ++ "." ++ dt)%string <> status_base ep base pair coll)
    by (apply string_app_neq; discriminate).
  split; [apply save_status_eq|]. split; [exact Hne|].
  rewrite save_status_eq. destruct (dump_to_file fb (JObj data)); [reflexivity|].
  cbn. apply lookup_insert_ne. exact Hne.
Qed.

(** X18: [assert_permissions] compares the permission bits with the
    ceiling as numbers.  When the bits exceed it, it logs a warning and sets
    the mode to exactly the ceiling; otherwise it changes nothing, whatever
    bits outside the ceiling are set.  A missing path raises
    FileNotFoundError. *)
Theorem assert_permissions_numeric_ceiling path wanted w :
  match w_fs w !! path with
  | None => exists msg, assert_permissions path wanted w = (w, inl (OSError ENOENT msg))
  | Some f =>
      ((wanted < N.land (f_mode f) 511)%N ->
       exists msg, assert_permissions path wanted w =
         (mkWorld (<[path := mkFile wanted (f_data f)]> (w_fs w)) (w_log w ++ [(Warning, msg)])
                  (w_answers w) (w_trace w), inr ())) /\
      (~ (wanted < N.land (f_mode f) 511)%N -> assert_permissions path wanted w = (w, inr ()))
  end.
Proof.
  destruct (w_fs w !! path) as [f|] eqn:E.
  - split.
    + intros Hlt. unfold assert_permissions, os_stat_mode, os_chmod. munfold.
      rewrite E. apply N.ltb_lt in Hlt. cbn. rewrite Hlt. cbn [w_fs w_log w_answers w_trace].
      rewrite E. eexists. reflexivity.
    + intros Hge. apply (assert_permissions_noop _ _ _ f E). apply N.ltb_ge. lia.
  - unfold assert_permissions, os_stat_mode, file_not_found. munfold. rewrite E.
    eexists. reflexivity.
Qed.

(** C7: saving "items" and loading them back.  Let the data be well formed
    (see [json_wf]: among others every int has at most 4300 digits), nested
    within the recursion limit of [json.load] and within the frames left to
    [json.dump].  Then the save succeeds and the status file has mode 0600.
    With no extensionless legacy file, the load returns the saved data
    unchanged and changes nothing.  With one, the load renames it over the
    saved file and returns what [load_status] makes of its contents. *)
Theorem save_load_roundtrip base pair data w :
  let U := status_base ep base pair None in
  let P := (U ++ ".items")%string in
  json_wf (JObj data) -> (json_depth (JObj data) <= limit)%nat ->
  (dump_depth (JObj data) <= fb)%nat ->
  let '(w1, r1) := save_status ep fb base pair "items" data None w in
  let '(w2, r2) := load_status ep limit base pair None (Some "items") w1 in
  r1 = inr () /\
  option_map f_mode (w_fs w1 !! P) = Some 384 /\
  (w_fs w !! U = None -> r2 = inr (obj_items data) /\ w2 = w1) /\
  (forall f, w_fs w !! U = Some f ->
     w_fs w2 !! U = None /\ option_map f_data (w_fs w2 !! P) = Some (f_data f) /\
     r2 = status_of limit (f_data f)).
Proof.
  cbv zeta. intros Hwf Hd Hfb.
  pose proof (loads_text_dumps limit _ Hwf Hd) as HD.
  rewrite save_status_eq, dump_to_file_ok by assumption.
  set (D := dump_text (JObj data)) in *. clearbody D.
  set (U := status_base ep base pair None) in *.
  change ("." ++ "items")%string with ".items"%string.
  set (P := (U ++ ".items")%string) in *.
  assert (HP : P <> U) by (apply string_app_neq; discriminate).
  set (w1 := mkWorld (<[P := mkFile STATUS_PERMISSIONS (Bytes D)]> (w_fs w))
                     (w_log w) (w_answers w) (w_trace w)).
  assert (HfP : w_fs w1 !! P = Some (mkFile STATUS_PERMISSIONS (Bytes D)))
    by apply lookup_insert_eq.
  assert (HU1 : w_fs w1 !! U = w_fs w !! U) by (apply lookup_insert_ne; congruence).
  pose proof (get_status_path_some ep base pair None "items" w1) as G. cbv zeta in G.
  fold U in G. change ("." ++ "items")%string with ".items"%string in G. fold P in G.
  rewrite HU1 in G.
  destruct (w_fs w !! U) as [f|] eqn:EU.
  - cbn -[w1 P get_status_path] in G.
    set (w1' := mkWorld (<[P := f]> (delete U (w_fs w1)))
                  (w_log w1 ++ [(Warning, "Migrating statuses: Renaming " ++ U ++ " to " ++ P)%string])
                  (w_answers w1) (w_trace w1)) in G.
    assert (Hf' : w_fs w1' !! P = Some f) by apply lookup_insert_eq.
    rewrite (load_status_present_eq _ _ _ _ _ _ _ _ _ f G Hf').
    split; [reflexivity|]. split; [rewrite HfP; reflexivity|]. split; [discriminate|].
    intros f0 E0. injection E0 as <-.
    split; [rewrite assert_permissions_other by congruence; cbn;
            rewrite lookup_insert_ne by congruence; apply lookup_delete_eq|].
    split; [|reflexivity].
    destruct (assert_permissions_existing P STATUS_PERMISSIONS w1' f Hf') as (w2 & Ha & Hd2).
    rewrite Ha. exact Hd2.
  - cbn -[w1 P get_status_path] in G.
    rewrite (load_status_present_eq _ _ _ _ _ _ _ _ _ _ G HfP).
    rewrite (assert_permissions_noop _ _ _ _ HfP) by reflexivity. cbn [fst].
    split; [reflexivity|]. split; [rewrite HfP; reflexivity|]. split; [|intros ? E0; discriminate].
    intros _. split; [|reflexivity].
    unfold status_of, json_load. cbn [STATUS_PERMISSIONS f_data]. rewrite HD. reflexivity.
Qed.

(** C6: [load_status] returns {} when the status path is missing.  It also
    returns {} when [json.load] raises a ValueError on the contents: bytes
    that are not UTF-8, text that is not JSON, an int of more than 4300
    digits, or a database file.  When nesting deeper than the recursion
    limit comes before any such error, it raises RecursionError. *)
Theorem load_status_empty base pair coll dt w w1 P :
  get_status_path ep base pair coll (Some dt) w = (w1, inr P) ->
  (w_fs w1 !! P = None -> load_status ep limit base pair coll (Some dt) w = (w1, inr [])) /\
  (forall f, w_fs w1 !! P = Some f ->
     (match f_data f with Bytes b => loads_text limit b = DecodeError | SqliteDb _ => True end) ->
     exists w2, load_status ep limit base pair coll (Some dt) w = (w2, inr [])) /\
  (forall f b, w_fs w1 !! P = Some f -> f_data f = Bytes b -> loads_text limit b = TooDeep ->
     exists w2, load_status ep limit base pair coll (Some dt) w = (w2, inl RecursionError)).
Proof.
  intros Hg. split; [apply load_status_absent, Hg|]. split.
  - intros f Hf Hbad. rewrite (load_status_present_eq _ _ _ _ _ _ _ _ _ f Hg Hf).
    eexists. f_equal. unfold status_of, json_load.
    destruct (f_data f) as [b|rows]; [rewrite Hbad|]; reflexivity.
  - intros f b Hf Hs Hdeep. rewrite (load_status_present_eq _ _ _ _ _ _ _ _ _ f Hg Hf).
    eexists. f_equal. unfold status_of, json_load. rewrite Hs, Hdeep. reflexivity.
Qed.

(** C9: when the status file holds valid JSON (it decodes without error,
    so every int has at most 4300 digits), [load_status] returns
    [dict(value)] when the conversion succeeds.  A TypeError of the
    conversion propagates; numbers, booleans and null always raise it.  A
    ValueError of the conversion gives {}. *)
Theorem load_status_parsed base pair coll dt w w1 P f b v :
  get_status_path ep base pair coll (Some dt) w = (w1, inr P) ->
  w_fs w1 !! P = Some f -> f_data f = Bytes b -> loads_text limit b = Loaded v ->
  (exists w2, load_status ep limit base pair coll (Some dt) w =
     (w2, match py_dict v with
          | inr d => inr d
          | inl (ConvTypeError m) => inl (TypeError m)
          | inl (ConvValueError _) => inr []
          end)) /\
  (match v with
   | JInt _ | JFloat _ | JBool _ | JNull => py_dict v = inl (ConvTypeError "object is not iterable")
   | _ => True
   end).
Proof.
  intros Hg Hf Hs Hv. split; [|destruct v; reflexivity].
  rewrite (load_status_present_eq _ _ _ _ _ _ _ _ _ f Hg Hf).
  eexists. f_equal. unfold status_of, json_load. rewrite Hs, Hv. cbn [loaded_result].
  destruct (py_dict v) as [[m|m]|d]; reflexivity.
Qed.

(** C4: legacy migration in [manage_sync_status].  Suppose the ".items" path
    holds bytes starting with '{' that [json.load] in binary mode (encoding
    from [detect_encoding]) decodes to an object.  Then the file is replaced
    by an incremental store holding every legacy pair unchanged, and one
    warning is logged.  A second run leaves the world unchanged, so the
    migration happens at most once.  A missing file, a first byte other
    than '{', a ValueError of the decoding or an existing store all count as
    no legacy data: the store is opened (or created).  Nesting deeper than
    the recursion limit, met before any ValueError, raises RecursionError. *)
Theorem manage_sync_status_legacy base pair coll w w1 P :
  get_status_path ep base pair coll (Some "items") w = (w1, inr P) ->
  (forall m s l,
     w_fs w1 !! P = Some (mkFile m (Bytes (123 :: s))) ->
     loads_bytes limit (123 :: s) = Loaded (JObj l) ->
     let '(w2, r2) := manage_sync_status ep limit base pair coll w in
     r2 = inr P /\
     w_fs w2 = <[P := mkFile 420 (SqliteDb (obj_items l))]> (w_fs w1) /\
     w_log w2 = w_log w1 ++ [(Warning, "Migrating legacy status to sqlite")] /\
     manage_sync_status ep limit base pair coll w2 = (w2, inr P)) /\
  ((w_fs w1 !! P = None \/
    (exists m s, w_fs w1 !! P = Some (mkFile m (Bytes s)) /\
                 (head s <> Some 123 \/ loads_bytes limit s = DecodeError)) \/
    (exists m rows, w_fs w1 !! P = Some (mkFile m (SqliteDb rows)))) ->
   manage_sync_status ep limit base pair coll w =
   (let '(w2, r) := sqlite_open P w1 in (w2, match r with inl e => inl e | inr _ => inr P end))) /\
  (forall m s,
     w_fs w1 !! P = Some (mkFile m (Bytes (123 :: s))) ->
     loads_bytes limit (123 :: s) = TooDeep ->
     manage_sync_status ep limit base pair coll w = (w1, inl RecursionError)).
Proof.
  intros Hg. split; [|split].
  - intros m s l. apply manage_sync_status_migrates, Hg.
  - apply manage_sync_status_no_legacy, Hg.
  - intros m s. apply manage_sync_status_too_deep, Hg.
Qed.
End StatusClaims.

(** ** Storage construction *)

Section Storage.
Variable sco : string -> storage_class.

Lemma storage_class_from_config_pure cfg w :
  exists r, storage_class_from_config sco cfg w = (w, r).
Proof.
  unfold storage_class_from_config, try_except, storage_names_get. munfold.
  destruct (cfg !! "type") as [sname|]; [|eexists; reflexivity].
  destruct sname as [n| | |]; cbn; try (eexists; reflexivity).
  destruct (bool_decide (n ∈ storage_index)); cbn; [|eexists; reflexivity].
  destruct (String.eqb _ _); eexists; reflexivity.
Qed.

Lemma handle_storage_init_error_raises cls cfg e w :
  exists e', handle_storage_init_error cls cfg e w = (w, inl e').
Proof.
  unfold handle_storage_init_error. munfold.
  destruct e; try (eexists; reflexivity).
  destruct (contains _ _); [|eexists; reflexivity].
  destruct (init_problems cls cfg); [eexists; reflexivity|].
  destruct (cfg !! "instance_name"); eexists; reflexivity.
Qed.


Lemma try_create_collection_trace cfg c w :
  trace_ext w (try_create_collection sco cfg c w).1
    (fun new => length (List.filter is_confirm new) = 0%nat /\ length (List.filter is_construct new) = 0%nat).
Proof.
  unfold try_create_collection, try_except. munfold.
  destruct (cfg !! "type") as [st|]; cbn; [|exists []; rewrite app_nil_r; auto].
  destruct (storage_class_from_config_pure cfg w) as [r Hr]. rewrite Hr.
  destruct r as [e|[cls cfg']]; cbn; [exists []; rewrite app_nil_r; auto|].
  destruct (sc_create_collection cls _) as [err|args]; cbn;
    [destruct (is_not_implemented err); cbn|];
    eexists; (split; [reflexivity|]); cbn; auto.
Qed.

Lemma handle_collection_not_found_trace cfg c m w :
  trace_ext w (handle_collection_not_found sco cfg c m w).1
    (fun new => length (List.filter is_confirm new) = 1%nat /\ length (List.filter is_construct new) = 0%nat).
Proof.
  unfold handle_collection_not_found, click_confirm, read_answer. munfold. cbn.
  destruct (w_answers w) as [|[| |] rest]; cbn.
  - eexists; split; [reflexivity|]; auto.
  - match goal with
    | |- context [try_create_collection sco cfg c ?w0] =>
        destruct (try_create_collection_trace cfg c w0) as (new & Hn & H0 & H1);
        destruct (try_create_collection sco cfg c w0) as [w1 [e|[args|]]]
    end; cbn in *.
    all: unfold trace_ext; rewrite Hn, <- app_assoc; eexists; (split; [reflexivity|]); cbn.
    all: lia.
  - eexists; split; [reflexivity|]; auto.
  - eexists; split; [reflexivity|]; auto.
Qed.

Lemma handle_collection_not_found_declined cfg c m w rest :
  w_answers w = ANo :: rest ->
  (handle_collection_not_found sco cfg c m w).2 =
  inl (UserError ("Unable to find or create collection " ++ qt ++ cval_str c ++ qt
                  ++ " for storage " ++ qt ++ cval_str (default VNone (cfg !! "instance_name"))
                  ++ qt ++ ". Please create the collection yourself.") []).
Proof.
  intros Ha. unfold handle_collection_not_found, click_confirm, read_answer. munfold. cbn.
  rewrite Ha. reflexivity.
Qed.

Lemma aux_S fuel cfg create conn :
  storage_instance_from_config_aux sco (S fuel) cfg create conn =
  ('(cls, new_config) ← storage_class_from_config sco cfg;
   new_config ←
     (if sc_network cls then
        if conn then mret (<["connector" := VConnector]> new_config)
        else raise AssertionError
      else mret new_config);
   record (CConstruct (storage_name cls)) ;;
   match sc_init cls new_config with
   | inr _ => mret (mkStorage (storage_name cls) new_config)
   | inl (CollectionNotFound m) =>
       if create then
         cfg' ← handle_collection_not_found sco cfg (default VNone (cfg !! "collection")) m;
         storage_instance_from_config_aux sco fuel cfg' false conn
       else raise (CollectionNotFound m)
   | inl e =>
       if is_exception e then handle_storage_init_error cls new_config e
       else raise e
   end).
Proof. reflexivity. Qed.

Lemma retry_trace cfg conn w :
  trace_ext w (storage_instance_from_config_aux sco 1 cfg false conn w).1
    (fun new => length (List.filter is_confirm new) = 0%nat /\
                (length (List.filter is_construct new) <= 1)%nat).
Proof.
  rewrite aux_S. munfold. cbn.
  destruct (storage_class_from_config_pure cfg w) as [r Hr]. rewrite Hr.
  destruct r as [e|[cls cfg0]]; cbn; [exists []; rewrite app_nil_r; auto|].
  destruct (sc_network cls); [destruct conn|]; cbn; try (exists []; rewrite app_nil_r; auto; fail).
  all: destruct (sc_init cls _) as [e|]; cbn; try (eexists; split; [reflexivity|]; cbn; auto; fail).
  all: destruct e; cbn; try (eexists; split; [reflexivity|]; cbn; auto; fail).
  all: destruct (contains _ _); [destruct (init_problems _ _) as [|? ?];
         [|destruct (_ !! "instance_name")]|]; unfold raise; cbn.
  all: eexists; split; [reflexivity|]; cbn; auto.
Qed.

Lemma first_attempt_cnf fuel cfg create conn cls cfg0 m w :
  storage_class_from_config sco cfg w = (w, inr (cls, cfg0)) ->
  (sc_network cls = true -> conn = true) ->
  sc_init cls (if sc_network cls then <["connector" := VConnector]> cfg0 else cfg0) =
    inl (CollectionNotFound m) ->
  storage_instance_from_config_aux sco (S fuel) cfg create conn w =
  (let w0 := mkWorld (w_fs w) (w_log w) (w_answers w) (w_trace w ++ [CConstruct (storage_name cls)]) in
   if create then
     let '(w1, r1) := handle_collection_not_found sco cfg (default VNone (cfg !! "collection")) m w0 in
     match r1 with
     | inl e => (w1, inl e)
     | inr cfg' => storage_instance_from_config_aux sco fuel cfg' false conn w1
     end
   else (w0, inl (CollectionNotFound m))).
Proof.
  intros Hc Hnet Hinit. rewrite aux_S. munfold. rewrite Hc.
  destruct (sc_network cls) eqn:Hn; [rewrite (Hnet eq_refl)|]; cbn -[handle_collection_not_found storage_instance_from_config_aux];
    rewrite Hinit; destruct create; reflexivity.
Qed.
End Storage.

Section StorageClaims.
Variable sco : string -> storage_class.

(** C5: when the first construction fails with collection-not-found and
    [create] is true, the recovery flow ([handle_collection_not_found]) runs
    once.  The trace then holds exactly one confirmation prompt and at most
    two constructions, so at most one retry.  The retry has [create = false],
    so a second collection-not-found propagates.  If the user declines, the
    call fails with a UserError naming the collection and the instance. *)
Theorem storage_instance_collection_recovery cfg conn cls cfg0 m w :
  storage_class_from_config sco cfg w = (w, inr (cls, cfg0)) ->
  (sc_network cls = true -> conn = true) ->
  sc_init cls (if sc_network cls then <["connector" := VConnector]> cfg0 else cfg0) =
    inl (CollectionNotFound m) ->
  let coll := default VNone (cfg !! "collection") in
  let inst := default VNone (cfg !! "instance_name") in
  let w0 := mkWorld (w_fs w) (w_log w) (w_answers w) (w_trace w ++ [CConstruct (storage_name cls)]) in
  storage_instance_from_config sco cfg true conn w =
    (let '(w1, r1) := handle_collection_not_found sco cfg coll m w0 in
     match r1 with
     | inl e => (w1, inl e)
     | inr cfg' => storage_instance_from_config_aux sco 1 cfg' false conn w1
     end) /\
  trace_ext w (storage_instance_from_config sco cfg true conn w).1
    (fun new => length (List.filter is_confirm new) = 1%nat /\
                (length (List.filter is_construct new) <= 2)%nat) /\
  storage_instance_from_config_aux sco 1 cfg false conn w = (w0, inl (CollectionNotFound m)) /\
  (forall rest, w_answers w = ANo :: rest ->
     (storage_instance_from_config sco cfg true conn w).2 =
     inl (UserError ("Unable to find or create collection " ++ qt ++ cval_str coll ++ qt
                     ++ " for storage " ++ qt ++ cval_str inst ++ qt
                     ++ ". Please create the collection yourself.") [])).
Proof.
  intros Hc Hnet Hinit. cbv zeta.
  assert (E : storage_instance_from_config sco cfg true conn w =
    (let '(w1, r1) := handle_collection_not_found sco cfg (default VNone (cfg !! "collection")) m
                        (mkWorld (w_fs w) (w_log w) (w_answers w)
                                 (w_trace w ++ [CConstruct (storage_name cls)])) in
     match r1 with
     | inl e => (w1, inl e)
     | inr cfg' => storage_instance_from_config_aux sco 1 cfg' false conn w1
     end)).
  { unfold storage_instance_from_config.
    rewrite (first_attempt_cnf sco 1 cfg true conn cls cfg0 m w Hc Hnet Hinit). reflexivity. }
  split; [exact E|]. split; [|split; [rewrite (first_attempt_cnf sco 0 cfg false conn cls cfg0 m w Hc Hnet Hinit); reflexivity|]].
  - rewrite E.
    set (w0 := mkWorld (w_fs w) (w_log w) (w_answers w) (w_trace w ++ [CConstruct (storage_name cls)])).
    destruct (handle_collection_not_found_trace sco cfg (default VNone (cfg !! "collection")) m w0)
      as (new1 & Hn1 & Hc1 & Hk1).
    unfold trace_ext.
    destruct (handle_collection_not_found sco cfg _ m w0) as [w1 [e|cfg']];
      cbn -[storage_instance_from_config_aux] in Hn1 |- *.
    + exists ([CConstruct (storage_name cls)] ++ new1). rewrite Hn1. cbn.
      rewrite <- app_assoc. split; [reflexivity|]. cbn. lia.
    + destruct (retry_trace sco cfg' conn w1) as (new2 & Hn2 & Hc2 & Hk2).
      destruct (storage_instance_from_config_aux sco 1 cfg' false conn w1) as [w2 r2].
      cbn in Hn2 |- *.
      exists ([CConstruct (storage_name cls)] ++ new1 ++ new2). rewrite Hn2, Hn1. cbn.
      rewrite <- !app_assoc. split; [reflexivity|].
      rewrite !List.filter_app, !length_app. cbn. lia.
  - intros rest Ha. rewrite E.
    pose proof (handle_collection_not_found_declined sco cfg (default VNone (cfg !! "collection")) m
      (mkWorld (w_fs w) (w_log w) (w_answers w) (w_trace w ++ [CConstruct (storage_name cls)]))
      rest Ha) as D.
    destruct (handle_collection_not_found sco cfg _ m _) as [w1 r1]. cbn in D. subst r1. reflexivity.
Qed.

(** C1: a construction error other than collection-not-found is not always
    classified.  It is re-raised unchanged, except a TypeError mentioning
    [__init__] when the parameters have problems: that becomes
    UserError "Failed to initialize <instance>" (KeyError if the config has
    no instance_name). *)
Theorem storage_instance_init_failure cfg create conn cls cfg0 e w :
  storage_class_from_config sco cfg w = (w, inr (cls, cfg0)) ->
  (sc_network cls = true -> conn = true) ->
  let cfg1 := if sc_network cls then <["connector" := VConnector]> cfg0 else cfg0 in
  sc_init cls cfg1 = inl e ->
  (forall m, e <> CollectionNotFound m) ->
  storage_instance_from_config sco cfg create conn w =
    (mkWorld (w_fs w) (w_log w) (w_answers w) (w_trace w ++ [CConstruct (storage_name cls)]),
     inl (if is_init_type_error e then
            match init_problems cls cfg1 with
            | [] => e
            | ps =>
                match cfg1 !! "instance_name" with
                | Some v => UserError ("Failed to initialize " ++ cval_str v) ps
                | None => KeyError "instance_name"
                end
            end
          else e)).
Proof.
  intros Hc Hnet cfg1 Hinit Hcnf. unfold storage_instance_from_config. rewrite aux_S. munfold.
  rewrite Hc. unfold cfg1 in *.
  destruct (sc_network cls) eqn:Hn; [rewrite (Hnet eq_refl)|]; cbn -[handle_storage_init_error];
    rewrite Hinit; unfold handle_storage_init_error, is_init_type_error;
    destruct e; try (exfalso; eapply Hcnf; reflexivity); cbn; try reflexivity.
  all: destruct (contains _ _); [|reflexivity].
  all: destruct (init_problems _ _); [reflexivity|]; destruct (_ !! "instance_name"); reflexivity.
Qed.
End StorageClaims.

(** ** Error reporting *)

(** X17: [handle_cli_error] handles every [Exception] and every abort
    without raising.  Aborts (click.Abort, KeyboardInterrupt, JobFailed) log
    nothing.  Every other kind logs exactly one non-debug message.  An
    unclassified exception also logs a debug record with the traceback.  A
    [BaseException] that is neither an [Exception] nor an abort (SystemExit,
    GeneratorExit) is re-raised. *)
Theorem handle_cli_error_reports sn e cur w :
  let err := resolve_error e cur in
  if is_exception err || is_abort err then
    exists new,
      handle_cli_error sn e cur w =
        (mkWorld (w_fs w) (w_log w ++ new) (w_answers w) (w_trace w), inr ()) /\
      length (List.filter (fun r => negb (is_debug r.1)) new) = (if is_abort err then 0 else 1)%nat /\
      length (List.filter (fun r => is_debug r.1) new)
        = (if is_abort err || is_classified err then 0 else 1)%nat
  else handle_cli_error sn e cur w = (w, inl err).
Proof.
  cbv zeta. unfold handle_cli_error. munfold.
  destruct (resolve_error e cur); cbn -[List.filter];
    first [ eexists; split; [ reflexivity | split; reflexivity ]
          | eexists; split; [ rewrite <- app_assoc; reflexivity | split; reflexivity ]
          | exists []; rewrite app_nil_r; destruct w; split; [|split]; reflexivity
          | reflexivity ].
Qed.

(** C2: [handle_cli_error] does raise: given a [SystemExit], which is
    neither an [Exception] nor an abort, no clause handles it and the final
    [raise] re-raises it, in every world and with nothing logged. *)
Theorem handle_cli_error_systemexit sn cur w :
  handle_cli_error sn (Some (OtherBaseException "SystemExit")) cur w =
    (w, inl (OtherBaseException "SystemExit")).
Proof. reflexivity. Qed.

(* ------------------------------------------------------------------ *)
(** ** Further properties of the status files *)

Lemma assert_permissions_effect path wanted w f :
  w_fs w !! path = Some f ->
  let '(w1, r) := assert_permissions path wanted w in
  r = inr () /\
  (exists f1, w_fs w1 = <[path := f1]> (w_fs w) /\ f_data f1 = f_data f /\
              N.land (f_mode f1) 511 <= wanted /\
              (f_mode f1 = f_mode f \/ f_mode f1 = wanted)) /\
  (exists new, w_log w1 = w_log w ++ new /\ (length new <= 1)%nat) /\
  w_answers w1 = w_answers w /\ w_trace w1 = w_trace w /\
  assert_permissions path wanted w1 = (w1, inr ()).
Proof.
  intros Hf. unfold assert_permissions, os_stat_mode, os_chmod. munfold. rewrite Hf. cbn.
  destruct (wanted <? N.land (f_mode f) 511) eqn:Hlt; cbn.
  - rewrite Hf. cbn. split; [reflexivity|].
    split; [eexists; split; [reflexivity|]; cbn; split; [reflexivity|];
            split; [apply N.land_le_l|right; reflexivity]|].
    split; [eexists; split; [reflexivity|]; cbn; lia|].
    split; [reflexivity|]. split; [reflexivity|].
    rewrite lookup_insert_eq. cbn.
    assert (E : (wanted <? N.land wanted 511) = false)
      by (apply N.ltb_ge, N.land_le_l).
    rewrite E. reflexivity.
  - split; [reflexivity|].
    split; [exists f; rewrite insert_id by exact Hf; split; [reflexivity|];
            split; [reflexivity|]; split; [apply N.ltb_ge, Hlt|left; reflexivity]|].
    split; [exists []; rewrite app_nil_r; split; [reflexivity|]; cbn; lia|].
    split; [reflexivity|]. split; [reflexivity|].
    rewrite Hf. cbn. rewrite Hlt. reflexivity.
Qed.

(** X3: on an existing file, [assert_permissions] succeeds and only
    rewrites the mode: afterwards [mode & 0o777] is at most the ceiling, the
    contents are unchanged, the mode is either unchanged or exactly the
    ceiling, at most one warning is logged, and a second call does nothing. *)
Theorem assert_permissions_tightens path wanted w f :
  w_fs w !! path = Some f ->
  let '(w1, r) := assert_permissions path wanted w in
  r = inr () /\
  (exists f1, w_fs w1 = <[path := f1]> (w_fs w) /\ f_data f1 = f_data f /\
              N.land (f_mode f1) 511 <= wanted /\
              (f_mode f1 = f_mode f \/ f_mode f1 = wanted)) /\
  (exists new, w_log w1 = w_log w ++ new /\ (length new <= 1)%nat) /\
  w_answers w1 = w_answers w /\ w_trace w1 = w_trace w /\
  assert_permissions path wanted w1 = (w1, inr ()).
Proof.
  intros Hf. exact (assert_permissions_effect path wanted w f Hf).
Qed.

Section StatusExtra.
Variable ep : string -> string.
Variable limit : nat.
Variable fb : nat.

(** X1: the status name of pair ["p/c"] without a collection is that of
    pair ["p"] with collection ["c"]: both pairs read, write and migrate the
    same files. *)
Theorem status_name_alias base p c dt data w :
  get_status_path ep base (p ++ "/" ++ c)%string None (Some dt) w =
    get_status_path ep base p (Some c) (Some dt) w /\
  load_status ep limit base (p ++ "/" ++ c)%string None (Some dt) w =
    load_status ep limit base p (Some c) (Some dt) w /\
  save_status ep fb base (p ++ "/" ++ c)%string dt data None w =
    save_status ep fb base p dt data (Some c) w /\
  manage_sync_status ep limit base (p ++ "/" ++ c)%string None w =
    manage_sync_status ep limit base p (Some c) w.
Proof. repeat split; reflexivity. Qed.

(** X2: when the extensionless legacy file exists, [get_status_path] for
    "items" moves it to the ".items" path, replacing whatever was there,
    logs one warning and touches no other file. *)
Theorem get_status_path_rename_overwrites base pair coll w f :
  let U := status_base ep base pair coll in
  w_fs w !! U = Some f ->
  let '(w1, r) := get_status_path ep base pair coll (Some "items") w in
  r = inr (U ++ ".items")%string /\
  w_fs w1 !! (U ++ ".items")%string = Some f /\
  w_fs w1 !! U = None /\
  (forall q, q <> U -> q <> (U ++ ".items")%string -> w_fs w1 !! q = w_fs w !! q) /\
  w_log w1 = w_log w ++ [(Warning, "Migrating statuses: Renaming " ++ U ++ " to " ++ U ++ ".items")%string].
Proof.
  cbv zeta. intros Hf. rewrite get_status_path_some. cbv zeta.
  set (U := status_base ep base pair coll) in *. clearbody U.
  assert (HP : (U ++ ".items")%string <> U) by (apply string_app_neq; discriminate).
  rewrite Hf. cbn.
  split; [reflexivity|]. split; [apply lookup_insert_eq|].
  split; [rewrite lookup_insert_ne by congruence; apply lookup_delete_eq|].
  split; [|reflexivity].
  intros q H1 H2. rewrite lookup_insert_ne by congruence. apply lookup_delete_ne. congruence.
Qed.

Lemma dict_json_load_pure c w :
  exists r, try_except (dict_json_load limit c) is_value_error (fun _ => mret []) w = (w, r).
Proof. eexists. apply status_of_eq. Qed.

Lemma load_status_existing base pair coll dt w w1 P f :
  get_status_path ep base pair coll (Some dt) w = (w1, inr P) ->
  w_fs w1 !! P = Some f ->
  exists r, load_status ep limit base pair coll (Some dt) w =
            ((assert_permissions P STATUS_PERMISSIONS w1).1, r).
Proof.
  intros Hg Hf. pose proof (assert_permissions_effect P STATUS_PERMISSIONS w1 f Hf) as He.
  unfold load_status, os_path_exists, open_read. munfold. rewrite Hg. cbn. rewrite Hf. cbn.
  destruct (assert_permissions P STATUS_PERMISSIONS w1) as [w2 r2].
  destruct He as (-> & (f1 & Hfs & Hd & _) & _). rewrite Hfs, lookup_insert_eq. cbn.
  exact (dict_json_load_pure (f_data f1) w2).
Qed.

(** X4: [load_status] touches only the unsuffixed path and the status
    path: the first can only disappear (by the "items" rename), the second
    keeps its old content or receives the legacy content, and a status file
    left behind has permission bits at most 0o600. *)
Theorem load_status_frame base pair coll dt w :
  let U := status_base ep base pair coll in
  let P := (U ++ "." ++ dt)%string in
  let '(w', r) := load_status ep limit base pair coll (Some dt) w in
  (forall q, q <> U -> q <> P -> w_fs w' !! q = w_fs w !! q) /\
  (w_fs w' !! U = w_fs w !! U \/ (dt = "items" /\ w_fs w' !! U = None)) /\
  (option_map f_data (w_fs w' !! P) = option_map f_data (w_fs w !! P) \/
   option_map f_data (w_fs w' !! P) = option_map f_data (w_fs w !! U)) /\
  (forall f, w_fs w' !! P = Some f -> N.land (f_mode f) 511 <= STATUS_PERMISSIONS) /\
  w_answers w' = w_answers w /\ w_trace w' = w_trace w.
Proof.
  cbv zeta.
  pose proof (get_status_path_some ep base pair coll dt w) as G. cbv zeta in G.
  set (U := status_base ep base pair coll) in *. clearbody U.
  set (P := (U ++ "." ++ dt)%string).
  assert (HPU : P <> U) by (apply string_app_neq; discriminate).
  (* the world after the path computation *)
  assert (Hw1 : exists w1, get_status_path ep base pair coll (Some dt) w = (w1, inr P) /\
    (forall q, q <> U -> q <> P -> w_fs w1 !! q = w_fs w !! q) /\
    (w_fs w1 !! U = w_fs w !! U \/ (dt = "items" /\ w_fs w1 !! U = None)) /\
    (w_fs w1 !! P = w_fs w !! P \/ w_fs w1 !! P = w_fs w !! U) /\
    w_answers w1 = w_answers w /\ w_trace w1 = w_trace w).
  { rewrite G.
    destruct (bool_decide (is_Some (w_fs w !! U)) && String.eqb dt "items") eqn:Hc;
      [|exists w; auto 10].
    apply andb_prop in Hc as [_ Hdt]. apply String.eqb_eq in Hdt. subst dt.
    destruct (w_fs w !! U) as [fU|] eqn:EU; [|exists w; auto 10].
    eexists. split; [reflexivity|]. cbn. unfold P in *.
    change ("." ++ "items")%string with ".items"%string in *.
    split; [intros q H1 H2; rewrite lookup_insert_ne by congruence; apply lookup_delete_ne; congruence|].
    split; [right; split; [reflexivity|]; rewrite lookup_insert_ne by congruence; apply lookup_delete_eq|].
    split; [right; rewrite lookup_insert_eq; reflexivity|]. auto. }
  destruct Hw1 as (w1 & Hg & Hq & HU & HP & Ha & Ht).
  destruct (w_fs w1 !! P) as [f|] eqn:Ef.
  - destruct (load_status_existing base pair coll dt w w1 P f Hg Ef) as [r ->].
    pose proof (assert_permissions_effect P STATUS_PERMISSIONS w1 f Ef) as He.
    destruct (assert_permissions P STATUS_PERMISSIONS w1) as [w2 r2].
    destruct He as (_ & (f1 & Hfs & Hd & Hm & _) & _ & Ha2 & Ht2 & _).
    cbn [fst]. rewrite Hfs.
    split; [intros q H1 H2; rewrite lookup_insert_ne by congruence; auto|].
    split; [rewrite lookup_insert_ne by congruence; exact HU|].
    split; [rewrite lookup_insert_eq; cbn; rewrite Hd;
            destruct HP as [HP|HP]; [left|right]; rewrite <- HP; reflexivity|].
    split; [intros f' Hf'; rewrite lookup_insert_eq in Hf'; injection Hf' as <-; exact Hm|].
    split; congruence.
  - rewrite (load_status_absent ep limit base pair coll dt w w1 P Hg Ef).
    split; [exact Hq|]. split; [exact HU|].
    split; [rewrite Ef; destruct HP as [HP|HP]; [left|right]; rewrite <- HP; reflexivity|].
    split; [intros f' Hf'; congruence|]. auto.
Qed.

(** X5: saving then loading round-trips for every data type and collection,
    provided the data type is not "items" or no extensionless legacy file
    exists, the data are well formed and nested within the recursion limit
    of [json.load] and the frames left to [json.dump]: the save succeeds,
    and the load returns the data and changes nothing. *)
Theorem save_load_roundtrip_general base pair dt data coll w :
  (dt <> "items" \/ w_fs w !! status_base ep base pair coll = None) ->
  json_wf (JObj data) -> (json_depth (JObj data) <= limit)%nat ->
  (dump_depth (JObj data) <= fb)%nat ->
  let '(w1, r1) := save_status ep fb base pair dt data coll w in
  r1 = inr () /\ load_status ep limit base pair coll (Some dt) w1 = (w1, inr (obj_items data)).
Proof.
  intros Hc Hwf Hd Hfb. rewrite save_status_eq, dump_to_file_ok by assumption.
  pose proof (loads_text_dumps limit _ Hwf Hd) as HD.
  set (D := dump_text (JObj data)) in *. clearbody D.
  set (U := status_base ep base pair coll) in *.
  set (P := (U ++ "." ++ dt)%string).
  assert (HPU : P <> U) by (apply string_app_neq; discriminate).
  set (w1 := mkWorld (<[P := mkFile STATUS_PERMISSIONS (Bytes D)]> (w_fs w))
                     (w_log w) (w_answers w) (w_trace w)).
  assert (Hg : get_status_path ep base pair coll (Some dt) w1 = (w1, inr P)).
  { rewrite get_status_path_some. cbv zeta. fold U.
    replace (bool_decide (is_Some (w_fs w1 !! U)) && String.eqb dt "items") with false;
      [reflexivity|].
    destruct Hc as [Hc|Hc].
    - apply String.eqb_neq in Hc. rewrite Hc. symmetry. apply andb_false_r.
    - cbn. rewrite lookup_insert_ne by congruence. rewrite Hc. reflexivity. }
  assert (HfP : w_fs w1 !! P = Some (mkFile STATUS_PERMISSIONS (Bytes D)))
    by apply lookup_insert_eq.
  split; [reflexivity|].
  rewrite (load_status_present_eq _ _ _ _ _ _ _ _ _ _ Hg HfP).
  rewrite (assert_permissions_noop _ _ _ _ HfP) by reflexivity. cbn [fst]. f_equal.
  unfold status_of, json_load. cbn [f_data]. rewrite HD. reflexivity.
Qed.

(** X6: an extensionless legacy JSON status is first renamed to the ".items"
    path and then imported into a new store there: the legacy file is gone,
    the store holds the legacy pairs, and two warnings are logged. *)
Theorem manage_sync_status_extensionless base pair coll w m s l :
  let U := status_base ep base pair coll in
  w_fs w !! U = Some (mkFile m (Bytes (123 :: s))) ->
  loads_bytes limit (123 :: s) = Loaded (JObj l) ->
  let '(w2, r) := manage_sync_status ep limit base pair coll w in
  r = inr (U ++ ".items")%string /\
  w_fs w2 = <[(U ++ ".items")%string := mkFile 420 (SqliteDb (obj_items l))]> (delete U (w_fs w)) /\
  w_log w2 = w_log w ++ [(Warning, "Migrating statuses: Renaming " ++ U ++ " to " ++ U ++ ".items")%string;
                        (Warning, "Migrating legacy status to sqlite")].
Proof.
  cbv zeta. intros Hf Hl.
  set (U := status_base ep base pair coll) in *.
  set (w1 := mkWorld (<[(U ++ ".items")%string := mkFile m (Bytes (123 :: s))]> (delete U (w_fs w)))
    (w_log w ++ [(Warning, "Migrating statuses: Renaming " ++ U ++ " to " ++ U ++ ".items")%string])
    (w_answers w) (w_trace w)).
  assert (Hg : get_status_path ep base pair coll (Some "items") w = (w1, inr (U ++ ".items")%string)).
  { rewrite get_status_path_some. cbv zeta. fold U. rewrite Hf. reflexivity. }
  pose proof (manage_sync_status_migrates ep limit base pair coll w w1 _ m s l Hg
    (lookup_insert_eq _ _ _) Hl) as H.
  destruct (manage_sync_status ep limit base pair coll w) as [w2 r2].
  destruct H as (H1 & H2 & H3 & _). split; [exact H1|]. split.
  - rewrite H2. cbn. apply insert_insert_eq.
  - rewrite H3. cbn. rewrite <- app_assoc. reflexivity.
Qed.
End StatusExtra.

(* ------------------------------------------------------------------ *)
(** ** Further properties of storage construction *)

Section StorageExtra.
Variable sco : string -> storage_class.

Lemma storage_class_from_config_eq cfg w :
  storage_class_from_config sco cfg w =
  (w, match cfg !! "type" with
      | None => inl (KeyError "type")
      | Some (VStr n) =>
          if bool_decide (n ∈ storage_index) then
            if String.eqb (storage_name (sco n)) n then inr (sco n, delete "type" cfg)
            else inl AssertionError
          else inl (UserError ("Unknown storage type: " ++ n) [])
      | Some v => inl (UserError ("Unknown storage type: " ++ cval_str v) [])
      end).
Proof.
  unfold storage_class_from_config, try_except, storage_names_get. munfold.
  destruct (cfg !! "type") as [sname|]; [|reflexivity].
  destruct sname as [n| | |]; cbn; try reflexivity.
  destruct (bool_decide (n ∈ storage_index)); cbn; [|reflexivity].
  destruct (String.eqb _ _); reflexivity.
Qed.

Lemma storage_class_from_config_known cfg n w :
  cfg !! "type" = Some (VStr n) -> n ∈ storage_index -> storage_name (sco n) = n ->
  storage_class_from_config sco cfg w = (w, inr (sco n, delete "type" cfg)).
Proof.
  intros Hv Hi Hn. rewrite storage_class_from_config_eq, Hv, bool_decide_true by exact Hi.
  rewrite Hn, String.eqb_refl. reflexivity.
Qed.


(** X8: for a registered, correctly named storage type, a network storage
    without a connector fails with AssertionError before any construction;
    otherwise, when the constructor accepts the config, the result is the
    storage with the config minus "type" (plus the connector for a network
    storage), after exactly one construction. *)
Theorem storage_instance_from_config_constructs cfg create conn n w :
  cfg !! "type" = Some (VStr n) -> n ∈ storage_index -> storage_name (sco n) = n ->
  let cls := sco n in
  let cfg1 := if sc_network cls then <["connector" := VConnector]> (delete "type" cfg)
              else delete "type" cfg in
  (sc_network cls = true -> conn = false ->
     storage_instance_from_config sco cfg create conn w = (w, inl AssertionError)) /\
  ((sc_network cls = true -> conn = true) -> sc_init cls cfg1 = inr tt ->
     storage_instance_from_config sco cfg create conn w =
       (mkWorld (w_fs w) (w_log w) (w_answers w) (w_trace w ++ [CConstruct n]),
        inr (mkStorage n cfg1))).
Proof.
  intros Hv Hi Hn. cbv zeta.
  pose proof (storage_class_from_config_known cfg n w Hv Hi Hn) as Hc.
  unfold storage_instance_from_config. rewrite aux_S. munfold. rewrite Hc.
  split.
  - intros Hnet Hconn. rewrite Hnet, Hconn. reflexivity.
  - intros Hnet Hinit. destruct (sc_network (sco n)) eqn:Hnw;
      [rewrite (Hnet eq_refl)|]; cbn -[handle_collection_not_found storage_instance_from_config_aux];
      rewrite Hinit, Hn; reflexivity.
Qed.

(** X9: the successful recovery from a missing collection.  If the first
    construction reports the collection missing, the user answers yes,
    [create_collection] returns [args] and the retry succeeds, the result
    is the storage built from [args] minus "type"; one warning is logged,
    one answer consumed, and the calls are construct, confirm, create,
    construct. *)
Theorem storage_instance_recovers cfg conn n m args rest w :
  cfg !! "type" = Some (VStr n) -> n ∈ storage_index -> storage_name (sco n) = n ->
  (sc_network (sco n) = true -> conn = true) ->
  let net c := if sc_network (sco n) then <["connector" := VConnector]> c else c in
  let coll := default VNone (cfg !! "collection") in
  sc_init (sco n) (net (delete "type" cfg)) = inl (CollectionNotFound m) ->
  w_answers w = AYes :: rest ->
  sc_create_collection (sco n) (<["collection" := coll]> (delete "type" cfg)) = inr args ->
  sc_init (sco n) (net (delete "type" args)) = inr tt ->
  storage_instance_from_config sco cfg true conn w =
    (mkWorld (w_fs w)
       (w_log w ++ [(Warning, (if String.eqb m EmptyString then EmptyString else m ++ nl)
          ++ "No collection " ++ cval_json coll ++ " found for storage "
          ++ cval_str (default VNone (cfg !! "instance_name")) ++ ".")%string])
       rest
       (w_trace w ++ [CConstruct n; CConfirm "Should vdirsyncer attempt to create it?";
                      CCreateCollection n; CConstruct n]),
     inr (mkStorage n (net (delete "type" args)))).
Proof.
  intros Hv Hi Hn Hnet. cbv zeta. intros Hinit Ha Hcr Hinit2.
  pose proof (fun w => storage_class_from_config_known cfg n w Hv Hi Hn) as Hc.
  unfold storage_instance_from_config.
  rewrite (first_attempt_cnf sco 1 cfg true conn (sco n) (delete "type" cfg) m w (Hc w) Hnet Hinit).
  cbv zeta.
  unfold handle_collection_not_found, click_confirm, read_answer, try_create_collection, try_except.
  munfold. cbn -[storage_class_from_config storage_instance_from_config_aux].
  rewrite Ha, Hv. cbn -[storage_class_from_config storage_instance_from_config_aux].
  rewrite Hc. cbn -[storage_class_from_config storage_instance_from_config_aux].
  rewrite Hn, Hcr. cbn -[storage_class_from_config storage_instance_from_config_aux].
  rewrite aux_S. munfold.
  rewrite (storage_class_from_config_known _ n _ (lookup_insert_eq _ _ _) Hi Hn).
  rewrite delete_insert_eq.
  destruct (sc_network (sco n)) eqn:Hnw; [rewrite (Hnet eq_refl)|]; cbn;
    rewrite Hinit2, Hn; cbn; rewrite <- !app_assoc; reflexivity.
Qed.

Lemma given_iff (cfg : config) k :
  k ∈ map fst (map_to_list cfg) <-> is_Some (cfg !! k).
Proof.
  rewrite list_elem_of_In, in_map_iff. split.
  - intros ([k' v] & <- & Hin). exists v. apply elem_of_map_to_list, list_elem_of_In. exact Hin.
  - intros [v Hv]. exists (k, v). split; [reflexivity|].
    apply list_elem_of_In, elem_of_map_to_list, Hv.
Qed.

Lemma filter_nil_iff {A} (P : A -> Prop) `{forall x, Decision (P x)} (l : list A) :
  filter P l = [] <-> Forall (fun x => ~ P x) l.
Proof.
  induction l as [|x l IH].
  - rewrite filter_nil. split; auto.
  - rewrite filter_cons, Forall_cons. destruct (decide (P x)) as [Hp|Hp].
    + split; [discriminate|intros [Hn _]; contradiction].
    + rewrite IH. tauto.
Qed.

Lemma init_problems_nil cls cfg :
  init_problems cls cfg = [] <->
  Forall (fun k => is_Some (cfg !! k)) (sc_required_args cls) /\
  map_Forall (fun k _ => k ∈ sc_all_args cls) cfg.
Proof.
  unfold init_problems. cbv zeta. rewrite app_nil.
  assert (E : forall (b : Prop) `{Decision b} (x : string),
             (if bool_decide b then [] else [x]) = [] <-> b).
  { intros b ? x. case_bool_decide; split; auto; [discriminate|contradiction]. }
  rewrite !E, !filter_nil_iff. split.
  - intros [Hreq Hall]. split.
    + apply Forall_forall. intros k Hk. apply given_iff.
      pose proof (proj1 (Forall_forall _ _) Hreq k Hk) as Hn. cbv beta in Hn.
      destruct (decide (k ∈ map fst (map_to_list cfg))); tauto.
    + intros i v Hiv.
      assert (Hi : i ∈ map fst (map_to_list cfg)) by (apply given_iff; exists v; exact Hiv).
      pose proof (proj1 (Forall_forall _ _) Hall i Hi) as Hn. cbv beta in Hn.
      destruct (decide (i ∈ sc_all_args cls)); tauto.
  - intros [Hreq Hall]. split.
    + apply Forall_forall. intros k Hk Hn. apply Hn, given_iff.
      exact (proj1 (Forall_forall _ _) Hreq k Hk).
    + apply Forall_forall. intros k Hk Hn. apply Hn.
      apply given_iff in Hk. destruct Hk as [v Hv]. exact (Hall k v Hv).
Qed.

(** X10: [handle_storage_init_error] always raises and changes nothing.  It
    raises the original error exactly when that error is not a TypeError
    mentioning [__init__], or when the config gives every required
    parameter and only accepted parameters. *)
Theorem handle_storage_init_error_outcome cls cfg e w :
  exists e', handle_storage_init_error cls cfg e w = (w, inl e') /\
  (e' = e <->
   is_init_type_error e = false \/
   (Forall (fun k => is_Some (cfg !! k)) (sc_required_args cls) /\
    map_Forall (fun k _ => k ∈ sc_all_args cls) cfg)).
Proof.
  unfold handle_storage_init_error, is_init_type_error. munfold.
  destruct e; try (eexists; split; [reflexivity|]; split; auto; fail).
  destruct (contains _ _); [|eexists; split; [reflexivity|]; split; auto].
  destruct (init_problems cls cfg) as [|p ps] eqn:Ep.
  - eexists; split; [reflexivity|]; split; [intros _; right; apply init_problems_nil, Ep|auto].
  - destruct (cfg !! "instance_name");
      (eexists; split; [reflexivity|]; split;
       [discriminate|intros [H|H]; [discriminate|apply init_problems_nil in H; congruence]]).
Qed.

(** X11: [handle_collection_not_found] returns a config only after the user
    answered yes, and the returned config has the original "type". *)
Theorem handle_collection_not_found_returns cfg c m w args :
  (handle_collection_not_found sco cfg c m w).2 = inr args ->
  exists rest st, w_answers w = AYes :: rest /\
    cfg !! "type" = Some st /\ args !! "type" = Some st.
Proof.
  unfold handle_collection_not_found, click_confirm, read_answer, try_create_collection, try_except.
  munfold. cbn -[storage_class_from_config].
  destruct (w_answers w) as [|[| |] rest]; cbn -[storage_class_from_config]; try discriminate.
  destruct (cfg !! "type") as [st|]; cbn -[storage_class_from_config]; [|discriminate].
  match goal with
  | |- context [storage_class_from_config sco cfg ?w0] =>
      destruct (storage_class_from_config_pure sco cfg w0) as [r Hr]; rewrite Hr
  end.
  destruct r as [e|[cls cfg']]; cbn; [discriminate|].
  destruct (sc_create_collection cls _) as [err|a]; cbn;
    [destruct (is_not_implemented err); cbn; discriminate|].
  intros H. injection H as <-. exists rest, st. split; [reflexivity|]. split; [reflexivity|].
  apply lookup_insert_eq.
Qed.

(** X12: after a yes, a storage that cannot create collections
    (NotImplementedError) gets its message logged as an error and the call
    fails with UserError "Unable to find or create collection ..."; any
    other error from [create_collection] propagates unchanged. *)
Theorem handle_collection_not_found_create_fails cfg c m w rest n :
  cfg !! "type" = Some (VStr n) -> n ∈ storage_index -> storage_name (sco n) = n ->
  w_answers w = AYes :: rest ->
  let inst := cval_str (default VNone (cfg !! "instance_name")) in
  let warn := ((if String.eqb m EmptyString then EmptyString else m ++ nl)
               ++ "No collection " ++ cval_json c ++ " found for storage " ++ inst ++ ".")%string in
  let w1 := mkWorld (w_fs w) (w_log w ++ [(Warning, warn)]) rest
              (w_trace w ++ [CConfirm "Should vdirsyncer attempt to create it?"; CCreateCollection n]) in
  let create := sc_create_collection (sco n) (<["collection" := c]> (delete "type" cfg)) in
  (forall msg, create = inl (NotImplementedError msg) ->
     handle_collection_not_found sco cfg c m w =
       (mkWorld (w_fs w1) (w_log w1 ++ [(Error, msg)]) rest (w_trace w1),
        inl (UserError ("Unable to find or create collection " ++ qt ++ cval_str c ++ qt
                        ++ " for storage " ++ qt ++ inst ++ qt
                        ++ ". Please create the collection yourself.") []))) /\
  (forall e, is_not_implemented e = false -> create = inl e ->
     handle_collection_not_found sco cfg c m w = (w1, inl e)).
Proof.
  intros Hv Hi Hn Ha. cbv zeta.
  pose proof (fun w => storage_class_from_config_known cfg n w Hv Hi Hn) as Hc.
  unfold handle_collection_not_found, click_confirm, read_answer, try_create_collection, try_except.
  munfold. cbn -[storage_class_from_config]. rewrite Ha, Hv. cbn -[storage_class_from_config].
  rewrite Hc. cbn. rewrite Hn. split.
  - intros msg Hcr. rewrite Hcr. cbn. rewrite <- !app_assoc. reflexivity.
  - intros e He Hcr. rewrite Hcr. cbn. rewrite He. cbn. rewrite <- !app_assoc. reflexivity.
Qed.
End StorageExtra.

(* ------------------------------------------------------------------ *)
(** ** The storage index *)

Section IndexProofs.
Variable import_item : string -> exn + storage_class.

(** X13: [storage_names[name]] for an unregistered name raises KeyError; an
    import failure raises and is not cached, so the next lookup imports
    again; an imported class is cached before its name is checked, so even a
    class reporting another name (AssertionError on this lookup) is returned
    by every later lookup of [name], without importing. *)
Theorem index_getitem_cache idx name :
  let '(idx1, r) := index_getitem import_item idx name in
  (idx !! name = None -> idx1 = idx /\ r = inl (KeyError name)) /\
  (forall c, idx !! name = Some (ICached c) -> idx1 = idx /\ r = inr c) /\
  (forall item e, idx !! name = Some (ILocator item) -> import_item item = inl e ->
     idx1 = idx /\ r = inl e) /\
  (forall item rv, idx !! name = Some (ILocator item) -> import_item item = inr rv ->
     idx1 = <[name := ICached rv]> idx /\
     r = (if String.eqb (storage_name rv) name then inr rv else inl AssertionError) /\
     forall import', index_getitem import' idx1 name = (idx1, inr rv)).
Proof.
  unfold index_getitem at 1.
  destruct (idx !! name) as [[item|c]|] eqn:E.
  - destruct (import_item item) as [e|rv] eqn:Ei.
    + split; [discriminate|]. split; [discriminate|].
      split; [intros ? ? [= <-] He; rewrite Ei in He; injection He as ->; auto|].
      intros ? ? [= <-] He. congruence.
    + split; [discriminate|]. split; [discriminate|].
      split; [intros ? ? [= <-] He; congruence|].
      intros ? ? [= <-] He. rewrite Ei in He. injection He as <-.
      split; [reflexivity|]. split; [reflexivity|].
      intros import'. unfold index_getitem. rewrite lookup_insert_eq. reflexivity.
  - split; [discriminate|]. split; [intros ? [= <-]; auto|].
    split; intros ? ? ?; discriminate.
  - split; [auto|]. split; [discriminate|]. split; intros ? ? ?; discriminate.
Qed.
End IndexProofs.

Section IndexAgree.
Variable import_item : string -> exn + storage_class.
Variable sco : string -> storage_class.

Lemma index_getitem_consistent idx n w :
  (forall m, m ∈ storage_index -> storage_name (sco m) = m) ->
  index_consistent import_item sco idx ->
  (index_getitem import_item idx n).2 = (storage_names_get sco (VStr n) w).2 /\
  index_consistent import_item sco (index_getitem import_item idx n).1.
Proof.
  intros Hname Hinv. unfold storage_names_get. munfold.
  destruct (Hinv n) as [[Hn Hl]|[Hn [Hl|(item & Hl & Hi)]]]; unfold index_getitem; rewrite Hl.
  - rewrite bool_decide_false by exact Hn. split; [reflexivity|exact Hinv].
  - rewrite bool_decide_true by exact Hn. rewrite (Hname n Hn), String.eqb_refl.
    split; [reflexivity|exact Hinv].
  - rewrite Hi, bool_decide_true by exact Hn. rewrite (Hname n Hn), String.eqb_refl.
    split; [reflexivity|]. cbn [fst].
    intros m. destruct (decide (m = n)) as [->|Hmn].
    + right. split; [exact Hn|]. left. apply lookup_insert_eq.
    + rewrite lookup_insert_ne by congruence. apply Hinv.
Qed.

Lemma index_init_consistent :
  Forall (fun p => import_item p.2 = inr (sco p.1)) storage_locators ->
  index_consistent import_item sco storage_index_init.
Proof.
  intros HF n. destruct (decide (n ∈ storage_index)) as [Hn|Hn].
  - right. split; [exact Hn|]. right.
    assert (Hn' : n ∈ storage_locators.*1) by exact Hn.
    apply list_elem_of_fmap in Hn' as ([n' item] & -> & Hp). exists item. split.
    + unfold storage_index_init. apply elem_of_list_to_map_1.
      * apply (bool_decide_unpack _). vm_compute. exact I.
      * apply list_elem_of_In, in_map_iff. exists (n', item). split; [reflexivity|].
        apply list_elem_of_In, Hp.
    + exact (proj1 (Forall_forall _ _) HF _ Hp).
  - left. split; [exact Hn|]. apply not_elem_of_list_to_map_1. exact Hn.
Qed.

Lemma index_run_consistent idx ns w :
  (forall m, m ∈ storage_index -> storage_name (sco m) = m) ->
  index_consistent import_item sco idx ->
  (index_run import_item idx ns).2 = map (fun n => (storage_names_get sco (VStr n) w).2) ns.
Proof.
  intros Hname. revert idx. induction ns as [|n ns IH]; intros idx Hinv; [reflexivity|].
  cbn [index_run]. destruct (index_getitem_consistent idx n w Hname Hinv) as [Hr Hi].
  destruct (index_getitem import_item idx n) as [idx1 r]. cbn [fst snd] in *.
  specialize (IH idx1 Hi). destruct (index_run import_item idx1 ns) as [idx2 rs].
  cbn [snd] in *. rewrite Hr, IH. reflexivity.
Qed.

(** X14: when every registered locator imports to a class reporting its
    registered name, any sequence of lookups on the fresh index gives, one
    by one, the results of the cache-free [storage_names_get]. *)
Theorem index_run_agrees ns w :
  (forall m, m ∈ storage_index -> storage_name (sco m) = m) ->
  Forall (fun p => import_item p.2 = inr (sco p.1)) storage_locators ->
  (index_run import_item storage_index_init ns).2 =
  map (fun n => (storage_names_get sco (VStr n) w).2) ns.
Proof.
  intros Hname HF. exact (index_run_consistent _ ns w Hname (index_init_consistent HF)).
Qed.
End IndexAgree.

(* ------------------------------------------------------------------ *)
(** ** Octal numerals and error reports *)

Lemma oct_digit_code n : N_of_ascii (ascii_of_N (48 + n mod 8)) = 48 + n mod 8.
Proof.
  apply N_ascii_embedding. pose proof (N.mod_lt n 8 ltac:(lia)). lia.
Qed.

Lemma oct_digits_S f n acc :
  oct_digits (S f) n acc =
  (let acc' := String (ascii_of_N (48 + n mod 8)) acc in
   if n <? 8 then acc' else oct_digits f (n / 8) acc').
Proof. reflexivity. Qed.

Lemma oct_digit_range n : (48 <=? 48 + n mod 8) && (48 + n mod 8 <=? 55) = true.
Proof.
  pose proof (N.mod_lt n 8 ltac:(lia)). set (r := n mod 8) in *. clearbody r.
  apply andb_true_intro. split; apply N.leb_le; lia.
Qed.

Lemma oct_digits_spec fuel : forall n acc,
  n < 8 ^ N.of_nat (S fuel) ->
  oct_value_acc (oct_digits (S fuel) n acc) 0 = oct_value_acc acc n /\
  all_octal (oct_digits (S fuel) n acc) = all_octal acc /\
  exists c s, oct_digits (S fuel) n acc = String c s /\ (n <> 0 -> c <> "0"%char).
Proof.
  induction fuel as [|f IH]; intros n acc Hn;
    pose proof (N.mod_lt n 8 ltac:(lia)) as Hm;
    pose proof (N.div_mod n 8 ltac:(lia)) as Hd;
    rewrite oct_digits_S; cbv zeta; destruct (n <? 8) eqn:E.
  1,3: apply N.ltb_lt in E;
      cbn [oct_value_acc all_octal]; rewrite oct_digit_code, oct_digit_range;
      rewrite N.mod_small in * by exact E;
      (split; [f_equal; lia|]); split; [reflexivity|];
      exists (ascii_of_N (48 + n)), acc; split; [reflexivity|];
      intros Hn0 Hc; apply (f_equal N_of_ascii) in Hc;
      rewrite N_ascii_embedding in Hc by lia; cbn in Hc; lia.
  - apply N.ltb_ge in E. cbn in Hn. lia.
  - apply N.ltb_ge in E.
    assert (Hq : n / 8 < 8 ^ N.of_nat (S f)).
    { apply N.Div0.div_lt_upper_bound. rewrite (Nat2N.inj_succ (S f)), N.pow_succ_r' in Hn. lia. }
    destruct (IH (n / 8) (String (ascii_of_N (48 + n mod 8)) acc) Hq)
      as (H1 & H2 & c & s & H3 & H4).
    split; [|split].
    + rewrite H1. cbn [oct_value_acc]. rewrite oct_digit_code. f_equal.
      rewrite (N.add_comm 48 (n mod 8)), N.add_sub.
      set (q := n / 8) in *. set (r := n mod 8) in *. clearbody q r. lia.
    + rewrite H2. cbn [all_octal]. rewrite oct_digit_code, oct_digit_range. reflexivity.
    + exists c, s. split; [exact H3|]. intros _. apply H4.
      intros H0. apply N.div_small_iff in H0; lia.
Qed.

(** X15: the numeral [oct n] that the permission warning prints is a
    nonempty string of octal digits, with no leading zero unless [n] is 0,
    whose base-8 value is [n] (for [n < 8^64]). *)
Theorem oct_format n :
  n < 8 ^ 64 ->
  oct_value (oct n) = n /\ all_octal (oct n) = true /\
  exists c s, oct n = String c s /\ (n <> 0 -> c <> "0"%char).
Proof.
  intros Hn. destruct (oct_digits_spec 63 n EmptyString Hn) as (H1 & H2 & H3).
  split; [exact H1|]. split; [exact H2|exact H3].
Qed.

(** X16: with no error given and none being handled, [handle_cli_error]
    does not raise: the bare [raise] gives a RuntimeError, which is reported
    as an unknown error (without "for ..." when the status name is None or
    empty), followed by its traceback at debug level. *)
Theorem handle_cli_error_no_active sn w :
  let err := RuntimeError "No active exception to reraise" in
  let head := match sn with
              | Some s => if String.eqb s EmptyString then "Unknown error occurred"
                          else ("Unknown error occurred for " ++ s)%string
              | None => "Unknown error occurred"
              end in
  handle_cli_error sn None None w =
    (mkWorld (w_fs w)
       (w_log w ++ [(Error, head ++ ": No active exception to reraise" ++ nl
                            ++ "Use `-vdebug` to see the full traceback.");
                    (Debug, format_tb err)]%string)
       (w_answers w) (w_trace w), inr ()).
Proof.
  cbv zeta. unfold handle_cli_error. munfold. cbn. rewrite <- app_assoc. reflexivity.
Qed.

(** ** Witnesses and counterexamples *)

(** C5, at a local storage whose constructor reports a missing collection:
    the user declines and the call fails with the UserError naming
    collection "c" and instance "foo". *)
Lemma storage_instance_collection_recovery_witness :
  storage_class_from_config (fun _ => failing_class (CollectionNotFound "nf")) ex_cfg
    (mkWorld ∅ [] [ANo] []) =
    (mkWorld ∅ [] [ANo] [], inr (failing_class (CollectionNotFound "nf"), delete "type" ex_cfg)) /\
  (storage_instance_from_config (fun _ => failing_class (CollectionNotFound "nf")) ex_cfg true false
     (mkWorld ∅ [] [ANo] [])).2 =
  inl (UserError ("Unable to find or create collection " ++ qt ++ "c" ++ qt
                  ++ " for storage " ++ qt ++ "foo" ++ qt
                  ++ ". Please create the collection yourself.") []).
Proof.
  assert (Hc : storage_class_from_config (fun _ => failing_class (CollectionNotFound "nf")) ex_cfg
    (mkWorld ∅ [] [ANo] []) =
    (mkWorld ∅ [] [ANo] [], inr (failing_class (CollectionNotFound "nf"), delete "type" ex_cfg)))
    by (vm_compute; reflexivity).
  split; [exact Hc|].
  destruct (storage_instance_collection_recovery (fun _ => failing_class (CollectionNotFound "nf"))
    ex_cfg false _ _ "nf" _ Hc (fun H => H) eq_refl) as (_ & _ & _ & H).
  exact (H [] eq_refl).
Defined.

(** C1, at a TypeError for an unexpected parameter: it becomes UserError
    "Failed to initialize foo" listing the parameter. *)
Lemma storage_instance_init_failure_witness :
  storage_class_from_config (fun _ => failing_class init_type_error) ex_cfg2 (mkWorld ∅ [] [] []) =
    (mkWorld ∅ [] [] [], inr (failing_class init_type_error, delete "type" ex_cfg2)) /\
  (storage_instance_from_config (fun _ => failing_class init_type_error) ex_cfg2 false false
     (mkWorld ∅ [] [] [])).2 =
  inl (UserError "Failed to initialize foo" ["filesystem storage doesn't take the parameters: bogus"]).
Proof.
  assert (Hc : storage_class_from_config (fun _ => failing_class init_type_error) ex_cfg2
    (mkWorld ∅ [] [] []) =
    (mkWorld ∅ [] [] [], inr (failing_class init_type_error, delete "type" ex_cfg2)))
    by (vm_compute; reflexivity).
  split; [exact Hc|].
  rewrite (storage_instance_init_failure (fun _ => failing_class init_type_error) ex_cfg2 false false
    _ _ init_type_error _ Hc (fun H => H) eq_refl ltac:(intros m; discriminate)).
  vm_compute. reflexivity.
Defined.

(** C1 does not hold as stated: an OSError raised by the constructor reaches
    the caller unchanged. *)
Lemma storage_instance_raw_error :
  (storage_instance_from_config (fun _ => failing_class (OSError 13 "Permission denied"))
     (<["type" := VStr "filesystem"]> ∅) false false (mkWorld ∅ [] [] [])).2
  = inl (OSError 13 "Permission denied").
Proof. vm_compute. reflexivity. Qed.

(** C4, at a legacy file holding [{"a": 1}] in UTF-16-LE: it is replaced
    by a store holding the pair. *)
Lemma manage_sync_status_legacy_witness :
  get_status_path (fun s => s) "/st" "p" None (Some "items") ex_legacy_world =
    (ex_legacy_world, inr "/st/p.items"%string) /\
  loads_bytes 1000 (123 :: ex_utf16_tail) = Loaded (JObj ex_data) /\
  (manage_sync_status (fun s => s) 1000 "/st" "p" None ex_legacy_world).2 = inr "/st/p.items"%string /\
  w_fs (manage_sync_status (fun s => s) 1000 "/st" "p" None ex_legacy_world).1 =
    {[ "/st/p.items" := mkFile 420 (SqliteDb (obj_items ex_data)) ]}.
Proof.
  assert (Hg : get_status_path (fun s => s) "/st" "p" None (Some "items") ex_legacy_world =
    (ex_legacy_world, inr "/st/p.items"%string)) by (vm_compute; reflexivity).
  assert (Hl : loads_bytes 1000 (123 :: ex_utf16_tail) = Loaded (JObj ex_data))
    by (vm_compute; reflexivity).
  split; [exact Hg|]. split; [exact Hl|].
  destruct (manage_sync_status_legacy (fun s => s) 1000 "/st" "p" None _ _ _ Hg) as [H _ ].
  pose proof (H 384 ex_utf16_tail ex_data eq_refl Hl) as M.
  destruct (manage_sync_status (fun s => s) 1000 "/st" "p" None ex_legacy_world) as [w2 r2].
  cbn [fst snd]. destruct M as (-> & -> & _). split; [reflexivity|].
  vm_compute. reflexivity.
Defined.

(** C6, at a file that is not valid JSON: the result is {}. *)
Lemma load_status_empty_witness :
  get_status_path (fun s => s) "/st" "p" None (Some "items") ex_broken_world =
    (ex_broken_world, inr "/st/p.items"%string) /\
  loads_text 1000 (T "{oops") = DecodeError /\
  (load_status (fun s => s) 1000 "/st" "p" None (Some "items") ex_broken_world).2 = inr [].
Proof.
  assert (Hg : get_status_path (fun s => s) "/st" "p" None (Some "items") ex_broken_world =
    (ex_broken_world, inr "/st/p.items"%string)) by (vm_compute; reflexivity).
  assert (Hd : loads_text 1000 (T "{oops") = DecodeError) by (vm_compute; reflexivity).
  split; [exact Hg|]. split; [exact Hd|].
  destruct (load_status_empty (fun s => s) 1000 "/st" "p" None "items" _ _ _ Hg) as (_ & H & _).
  destruct (H ex_broken eq_refl Hd) as [w2 ->]. reflexivity.
Defined.

(** C7, at [{"a": 1}] saved into an empty directory. *)
Lemma save_load_roundtrip_witness :
  json_wf (JObj ex_data) /\ (json_depth (JObj ex_data) <= 1000)%nat /\
  (dump_depth (JObj ex_data) <= 1000)%nat /\
  (load_status (fun s => s) 1000 "/st" "p" None (Some "items")
     (save_status (fun s => s) 1000 "/st" "p" "items" ex_data None (mkWorld ∅ [] [] [])).1).2
  = inr (obj_items ex_data).
Proof.
  assert (Hwf : json_wf (JObj ex_data)).
  { cbn. split; [apply NoDup_singleton|]. split; [reflexivity|]. split; [|exact I].
    apply Nat.leb_le. vm_compute. reflexivity. }
  assert (Hd : (json_depth (JObj ex_data) <= 1000)%nat) by (cbn; lia).
  assert (Hfb : (dump_depth (JObj ex_data) <= 1000)%nat) by (cbn; lia).
  split; [exact Hwf|]. split; [exact Hd|]. split; [exact Hfb|].
  pose proof (save_load_roundtrip (fun s => s) 1000 1000 "/st" "p" ex_data (mkWorld ∅ [] [] [])
    Hwf Hd Hfb) as H.
  destruct (save_status (fun s => s) 1000 "/st" "p" "items" ex_data None (mkWorld ∅ [] [] [])) as [w1 r1].
  cbn [fst]. destruct (load_status (fun s => s) 1000 "/st" "p" None (Some "items") w1) as [w2 r2].
  destruct H as (_ & _ & H & _). exact (proj1 (H (lookup_empty _))).
Defined.

(** C9, at [[[1, 2], [1.0, 3]]]: [dict] takes 1 and 1.0 for the same key,
    keeping the first key and the last value. *)
Lemma load_status_parsed_witness :
  get_status_path (fun s => s) "/st" "p" None (Some "items") ex_pairs_world =
    (ex_pairs_world, inr "/st/p.items"%string) /\
  loads_text 1000 ex_pairs = Loaded (JArr [JArr [JInt 1; JInt 2]; JArr [JFloat (T "1.0"); JInt 3]]) /\
  (load_status (fun s => s) 1000 "/st" "p" None (Some "items") ex_pairs_world).2 =
    inr [(KInt 1, JInt 3)].
Proof.
  assert (Hg : get_status_path (fun s => s) "/st" "p" None (Some "items") ex_pairs_world =
    (ex_pairs_world, inr "/st/p.items"%string)) by (vm_compute; reflexivity).
  assert (Hl : loads_text 1000 ex_pairs =
    Loaded (JArr [JArr [JInt 1; JInt 2]; JArr [JFloat (T "1.0"); JInt 3]])) by (vm_compute; reflexivity).
  split; [exact Hg|]. split; [exact Hl|].
  destruct (load_status_parsed (fun s => s) 1000 "/st" "p" None "items" _ _ _ ex_pairs_file ex_pairs _
    Hg eq_refl eq_refl Hl) as [[w2 ->] _].
  vm_compute. reflexivity.
Defined.

(** C3: [assert_permissions] does not treat the ceiling as a bitmask: a
    file of mode 0o077 has bits outside the ceiling 0o600, yet it is left
    unchanged, because 0o077 is not numerically greater than 0o600. *)
Lemma assert_permissions_not_bitmask :
  N.land 63 (N.lxor 511 STATUS_PERMISSIONS) <> 0 /\
  assert_permissions "/st/p.items" STATUS_PERMISSIONS
    (mkWorld {[ "/st/p.items" := mkFile 63 (Bytes []) ]} [] [] []) =
    (mkWorld {[ "/st/p.items" := mkFile 63 (Bytes []) ]} [] [] [], inr ()).
Proof. split; [discriminate|]. vm_compute. reflexivity. Qed.

(** C4 does not hold as stated: a valid legacy object nested deeper than the
    recursion limit makes the peek raise RecursionError, which is not
    treated as no legacy data. *)
Lemma manage_sync_status_deep_legacy :
  match loads 1002 deep_legacy with Loaded (JObj _) => True | _ => False end /\
  (manage_sync_status (fun s => s) 1000 "/st" "p" None
     (mkWorld {[ "/st/p.items" := mkFile 384 (Bytes deep_legacy) ]} [] [] [])).2
  = inl RecursionError.
Proof. split; vm_compute; [exact I|reflexivity]. Qed.

(** C6 does not hold as stated: content that fails to parse by nesting
    deeper than the recursion limit raises RecursionError. *)
Lemma load_status_deep_raises :
  (load_status (fun s => s) 1000 "/st" "p" None (Some "items")
     (mkWorld {[ "/st/p.items" := mkFile 384 (Bytes (repeat 91 1001)) ]} [] [] [])).2
  = inl RecursionError.
Proof. vm_compute. reflexivity. Qed.

(** C7 does not hold as stated: an extensionless legacy file is renamed over
    the saved ".items" file when loading, so the saved data is lost. *)
Lemma save_load_legacy_shadow :
  let w := mkWorld {[ "/st/p" := mkFile 384 (Bytes (T "{}")) ]} [] [] [] in
  let w1 := (save_status (fun s => s) 1000 "/st" "p" "items" ex_data None w).1 in
  (load_status (fun s => s) 1000 "/st" "p" None (Some "items") w1).2 = inr [].
Proof. vm_compute. reflexivity. Qed.

(** C9 does not hold as stated: the JSON string "ab" cannot be converted to
    a dict, but the ValueError is caught and the result is {}. *)
Lemma load_status_string_gives_empty :
  loads 1000 (T (qt ++ "ab" ++ qt)%string) = Loaded (JStr (T "ab")) /\
  (load_status (fun s => s) 1000 "/st" "p" None (Some "items")
     (mkWorld {[ "/st/p.items" := mkFile 384 (Bytes (T (qt ++ "ab" ++ qt)%string)) ]} [] [] [])).2
  = inr [].
Proof. split; vm_compute; reflexivity. Qed.

(** X2, at an extensionless legacy file "/st/p": it ends up at
    "/st/p.items". *)
Lemma get_status_path_rename_overwrites_witness :
  w_fs ex_unsuffixed_world !! "/st/p" = Some (mkFile 420 (Bytes (123 :: ex_tail))) /\
  w_fs (get_status_path (fun s => s) "/st" "p" None (Some "items") ex_unsuffixed_world).1
    !! "/st/p.items" = Some (mkFile 420 (Bytes (123 :: ex_tail))).
Proof.
  assert (Hf : w_fs ex_unsuffixed_world !! "/st/p" = Some (mkFile 420 (Bytes (123 :: ex_tail))))
    by reflexivity.
  split; [exact Hf|].
  pose proof (get_status_path_rename_overwrites (fun s => s) "/st" "p" None ex_unsuffixed_world _ Hf) as H.
  destruct (get_status_path (fun s => s) "/st" "p" None (Some "items") ex_unsuffixed_world) as [w1 r].
  destruct H as (_ & H & _). exact H.
Defined.

(** X3, at a status file with mode 0o644: a second call does nothing. *)
Lemma assert_permissions_tightens_witness :
  w_fs ex_open_world !! "/st/p.items" = Some (mkFile 420 (Bytes (T "{}"))) /\
  assert_permissions "/st/p.items" STATUS_PERMISSIONS
    (assert_permissions "/st/p.items" STATUS_PERMISSIONS ex_open_world).1 =
  ((assert_permissions "/st/p.items" STATUS_PERMISSIONS ex_open_world).1, inr ()).
Proof.
  assert (Hf : w_fs ex_open_world !! "/st/p.items" = Some (mkFile 420 (Bytes (T "{}"))))
    by reflexivity.
  split; [exact Hf|].
  pose proof (assert_permissions_tightens "/st/p.items" STATUS_PERMISSIONS ex_open_world _ Hf) as H.
  destruct (assert_permissions "/st/p.items" STATUS_PERMISSIONS ex_open_world) as [w1 r].
  destruct H as (_ & _ & _ & _ & _ & H). exact H.
Defined.

(** X5, at [{"a": 1}] saved as "collections" next to an extensionless
    legacy file. *)
Lemma save_load_roundtrip_general_witness :
  ("collections" <> "items" \/ w_fs ex_unsuffixed_world !! "/st/p" = None) /\
  json_wf (JObj ex_data) /\
  (load_status (fun s => s) 1000 "/st" "p" None (Some "collections")
     (save_status (fun s => s) 1000 "/st" "p" "collections" ex_data None ex_unsuffixed_world).1).2
  = inr (obj_items ex_data).
Proof.
  assert (Hc : "collections" <> "items" \/ w_fs ex_unsuffixed_world !! "/st/p" = None)
    by (left; discriminate).
  assert (Hwf : json_wf (JObj ex_data)).
  { cbn. split; [apply NoDup_singleton|]. split; [reflexivity|]. split; [|exact I].
    apply Nat.leb_le. vm_compute. reflexivity. }
  split; [exact Hc|]. split; [exact Hwf|].
  pose proof (save_load_roundtrip_general (fun s => s) 1000 1000 "/st" "p" "collections" ex_data None
    ex_unsuffixed_world Hc Hwf ltac:(cbn; lia) ltac:(cbn; lia)) as H.
  destruct (save_status (fun s => s) 1000 "/st" "p" "collections" ex_data None ex_unsuffixed_world)
    as [w1 r1].
  destruct H as [_ H]. cbn [fst]. rewrite H. reflexivity.
Defined.

(** X6, at the extensionless legacy file [{"a": 1}]. *)
Lemma manage_sync_status_extensionless_witness :
  w_fs ex_unsuffixed_world !! "/st/p" = Some (mkFile 420 (Bytes (123 :: ex_tail))) /\
  loads_bytes 1000 (123 :: ex_tail) = Loaded (JObj ex_data) /\
  w_fs (manage_sync_status (fun s => s) 1000 "/st" "p" None ex_unsuffixed_world).1 =
    {[ "/st/p.items" := mkFile 420 (SqliteDb (obj_items ex_data)) ]}.
Proof.
  assert (Hf : w_fs ex_unsuffixed_world !! "/st/p" = Some (mkFile 420 (Bytes (123 :: ex_tail))))
    by reflexivity.
  assert (Hl : loads_bytes 1000 (123 :: ex_tail) = Loaded (JObj ex_data)) by (vm_compute; reflexivity).
  split; [exact Hf|]. split; [exact Hl|].
  pose proof (manage_sync_status_extensionless (fun s => s) 1000 "/st" "p" None
    ex_unsuffixed_world _ _ _ Hf Hl) as H.
  destruct (manage_sync_status (fun s => s) 1000 "/st" "p" None ex_unsuffixed_world) as [w2 r].
  destruct H as (_ & H & _). cbn [fst]. rewrite H. vm_compute. reflexivity.
Defined.


(** X8, at a local storage "filesystem" whose constructor succeeds. *)
Lemma storage_instance_from_config_constructs_witness :
  ex_cfg !! "type" = Some (VStr "filesystem") /\ "filesystem" ∈ storage_index /\
  storage_instance_from_config ex_named_class ex_cfg false false (mkWorld ∅ [] [] []) =
    (mkWorld ∅ [] [] [CConstruct "filesystem"],
     inr (mkStorage "filesystem" (delete "type" ex_cfg))).
Proof.
  assert (Hv : ex_cfg !! "type" = Some (VStr "filesystem")) by reflexivity.
  assert (Hi : "filesystem" ∈ storage_index)
    by (apply (bool_decide_unpack _); vm_compute; exact I).
  split; [exact Hv|]. split; [exact Hi|].
  destruct (storage_instance_from_config_constructs ex_named_class ex_cfg false false "filesystem"
    (mkWorld ∅ [] [] []) Hv Hi eq_refl) as [_ H].
  exact (H (fun H => H) eq_refl).
Defined.

(** X9, at a storage whose constructor reports the collection missing until
    [create_collection] has run: the user answers yes and the retry
    succeeds. *)
Lemma storage_instance_recovers_witness :
  w_trace (storage_instance_from_config ex_creating_class ex_cfg true false
             (mkWorld ∅ [] [AYes] [])).1 =
    [CConstruct "filesystem"; CConfirm "Should vdirsyncer attempt to create it?";
     CCreateCollection "filesystem"; CConstruct "filesystem"] /\
  (storage_instance_from_config ex_creating_class ex_cfg true false (mkWorld ∅ [] [AYes] [])).2 =
    inr (mkStorage "filesystem"
           (delete "type" (<["created" := VBool true]> (<["collection" := VStr "c"]>
                                                         (delete "type" ex_cfg))))).
Proof.
  assert (Hi : "filesystem" ∈ storage_index)
    by (apply (bool_decide_unpack _); vm_compute; exact I).
  rewrite (storage_instance_recovers ex_creating_class ex_cfg false "filesystem" EmptyString
    (<["created" := VBool true]> (<["collection" := VStr "c"]> (delete "type" ex_cfg)))
    [] (mkWorld ∅ [] [AYes] []) eq_refl Hi eq_refl (fun H => H)
    ltac:(vm_compute; reflexivity) eq_refl eq_refl ltac:(vm_compute; reflexivity)).
  split; reflexivity.
Defined.

(** X11, at the same storage: the returned config keeps type
    "filesystem". *)
Lemma handle_collection_not_found_returns_witness :
  exists args,
    (handle_collection_not_found ex_creating_class ex_cfg (VStr "c") EmptyString
       (mkWorld ∅ [] [AYes] [])).2 = inr args /\
    args !! "type" = Some (VStr "filesystem").
Proof.
  assert (Hr : (handle_collection_not_found ex_creating_class ex_cfg (VStr "c") EmptyString
       (mkWorld ∅ [] [AYes] [])).2 =
    inr (<["type" := VStr "filesystem"]> (<["created" := VBool true]>
           (<["collection" := VStr "c"]> (delete "type" ex_cfg)))))
    by (vm_compute; reflexivity).
  destruct (handle_collection_not_found_returns ex_creating_class ex_cfg (VStr "c") EmptyString
    (mkWorld ∅ [] [AYes] []) _ Hr) as (rest & st & _ & Ht & Hargs).
  eexists. split; [exact Hr|]. rewrite Hargs, <- Ht. reflexivity.
Defined.

(** X12, at a local storage that cannot create collections: the user
    answers yes and gets the UserError. *)
Lemma handle_collection_not_found_create_fails_witness :
  (handle_collection_not_found (fun _ => failing_class (CollectionNotFound "nf")) ex_cfg
     (VStr "c") "nf" (mkWorld ∅ [] [AYes] [])).2 =
  inl (UserError ("Unable to find or create collection " ++ qt ++ "c" ++ qt
                  ++ " for storage " ++ qt ++ "foo" ++ qt
                  ++ ". Please create the collection yourself.") []).
Proof.
  assert (Hi : "filesystem" ∈ storage_index)
    by (apply (bool_decide_unpack _); vm_compute; exact I).
  destruct (handle_collection_not_found_create_fails (fun _ => failing_class (CollectionNotFound "nf"))
    ex_cfg (VStr "c") "nf" (mkWorld ∅ [] [AYes] []) [] "filesystem" eq_refl Hi eq_refl eq_refl)
    as [H _].
  rewrite (H EmptyString eq_refl). reflexivity.
Defined.

(** X14, at lookups of "caldav", an unregistered name, and "caldav"
    again. *)
Lemma index_run_agrees_witness :
  (index_run ex_import storage_index_init ["caldav"; "nope"; "caldav"]%string).2 =
  [inr (ex_named_class "caldav"); inl (KeyError "nope"); inr (ex_named_class "caldav")].
Proof.
  rewrite (index_run_agrees ex_import ex_named_class _ (mkWorld ∅ [] [] [])
    (fun m _ => eq_refl) ltac:(repeat constructor)).
  reflexivity.
Defined.

(** X15, at the ceiling 0o600 (384). *)
Lemma oct_format_witness :
  384 < 8 ^ 64 /\ oct 384 = "600"%string /\ oct_value "600" = 384.
Proof.
  assert (H : 384 < 8 ^ 64) by (vm_compute; reflexivity).
  split; [exact H|]. split; [reflexivity|].
  destruct (oct_format 384 H) as [Hv _]. exact Hv.
Defined.
